(** * marge-bot: the merge job and the configuration check

    A shallow embedding of [marge/job.py] and of the checks that end
    [_parse_config] in [marge/app.py].

    The forge client, the Git working copy and the wall clock are external
    collaborators.  They are taken as an environment [Env] of fallible,
    stateful operations over an abstract state of the outside world, and
    every call the job makes is appended to a trace together with its
    outcome.  Python exceptions are values of [Res]; instants and durations
    are counted in microseconds; logging is left out. *)

From Stdlib Require Import ZArith List Ascii String Bool Lia.
Import ListNotations.
Local Open Scope string_scope.
Local Open Scope Z_scope.

(** ** Python values and exceptions *)

Module Py.

(** The Python values that occur as exception arguments. *)
Inductive PyVal : Type :=
| PyNone
| PyBool (b : bool)
| PyInt (z : Z)
| PyStr (s : string).

(** The exception classes the two modules raise or catch.  [Exception]
    stands for every class defined elsewhere (forge transport errors and the
    like). *)
Inductive ExnClass : Type :=
| Exception
| AssertionError
| UnboundLocalError
| GitError
| CannotMerge
| SkipMerge
| MargeBotCliArgError.

Definition ExnClass_eqb (a b : ExnClass) : bool :=
  match a, b with
  | Exception, Exception
  | AssertionError, AssertionError
  | UnboundLocalError, UnboundLocalError
  | GitError, GitError
  | CannotMerge, CannotMerge
  | SkipMerge, SkipMerge
  | MargeBotCliArgError, MargeBotCliArgError => true
  | _, _ => false
  end.

(** The base class written in each [class] statement; [None] for the root.
    [class SkipMerge(CannotMerge)], [class CannotMerge(Exception)]. *)
Definition base (c : ExnClass) : option ExnClass :=
  match c with
  | Exception => None
  | AssertionError => Some Exception
  | UnboundLocalError => Some Exception
  | GitError => Some Exception
  | CannotMerge => Some Exception
  | SkipMerge => Some CannotMerge
  | MargeBotCliArgError => Some Exception
  end.

(** The method resolution order of a class: the class, then its bases.  The
    hierarchy has depth three, which bounds the walk. *)
Fixpoint mro_from (depth : nat) (c : ExnClass) : list ExnClass :=
  match depth with
  | O => [c]
  | S d => c :: match base c with
                | Some b => mro_from d b
                | None => []
                end
  end.

Definition mro (c : ExnClass) : list ExnClass := mro_from 3 c.

Definition issubclass (c k : ExnClass) : bool :=
  existsb (ExnClass_eqb k) (mro c).

(** An exception instance: its class and the [args] tuple given to the
    constructor. *)
Record Exn : Type := mkExn { exn_class : ExnClass; args : list PyVal }.

Definition isinstance (e : Exn) (k : ExnClass) : bool :=
  issubclass (exn_class e) k.

(** [CannotMerge.reason], inherited by [SkipMerge]. *)
Definition reason (e : Exn) : PyVal :=
  match args e with
  | [] => PyStr "Unknown reason!"
  | a :: _ => a
  end.

(** The outcome of a Python call: a value, or a raised exception. *)
Inductive Res (A : Type) : Type :=
| Ret (a : A)
| Raise (e : Exn).
Arguments Ret {A} a.
Arguments Raise {A} e.

Definition new (k : ExnClass) (msg : string) : Exn := mkExn k [PyStr msg].

End Py.
Import Py.

(** ** Data model *)

(** [class MergeStrategy(enum.Enum)]. *)
Module MergeStrategy.

Inductive t : Type := merge | rebase | rebase_then_merge.

Definition value (s : t) : string :=
  match s with
  | merge => "merge"
  | rebase => "rebase"
  | rebase_then_merge => "rebase_then_merge"
  end.

Definition eqb (a b : t) : bool :=
  match a, b with
  | merge, merge | rebase, rebase | rebase_then_merge, rebase_then_merge => true
  | _, _ => false
  end.

End MergeStrategy.

(** Snapshots of the forge objects the job reads.  Their classes live in
    modules outside [marge/job.py]; only the attributes the job consumes are
    kept. *)
Record User : Type := mkUser {
  user_id : Z;
  username : string;
  user_name : string;
  email : string }.

Record Project : Type := mkProject {
  project_id : Z;
  only_allow_merge_if_pipeline_succeeds : bool }.

Record Branch : Type := mkBranch { protected : bool }.

Record Pipeline : Type := mkPipeline {
  pipeline_id : Z;
  pipeline_sha : string;
  status : string }.

(** [approver_usernames] and [approvals_left] are only ever rendered through
    [str.format]; the record keeps the rendered text of each. *)
Record Approvals : Type := mkApprovals {
  sufficient : bool;
  approver_ids : list Z;
  approver_usernames : string;
  approvals_left : string }.

Record MergeRequest : Type := mkMergeRequest {
  iid : Z;
  state : string;
  work_in_progress : bool;
  squash : bool;
  source_project_id : Z;
  source_branch : string;
  target_branch : string;
  sha : string;
  assignee_ids : list Z;
  author_id : Z;
  web_url : string }.

(** [MergeJobOptions].  Durations and instants are in microseconds, the
    resolution of [timedelta] and [datetime]; [embargo] is the interval union
    seen through its [covers] method. *)
Record MergeJobOptions : Type := mkMergeJobOptions {
  add_tested : bool;
  add_part_of : bool;
  add_reviewers : bool;
  reapprove : bool;
  approval_timeout : Z;
  embargo : Z -> bool;
  ci_timeout : Z;
  merge_strategy : MergeStrategy.t;
  require_ci_run_by_me : bool;
  ci_timeout_skip : bool }.

Definition requests_commit_tagging (o : MergeJobOptions) : bool :=
  add_tested o || add_part_of o || add_reviewers o.

(** [MergeJob]: the bot's user, the target project, the options, and the
    [remote_url] attribute of its repo. *)
Record MergeJob : Type := mkMergeJob {
  _user : User;
  _project : Project;
  _options : MergeJobOptions;
  repo_remote_url : string }.

(** ** Calls to the collaborators *)

(** One constructor per external call, with its arguments and its outcome. *)
Inductive Event : Type :=
| EvRefetchInfo (r : Res MergeRequest)
| EvFetchApprovals (r : Res Approvals)
| EvUserFetchById (uid : Z) (r : Res User)
| EvBranchFetchByName (pid : Z) (branch : string) (r : Res Branch)
| EvPipelinesByBranch (pid : Z) (branch : string) (user : option string)
                      (r : Res (list Pipeline))
| EvPipelineStart (pid : Z) (branch : string) (r : Res Pipeline)
| EvRebase (source target : string) (url : option string) (local : bool)
           (r : Res string)
| EvMerge (source target : string) (url : option string) (local : bool)
          (r : Res string)
| EvGetCommitHash (rev : string) (r : Res string)
| EvTagWithTrailer (trailer_name : string) (trailer_values : list string)
                   (branch start_commit : string) (r : Res string)
| EvPush (branch : string) (url : option string) (force : bool) (r : Res unit)
| EvCheckoutBranch (branch : string) (r : Res unit)
| EvRemoveBranch (branch : string) (r : Res unit)
| EvSleep (secs : Z).

(** The collaborators over a state [S] of the outside world (forge, working
    copy, clock).  Every call may raise and may change the state.
    [datetime_utcnow] is what the clock shows in a state.  Time passes
    through the calls, through [time_sleep], and, unseen by the job, up to
    every read of the clock ([time_passes]), so that two reads with no call
    between them need not agree.  [GitError_str] is [str(exc)] for the
    exception classes of the [git] module. *)
Record Env (S : Type) : Type := mkEnv {
  MergeRequest_refetch_info : MergeRequest -> S -> Res MergeRequest * S;
  MergeRequest_fetch_approvals : MergeRequest -> S -> Res Approvals * S;
  User_fetch_by_id : Z -> S -> Res User * S;
  Branch_fetch_by_name : Z -> string -> S -> Res Branch * S;
  Pipeline_pipelines_by_branch :
    Z -> string -> option string -> S -> Res (list Pipeline) * S;
  Pipeline_start : Z -> string -> S -> Res Pipeline * S;
  repo_rebase : string -> string -> option string -> bool -> S -> Res string * S;
  repo_merge : string -> string -> option string -> bool -> S -> Res string * S;
  repo_get_commit_hash : string -> S -> Res string * S;
  repo_tag_with_trailer :
    string -> list string -> string -> string -> S -> Res string * S;
  repo_push : string -> option string -> bool -> S -> Res unit * S;
  repo_checkout_branch : string -> S -> Res unit * S;
  repo_remove_branch : string -> S -> Res unit * S;
  datetime_utcnow : S -> Z;
  time_passes : S -> S;
  time_sleep : Z -> S -> S;
  GitError_str : Exn -> string }.

Arguments MergeRequest_refetch_info {S}.
Arguments MergeRequest_fetch_approvals {S}.
Arguments User_fetch_by_id {S}.
Arguments Branch_fetch_by_name {S}.
Arguments Pipeline_pipelines_by_branch {S}.
Arguments Pipeline_start {S}.
Arguments repo_rebase {S}.
Arguments repo_merge {S}.
Arguments repo_get_commit_hash {S}.
Arguments repo_tag_with_trailer {S}.
Arguments repo_push {S}.
Arguments repo_checkout_branch {S}.
Arguments repo_remove_branch {S}.
Arguments datetime_utcnow {S}.
Arguments time_passes {S}.
Arguments time_sleep {S}.
Arguments GitError_str {S}.

(** The outside state and the chronological trace of the calls made. *)
Record World (S : Type) : Type := mkWorld { ext : S; trace : list Event }.
Arguments mkWorld {S}.
Arguments ext {S}.
Arguments trace {S}.

(** ** A state-and-exception monad *)

Definition M (St A : Type) : Type := St -> Res A * St.

Definition ret {St A} (a : A) : M St A := fun w => (Ret a, w).

Definition raise {St A} (e : Exn) : M St A := fun w => (Raise e, w).

Definition bind {St A B} (m : M St A) (k : A -> M St B) : M St B :=
  fun w => match m w with
           | (Ret a, w') => k a w'
           | (Raise e, w') => (Raise e, w')
           end.

Declare Scope job_scope.
Delimit Scope job_scope with job.
Notation "x <- c1 ;; c2" := (bind c1 (fun x => c2))
  (at level 61, c1 at next level, right associativity) : job_scope.
Notation "c1 ;; c2" := (bind c1 (fun _ => c2))
  (at level 61, right associativity) : job_scope.
Local Open Scope job_scope.

(** [try: body except k as exc: handler exc]. *)
Definition try_except {St A} (body : M St A) (k : ExnClass)
           (handler : Exn -> M St A) : M St A :=
  fun w => match body w with
           | (Raise e, w') => if isinstance e k then handler e w' else (Raise e, w')
           | (Ret a, w') => (Ret a, w')
           end.

(** [try: body finally: cleanup]: the cleanup always runs, and an exception
    it raises replaces the outcome of the body. *)
Definition try_finally {St A} (body : M St A) (cleanup : M St unit) : M St A :=
  fun w => let (r, w') := body w in
           match cleanup w' with
           | (Ret _, w'') => (r, w'')
           | (Raise e, w'') => (Raise e, w'')
           end.

(** A [while True] loop whose body either returns from the function
    ([Some a]) or goes round again ([None]); [None] as a result means the
    iteration budget ran out. *)
Fixpoint loop {St A} (fuel : nat) (body : M St (option A)) (w : St)
  : option (Res A * St) :=
  match fuel with
  | O => None
  | S fuel' =>
      match body w with
      | (Raise e, w') => Some (Raise e, w')
      | (Ret (Some a), w') => Some (Ret a, w')
      | (Ret None, w') => loop fuel' body w'
      end
  end.

Fixpoint mapM {St A B} (f : A -> M St B) (l : list A) : M St (list B) :=
  match l with
  | [] => ret []
  | a :: l' => b <- f a ;; bs <- mapM f l' ;; ret (b :: bs)
  end.

(** [x or default] on an optional string: [None] and [''] are falsy. *)
Definition py_or (x : option string) (default : string) : string :=
  match x with
  | Some EmptyString => default
  | Some s => s
  | None => default
  end.

Definition mem_string (s : string) (l : list string) : bool :=
  existsb (String.eqb s) l.

Definition mem_Z (z : Z) (l : list Z) : bool := existsb (Z.eqb z) l.

Definition option_string_eqb (a : option string) (b : string) : bool :=
  match a with
  | Some s => String.eqb s b
  | None => false
  end.

(** ** The merge job ([class MergeJob]) *)

Section Job.

Context {S : Type}.
Variable env : Env S.
Variable self : MergeJob.

(** Computations of the job run over the outside world and its trace. *)
Local Notation "'JobM' A" := (M (World S) A) (at level 10, A at level 9, only parsing).

(** A call to a collaborator: run it on the outside state and record it. *)
Definition call {A} (op : S -> Res A * S) (ev : Res A -> Event) : JobM A :=
  fun w => let (r, s') := op (ext w) in
           (r, mkWorld s' (trace w ++ [ev r])).

(** [datetime.utcnow()]: time has passed since the state was last touched,
    and the clock is read; the read is not recorded in the trace. *)
Definition utcnow : JobM Z :=
  fun w => let s := time_passes env (ext w) in
           (Ret (datetime_utcnow env s), mkWorld s (trace w)).

Definition sleep (secs : Z) : JobM unit :=
  fun w => (Ret tt, mkWorld (time_sleep env secs (ext w)) (trace w ++ [EvSleep secs])).

Definition refetch_info (mr : MergeRequest) : JobM MergeRequest :=
  call (MergeRequest_refetch_info env mr) EvRefetchInfo.

Definition fetch_approvals (mr : MergeRequest) : JobM Approvals :=
  call (MergeRequest_fetch_approvals env mr) EvFetchApprovals.

Definition fetch_by_id (uid : Z) : JobM User :=
  call (User_fetch_by_id env uid) (EvUserFetchById uid).

Definition fetch_by_name (pid : Z) (branch : string) : JobM Branch :=
  call (Branch_fetch_by_name env pid branch) (EvBranchFetchByName pid branch).

Definition pipelines_by_branch (pid : Z) (branch : string) (user : option string)
  : JobM (list Pipeline) :=
  call (Pipeline_pipelines_by_branch env pid branch user)
       (EvPipelinesByBranch pid branch user).

Definition start (pid : Z) (branch : string) : JobM Pipeline :=
  call (Pipeline_start env pid branch) (EvPipelineStart pid branch).

Definition rebase (source target : string) (url : option string) (local : bool)
  : JobM string :=
  call (repo_rebase env source target url local) (EvRebase source target url local).

Definition merge (source target : string) (url : option string) (local : bool)
  : JobM string :=
  call (repo_merge env source target url local) (EvMerge source target url local).

Definition get_commit_hash (rev : string) : JobM string :=
  call (repo_get_commit_hash env rev) (EvGetCommitHash rev).

Definition tag_with_trailer (trailer_name : string) (trailer_values : list string)
           (branch start_commit : string) : JobM string :=
  call (repo_tag_with_trailer env trailer_name trailer_values branch start_commit)
       (EvTagWithTrailer trailer_name trailer_values branch start_commit).

Definition push (branch : string) (url : option string) (force : bool) : JobM unit :=
  call (repo_push env branch url force) (EvPush branch url force).

Definition checkout_branch (branch : string) : JobM unit :=
  call (repo_checkout_branch env branch) (EvCheckoutBranch branch).

Definition remove_branch (branch : string) : JobM unit :=
  call (repo_remove_branch env branch) (EvRemoveBranch branch).

Definition opts : MergeJobOptions := _options self.

(** [during_merge_embargo]. *)
Definition during_merge_embargo : JobM bool :=
  now <- utcnow ;;
  ret (embargo opts now).

(** [ensure_mergeable_mr].  The Python method updates [merge_request] in
    place; the model returns the refreshed snapshot. *)
Definition ensure_mergeable_mr (merge_request : MergeRequest) : JobM MergeRequest :=
  merge_request <- refetch_info merge_request ;;
  if work_in_progress merge_request then
    raise (new CannotMerge "Sorry, I can't merge requests marked as Work-In-Progress!")
  else if squash merge_request && requests_commit_tagging (_options self) then
    raise (new CannotMerge
      "Sorry, merging requests marked as auto-squash would ruin my commit tagging!")
  else
    approvals <- fetch_approvals merge_request ;;
    if negb (sufficient approvals) then
      raise (new CannotMerge
        ("Insufficient approvals (have: " ++ approver_usernames approvals
         ++ " missing: " ++ approvals_left approvals ++ ")"))
    else
      let state := state merge_request in
      if negb (mem_string state ["opened"; "reopened"; "locked"]) then
        if mem_string state ["merged"; "closed"] then
          raise (new SkipMerge ("The merge request is already " ++ state ++ "!"))
        else
          raise (new CannotMerge
            ("The merge request is in an unknown state: " ++ state))
      else
        embargoed <- during_merge_embargo ;;
        if embargoed then
          raise (new SkipMerge "Merge embargo!")
        else if negb (mem_Z (user_id (_user self)) (assignee_ids merge_request)) then
          raise (new SkipMerge "It is not assigned to me anymore!")
        else ret merge_request.

(** [_get_reviewer_names_and_emails]. *)
Definition _get_reviewer_names_and_emails (approvals : Approvals)
  : JobM (list string) :=
  mapM (fun uid => u <- fetch_by_id uid ;;
                   ret (user_name u ++ " <" ++ email u ++ ">"))
       (approver_ids approvals).

(** [add_trailers]: [None] when no trailer was applied, else the SHA the
    last [tag_with_trailer] returned. *)
Definition add_trailers (merge_request : MergeRequest) : JobM (option string) :=
  (* add Reviewed-by *)
  reviewers <-
    (if add_reviewers (_options self) then
       approvals <- fetch_approvals merge_request ;;
       names <- _get_reviewer_names_and_emails approvals ;;
       ret (Some names)
     else ret None) ;;
  let sha : option string := None in
  sha <-
    match reviewers with
    | Some reviewers =>
        s <- tag_with_trailer "Reviewed-by" reviewers
               (source_branch merge_request)
               ("origin/" ++ target_branch merge_request) ;;
        ret (Some s)
    | None => ret sha
    end ;;
  (* add Tested-by *)
  let should_add_tested :=
    add_tested (_options self)
    && only_allow_merge_if_pipeline_succeeds (_project self) in
  let tested_by :=
    if should_add_tested
    then Some [user_name (_user self) ++ " <" ++ web_url merge_request ++ ">"]
    else None in
  sha <-
    match tested_by with
    | Some tested_by =>
        if MergeStrategy.eqb (merge_strategy (_options self)) MergeStrategy.rebase
        then
          s <- tag_with_trailer "Tested-by" tested_by
                 (source_branch merge_request)
                 (source_branch merge_request ++ "^") ;;
          ret (Some s)
        else ret sha
    | None => ret sha
    end ;;
  (* add Part-of *)
  let part_of :=
    if add_part_of (_options self)
    then Some ("<" ++ web_url merge_request ++ ">")
    else None in
  sha <-
    match part_of with
    | Some part_of =>
        s <- tag_with_trailer "Part-of" [part_of]
               (source_branch merge_request)
               ("origin/" ++ target_branch merge_request) ;;
        ret (Some s)
    | None => ret sha
    end ;;
  ret sha.

(** [get_mr_ci_status]: the status of the first listed pipeline whose SHA is
    [commit_sha], or [None]. *)
Definition get_mr_ci_status (merge_request : MergeRequest)
           (commit_sha : option string) (ci_run_by_me : bool)
  : JobM (option string) :=
  let commit_sha :=
    match commit_sha with
    | None => sha merge_request
    | Some c => c
    end in
  pipelines <- pipelines_by_branch
                 (source_project_id merge_request)
                 (source_branch merge_request)
                 (if ci_run_by_me then Some (username (_user self)) else None) ;;
  let current_pipeline :=
    find (fun pipeline => String.eqb (pipeline_sha pipeline) commit_sha) pipelines in
  match current_pipeline with
  | Some current_pipeline => ret (Some (status current_pipeline))
  | None => ret None
  end.

Definition waiting_time_in_secs : Z := 10.

(** One turn of the [while] loop of [wait_for_ci_to_pass], the loop test
    included: [Some tt] is [return], [None] is the fall through to the next
    turn, and leaving the loop raises. *)
Definition wait_for_ci_to_pass_turn (merge_request : MergeRequest)
           (commit_sha : string) (time_0 : Z) : JobM (option unit) :=
  let ci_run_by_me := require_ci_run_by_me (_options self) in
  now <- utcnow ;;
  if now - time_0 <? ci_timeout (_options self) then
    ci_status <- get_mr_ci_status merge_request (Some commit_sha) ci_run_by_me ;;
    if option_string_eqb ci_status "success" then ret (Some tt)
    else if option_string_eqb ci_status "skipped" then ret (Some tt)
    else if option_string_eqb ci_status "failed" then
      raise (new CannotMerge "CI failed!")
    else if option_string_eqb ci_status "canceled" then
      raise (new CannotMerge "Someone canceled the CI.")
    else
      (match ci_status with
       | None =>
           if ci_run_by_me
           then _ <- start (source_project_id merge_request)
                       (source_branch merge_request) ;; ret tt
           else ret tt
       | Some _ => ret tt
       end) ;;
      sleep waiting_time_in_secs ;;
      ret None
  else if ci_timeout_skip (_options self) then
    raise (new SkipMerge "CI is taking too long.")
  else
    raise (new CannotMerge "CI is taking too long.").

(** [wait_for_ci_to_pass], with a budget of loop turns. *)
Definition wait_for_ci_to_pass (fuel : nat) (merge_request : MergeRequest)
           (commit_sha : option string) (w : World S)
  : option (Res unit * World S) :=
  let commit_sha :=
    match commit_sha with
    | None => sha merge_request
    | Some c => c
    end in
  match utcnow w with
  | (Ret time_0, w) =>
      loop fuel (wait_for_ci_to_pass_turn merge_request commit_sha time_0) w
  | (Raise e, w) => Some (Raise e, w)
  end.

(** [rebase_then_merge].  The bare [raise] re-raises the exception being
    handled by the innermost [except] clause, which is [merge_error]. *)
Definition rebase_then_merge (source target : string) (url : option string)
           (local : bool) : JobM string :=
  try_except (rebase source target url local) GitError
    (fun rebase_error =>
       try_except (merge source target url local) GitError
         (fun merge_error => raise merge_error)).

(** [fuse]. *)
Definition fuse (source target : string) (source_repo_url : option string)
           (local : bool) : JobM string :=
  let strategy :=
    match merge_strategy (_options self) with
    | MergeStrategy.merge => merge
    | MergeStrategy.rebase => rebase
    | MergeStrategy.rebase_then_merge => rebase_then_merge
    end in
  strategy source target source_repo_url local.


(** The local variables of [update_from_target_branch_and_push] that its
    [except] and [else] clauses read; a name is [None] until assigned. *)
Record Locals : Type := mkLocals {
  updated_sha : option string;
  target_sha : option string;
  rewritten_sha : option string;
  branch_updated : bool;
  branch_rewritten : bool;
  changes_pushed : bool }.

Definition set_updated_sha (v : string) (l : Locals) : Locals :=
  mkLocals (Some v) (target_sha l) (rewritten_sha l)
           (branch_updated l) (branch_rewritten l) (changes_pushed l).
Definition set_target_sha (v : string) (l : Locals) : Locals :=
  mkLocals (updated_sha l) (Some v) (rewritten_sha l)
           (branch_updated l) (branch_rewritten l) (changes_pushed l).
Definition set_rewritten_sha (v : string) (l : Locals) : Locals :=
  mkLocals (updated_sha l) (target_sha l) (Some v)
           (branch_updated l) (branch_rewritten l) (changes_pushed l).
Definition set_branch_updated (v : bool) (l : Locals) : Locals :=
  mkLocals (updated_sha l) (target_sha l) (rewritten_sha l)
           v (branch_rewritten l) (changes_pushed l).
Definition set_branch_rewritten (v : bool) (l : Locals) : Locals :=
  mkLocals (updated_sha l) (target_sha l) (rewritten_sha l)
           (branch_updated l) v (changes_pushed l).
Definition set_changes_pushed (v : bool) (l : Locals) : Locals :=
  mkLocals (updated_sha l) (target_sha l) (rewritten_sha l)
           (branch_updated l) (branch_rewritten l) v.

(** Computations of the [try] block: the locals survive a raise. *)
Local Notation "'BlockM' A" := (M (Locals * World S) A)
  (at level 10, A at level 9, only parsing).

Definition lift {A} (m : JobM A) : BlockM A :=
  fun lw => let (r, w') := m (snd lw) in (r, (fst lw, w')).

Definition assign (f : Locals -> Locals) : BlockM unit :=
  fun lw => (Ret tt, (f (fst lw), snd lw)).

(** Reading a local: [UnboundLocalError] when it was never assigned (with
    the message of CPython up to 3.10). *)
Definition read_local (name : string) (v : option string) : JobM string :=
  match v with
  | Some s => ret s
  | None =>
      raise (new UnboundLocalError
        ("local variable '" ++ name ++ "' referenced before assignment"))
  end.

(** The [try] block of [update_from_target_branch_and_push]. *)
Definition update_try (merge_request : MergeRequest)
           (source_repo_url : option string) : BlockM unit :=
  let source_branch := source_branch merge_request in
  let target_branch := target_branch merge_request in
  updated_sha <- lift (fuse source_branch target_branch source_repo_url false) ;;
  assign (set_updated_sha updated_sha) ;;
  assign (set_branch_updated true) ;;
  target_sha <- lift (get_commit_hash ("origin/" ++ target_branch)) ;;
  assign (set_target_sha target_sha) ;;
  if String.eqb updated_sha target_sha then
    raise (new CannotMerge
      ("these changes already exist in branch `" ++ target_branch ++ "`"))
  else
    trailers_sha <- lift (add_trailers merge_request) ;;
    let rewritten_sha := py_or trailers_sha updated_sha in
    assign (set_rewritten_sha rewritten_sha) ;;
    assign (set_branch_rewritten (negb (String.eqb rewritten_sha updated_sha))) ;;
    lift (push source_branch source_repo_url true) ;;
    assign (set_changes_pushed true).

(** The [except git.GitError as exc] clause, run with the locals as the
    raise left them. *)
Definition update_except (merge_request : MergeRequest) (l : Locals) (exc : Exn)
  : JobM (string * string * string) :=
  if negb (branch_updated l) then
    raise (new CannotMerge "got conflicts while rebasing, your problem now...")
  else if negb (branch_rewritten l) then
    rewritten <- read_local "rewritten_sha" (rewritten_sha l) ;;
    updated <- read_local "updated_sha" (updated_sha l) ;;
    raise (new CannotMerge
      ("expected commit id to change on merge, but we have rewritten=" ++ rewritten
       ++ " updated=" ++ updated ++ ". Or it could be the GitError: "
       ++ GitError_str env exc))
  else if negb (changes_pushed l) then
    protected_branch <-
      (if branch_rewritten l then
         b <- fetch_by_name (source_project_id merge_request)
                            (source_branch merge_request) ;;
         ret (protected b)
       else ret false) ;;
    if protected_branch then
      raise (new CannotMerge
        "Sorry, I can't push rewritten changes to protected branches!")
    else
      raise (new CannotMerge
        ("failed to push with strategy "
         ++ MergeStrategy.value (merge_strategy opts) ++ ", check my logs!"))
  else raise exc.

(** The [else] clause: [return target_sha, updated_sha, rewritten_sha]. *)
Definition update_else (l : Locals) : JobM (string * string * string) :=
  target <- read_local "target_sha" (target_sha l) ;;
  updated <- read_local "updated_sha" (updated_sha l) ;;
  rewritten <- read_local "rewritten_sha" (rewritten_sha l) ;;
  ret (target, updated, rewritten).

(** The [finally] clause. *)
Definition update_finally (merge_request : MergeRequest) : JobM unit :=
  if negb (String.eqb (source_branch merge_request) "master") then
    checkout_branch "master" ;;
    remove_branch (source_branch merge_request)
  else ret tt.

Definition no_locals : Locals := mkLocals None None None false false false.

(** The [try] block with its [except] and [else] clauses. *)
Definition update_try_except_else (merge_request : MergeRequest)
           (source_repo_url : option string) : JobM (string * string * string) :=
  fun w =>
    match update_try merge_request source_repo_url (no_locals, w) with
    | (Ret _, (l, w')) => update_else l w'
    | (Raise exc, (l, w')) =>
        if isinstance exc GitError
        then update_except merge_request l exc w'
        else (Raise exc, w')
    end.

(** [update_from_target_branch_and_push]. *)
Definition update_from_target_branch_and_push (merge_request : MergeRequest)
           (source_repo_url : option string) : JobM (string * string * string) :=
  let source_branch_ := source_branch merge_request in
  let target_branch_ := target_branch merge_request in
  if option_string_eqb source_repo_url (repo_remote_url self) then
    raise (mkExn AssertionError [])
  else if match source_repo_url with None => true | Some _ => false end
          && String.eqb source_branch_ target_branch_ then
    raise (new CannotMerge "source and target branch seem to coincide!")
  else
    try_finally
      (update_try_except_else merge_request source_repo_url)
      (update_finally merge_request).

End Job.

(** ** The strategy check of [_parse_config] ([marge/app.py]) *)

Module App.

(** What [parser.parse_args] returns, as far as the checks read it. *)
Record Namespace : Type := mkNamespace {
  use_merge_strategy : bool;
  merge_strategy : MergeStrategy.t;
  add_tested : bool;
  batch : bool;
  add_part_of : bool;
  add_reviewers : bool }.

(** The namespace after [del config.use_merge_strategy]. *)
Record Config : Type := mkConfig {
  config_merge_strategy : MergeStrategy.t;
  config_add_tested : bool;
  config_batch : bool;
  config_add_part_of : bool;
  config_add_reviewers : bool }.

(** The one-character string holding a double quote. *)
Definition dquote : string := String "034"%char EmptyString.

(** The loop over [['--auth-token', '--ssh-key']]. *)
Fixpoint check_bad_args (bad_args cli_args : list string) (config : Config)
  : Res Config :=
  match bad_args with
  | [] => Ret config
  | bad_arg :: rest =>
      if mem_string bad_arg cli_args then
        Raise (new MargeBotCliArgError
          (dquote ++ bad_arg ++ dquote ++ " can only be set via ENV var or config file."))
      else check_bad_args rest cli_args config
  end.

(** [_parse_config] from the parsed namespace on; [cli_args] are the settings
    the parser read from the command line. *)
Definition _parse_config (config : Namespace) (cli_args : list string) : Res Config :=
  let merge_strategy :=
    if use_merge_strategy config then MergeStrategy.merge
    else merge_strategy config in
  if MergeStrategy.eqb merge_strategy MergeStrategy.merge && batch config then
    Raise (new MargeBotCliArgError
      "--merge-strategy=merge and --batch are currently mutually exclusive")
  else if MergeStrategy.eqb merge_strategy MergeStrategy.merge && add_tested config then
    Raise (new MargeBotCliArgError
      "--merge-strategy=merge and --add-tested are currently mutually exclusive")
  else
    check_bad_args ["--auth-token"; "--ssh-key"] cli_args
      (mkConfig merge_strategy (add_tested config) (batch config)
                (add_part_of config) (add_reviewers config)).

(** The strategy the configuration selects. *)
Definition selected_strategy (config : Namespace) : MergeStrategy.t :=
  if use_merge_strategy config then MergeStrategy.merge else merge_strategy config.

End App.

(** ** Observations on traces *)

(** The trailer names of the [tag_with_trailer] calls, in call order. *)
Fixpoint tag_names (tr : list Event) : list string :=
  match tr with
  | [] => []
  | EvTagWithTrailer n _ _ _ _ :: rest => n :: tag_names rest
  | _ :: rest => tag_names rest
  end.

(** The SHA returned by the last [tag_with_trailer] call, if any returned. *)
Fixpoint last_tag_sha (tr : list Event) : option string :=
  match tr with
  | [] => None
  | EvTagWithTrailer _ _ _ _ (Ret s) :: rest =>
      match last_tag_sha rest with
      | Some s' => Some s'
      | None => Some s
      end
  | _ :: rest => last_tag_sha rest
  end.

Definition is_rewrite_or_push (ev : Event) : bool :=
  match ev with
  | EvTagWithTrailer _ _ _ _ _ | EvPush _ _ _ _ => true
  | _ => false
  end.

Definition is_cleanup (ev : Event) : bool :=
  match ev with
  | EvCheckoutBranch _ _ | EvRemoveBranch _ _ => true
  | _ => false
  end.

(** The number of [Pipeline.start] calls. *)
Fixpoint starts (tr : list Event) : nat :=
  match tr with
  | [] => O
  | EvPipelineStart _ _ _ :: rest => Datatypes.S (starts rest)
  | _ :: rest => starts rest
  end.

(** The CI status a listing yields for [commit_sha], as [get_mr_ci_status]
    selects it. *)
Definition listed_status (commit_sha : string) (pipelines : list Pipeline)
  : option string :=
  option_map status
    (find (fun pipeline => String.eqb (pipeline_sha pipeline) commit_sha) pipelines).

(** The number of polls that found no pipeline for [commit_sha]. *)
Fixpoint absent_polls (commit_sha : string) (tr : list Event) : nat :=
  match tr with
  | [] => O
  | EvPipelinesByBranch _ _ _ (Ret ps) :: rest =>
      match listed_status commit_sha ps with
      | None => Datatypes.S (absent_polls commit_sha rest)
      | Some _ => absent_polls commit_sha rest
      end
  | _ :: rest => absent_polls commit_sha rest
  end.

(** A status that ends the wait: the loop returns or raises on it. *)
Definition resolved (ci_status : option string) : bool :=
  option_string_eqb ci_status "success"
  || option_string_eqb ci_status "skipped"
  || option_string_eqb ci_status "failed"
  || option_string_eqb ci_status "canceled".

(** No call of the trace raised, and no poll returned a resolved status. *)
Fixpoint nothing_resolved (commit_sha : string) (tr : list Event) : bool :=
  match tr with
  | [] => true
  | EvPipelinesByBranch _ _ _ (Ret ps) :: rest =>
      negb (resolved (listed_status commit_sha ps))
      && nothing_resolved commit_sha rest
  | EvPipelinesByBranch _ _ _ (Raise _) :: _ => false
  | EvPipelineStart _ _ (Raise _) :: _ => false
  | _ :: rest => nothing_resolved commit_sha rest
  end.

(** A trace made of polling rounds only: a poll, possibly a pipeline start,
    then a sleep of [secs] seconds; the last round may stop short of its
    sleep. *)
Fixpoint paced (secs : Z) (tr : list Event) : bool :=
  match tr with
  | [] => true
  | EvPipelinesByBranch _ _ _ _ :: rest =>
      match rest with
      | [] => true
      | EvSleep s :: rest' => (s =? secs) && paced secs rest'
      | EvPipelineStart _ _ _ :: rest' =>
          match rest' with
          | [] => true
          | EvSleep s :: rest'' => (s =? secs) && paced secs rest''
          | _ => false
          end
      | _ => false
      end
  | _ => false
  end.

(** ** The specification's reading of Validate and of the trailer policy *)

Module Spec.

(** The terminal branches of the state machine, and going on. *)
Inductive Outcome : Type :=
| Proceed
| Skipped (why : string)
| Failed (why : string).

(** The rejection checks of Validate in the order the specification lists
    them, each with the outcome it rejects to. *)
Definition validate_checks (self : MergeJob) (mr : MergeRequest)
           (approvals : Approvals) (embargoed : bool)
  : list (bool * Outcome) :=
  [ (work_in_progress mr,
     Failed "Sorry, I can't merge requests marked as Work-In-Progress!");
    (squash mr && requests_commit_tagging (_options self),
     Failed "Sorry, merging requests marked as auto-squash would ruin my commit tagging!");
    (negb (sufficient approvals),
     Failed ("Insufficient approvals (have: " ++ approver_usernames approvals
             ++ " missing: " ++ approvals_left approvals ++ ")"));
    (mem_string (state mr) ["merged"; "closed"],
     Skipped ("The merge request is already " ++ state mr ++ "!"));
    (negb (mem_string (state mr) ["opened"; "reopened"; "locked"; "merged"; "closed"]),
     Failed ("The merge request is in an unknown state: " ++ state mr));
    (embargoed, Skipped "Merge embargo!");
    (negb (mem_Z (user_id (_user self)) (assignee_ids mr)),
     Skipped "It is not assigned to me anymore!") ].

(** The outcome of the first check that holds. *)
Fixpoint first_match (checks : list (bool * Outcome)) : Outcome :=
  match checks with
  | [] => Proceed
  | (true, o) :: _ => o
  | (false, _) :: rest => first_match rest
  end.

(** [Failed] is a raised [CannotMerge], [Skipped] a raised [SkipMerge]. *)
Definition as_result {A} (a : A) (o : Outcome) : Res A :=
  match o with
  | Proceed => Ret a
  | Skipped why => Raise (new SkipMerge why)
  | Failed why => Raise (new CannotMerge why)
  end.

(** The trailers that apply, in the order of application. *)
Definition applicable_trailers (self : MergeJob) : list string :=
  let o := _options self in
  ((if add_reviewers o then ["Reviewed-by"] else [])
   ++ (if add_tested o && only_allow_merge_if_pipeline_succeeds (_project self)
          && MergeStrategy.eqb (merge_strategy o) MergeStrategy.rebase
       then ["Tested-by"] else [])
   ++ (if add_part_of o then ["Part-of"] else []))%list.

End Spec.

(** ** A scripted forge and working copy *)

Module Fake.

(** What each collaborator answers. *)
Record Script : Type := mkScript {
  refetched : MergeRequest -> Res MergeRequest;
  approvals : Res Approvals;
  user : Z -> Res User;
  branch : Res Branch;
  listed : list Pipeline;
  head : string;
  rebased : Res string;
  merged : Res string;
  commit_hash : Res string;
  tagged : string -> Res string;
  pushed : Res unit;
  checked_out : Res unit;
  removed : Res unit }.

(** The state that moves: the clock, in microseconds, and the pipelines the
    job started. *)
Record Forge : Type := mkForge { clock : Z; started : list Pipeline }.

Definition str (e : Exn) : string :=
  match args e with
  | [PyStr s] => s
  | _ => EmptyString
  end.

(** A started pipeline runs on the head of the branch at the forge. *)
Definition start_pipeline (sc : Script) (f : Forge) : Res Pipeline * Forge :=
  let p := mkPipeline (Z.of_nat (List.length (started f))) (head sc) "pending" in
  (Ret p, mkForge (clock f) (started f ++ [p])%list).

Definition env (sc : Script) : Env Forge :=
  {| MergeRequest_refetch_info := fun mr f => (refetched sc mr, f);
     MergeRequest_fetch_approvals := fun _ f => (approvals sc, f);
     User_fetch_by_id := fun uid f => (user sc uid, f);
     Branch_fetch_by_name := fun _ _ f => (branch sc, f);
     Pipeline_pipelines_by_branch := fun _ _ _ f => (Ret (listed sc ++ started f)%list, f);
     Pipeline_start := fun _ _ f => start_pipeline sc f;
     repo_rebase := fun _ _ _ _ f => (rebased sc, f);
     repo_merge := fun _ _ _ _ f => (merged sc, f);
     repo_get_commit_hash := fun _ f => (commit_hash sc, f);
     repo_tag_with_trailer := fun n _ _ _ f => (tagged sc n, f);
     repo_push := fun _ _ _ f => (pushed sc, f);
     repo_checkout_branch := fun _ f => (checked_out sc, f);
     repo_remove_branch := fun _ f => (removed sc, f);
     datetime_utcnow := clock;
     time_passes := fun f => f;
     time_sleep := fun secs f => mkForge (clock f + secs * 1000000) (started f);
     GitError_str := str |}.

Definition bot : User := mkUser 7 "marge-bot" "Marge Bot" "marge@example.com".

Definition alice : User := mkUser 11 "alice" "Alice" "alice@example.com".

Definition mr42 : MergeRequest :=
  {| iid := 42; state := "opened"; work_in_progress := false; squash := false;
     source_project_id := 1; source_branch := "feature/x"; target_branch := "main";
     sha := "a1"; assignee_ids := [7]; author_id := 11;
     web_url := "https://forge.example.com/g/p/merge_requests/42" |}.

Definition options : MergeJobOptions :=
  {| add_tested := false; add_part_of := false; add_reviewers := false;
     reapprove := false; approval_timeout := 0; embargo := fun _ => false;
     ci_timeout := 900000000; merge_strategy := MergeStrategy.rebase;
     require_ci_run_by_me := false; ci_timeout_skip := false |}.

Definition job (o : MergeJobOptions) : MergeJob :=
  {| _user := bot; _project := mkProject 1 true; _options := o;
     repo_remote_url := "git@forge.example.com:g/p.git" |}.

(** The happy script: everything succeeds, the fuse yields [u1] on top of
    target [t0], each trailer yields its own SHA. *)
Definition happy : Script :=
  {| refetched := fun mr => Ret mr;
     approvals := Ret (mkApprovals true [11] "['alice']" "0");
     user := fun _ => Ret alice;
     branch := Ret (mkBranch false);
     listed := [];
     head := "a1";
     rebased := Ret "u1";
     merged := Ret "m1";
     commit_hash := Ret "t0";
     tagged := fun n => Ret ("sha-" ++ n);
     pushed := Ret tt;
     checked_out := Ret tt;
     removed := Ret tt |}.

Definition world0 : World Forge := mkWorld (mkForge 0 []) [].

(** A work-in-progress request, and options under a standing embargo. *)
Definition wip_mr : MergeRequest :=
  {| iid := 42; state := "opened"; work_in_progress := true; squash := false;
     source_project_id := 1; source_branch := "feature/x"; target_branch := "main";
     sha := "a1"; assignee_ids := [7]; author_id := 11;
     web_url := "https://forge.example.com/g/p/merge_requests/42" |}.

Definition under_embargo : MergeJobOptions :=
  {| add_tested := false; add_part_of := false; add_reviewers := false;
     reapprove := false; approval_timeout := 0; embargo := fun _ => true;
     ci_timeout := 900000000; merge_strategy := MergeStrategy.rebase;
     require_ci_run_by_me := false; ci_timeout_skip := false |}.

(** Rebase and merge both hit conflicts. *)
Definition both_fail : Script :=
  {| refetched := refetched happy; approvals := approvals happy;
     user := user happy; branch := branch happy;
     listed := listed happy; head := head happy;
     rebased := Raise (new GitError "rebase conflict");
     merged := Raise (new GitError "merge conflict");
     commit_hash := commit_hash happy; tagged := tagged happy;
     pushed := pushed happy; checked_out := checked_out happy;
     removed := removed happy |}.

(** The force-push is rejected, and the forge says the branch is protected. *)
Definition push_rejected : Script :=
  {| refetched := refetched happy; approvals := approvals happy;
     user := user happy; branch := Ret (mkBranch true);
     listed := listed happy; head := head happy;
     rebased := rebased happy; merged := merged happy;
     commit_hash := commit_hash happy; tagged := tagged happy;
     pushed := Raise (new GitError "remote rejected");
     checked_out := checked_out happy; removed := removed happy |}.

(** The fuse leaves the source branch at the tip of the target. *)
Definition nothing_new : Script :=
  {| refetched := refetched happy; approvals := approvals happy;
     user := user happy; branch := branch happy;
     listed := listed happy; head := head happy;
     rebased := Ret "t0"; merged := merged happy;
     commit_hash := Ret "t0"; tagged := tagged happy;
     pushed := pushed happy;
     checked_out := checked_out happy; removed := removed happy |}.

(** [Part-of] trailers only. *)
Definition with_part_of : MergeJobOptions :=
  {| add_tested := false; add_part_of := true; add_reviewers := false;
     reapprove := false; approval_timeout := 0; embargo := fun _ => false;
     ci_timeout := 900000000; merge_strategy := MergeStrategy.rebase;
     require_ci_run_by_me := false; ci_timeout_skip := false |}.

(** All three trailers. *)
Definition with_all_trailers : MergeJobOptions :=
  {| add_tested := true; add_part_of := true; add_reviewers := true;
     reapprove := false; approval_timeout := 0; embargo := fun _ => false;
     ci_timeout := 900000000; merge_strategy := MergeStrategy.rebase;
     require_ci_run_by_me := false; ci_timeout_skip := false |}.

(** The bot must run the CI itself and gives up after 25 seconds. *)
Definition ci_by_me : MergeJobOptions :=
  {| add_tested := false; add_part_of := false; add_reviewers := false;
     reapprove := false; approval_timeout := 0; embargo := fun _ => false;
     ci_timeout := 25000000; merge_strategy := MergeStrategy.rebase;
     require_ci_run_by_me := true; ci_timeout_skip := false |}.

(** Give up after 25 seconds and skip to the next request. *)
Definition ci_skip : MergeJobOptions :=
  {| add_tested := false; add_part_of := false; add_reviewers := false;
     reapprove := false; approval_timeout := 0; embargo := fun _ => false;
     ci_timeout := 25000000; merge_strategy := MergeStrategy.rebase;
     require_ci_run_by_me := false; ci_timeout_skip := true |}.

(** The pipeline on the awaited commit [r9] stays [running]. *)
Definition ci_running : Script :=
  {| refetched := refetched happy; approvals := approvals happy;
     user := user happy; branch := branch happy;
     listed := [mkPipeline 5 "r9" "running"]; head := "r9";
     rebased := rebased happy; merged := merged happy;
     commit_hash := commit_hash happy; tagged := tagged happy;
     pushed := pushed happy;
     checked_out := checked_out happy; removed := removed happy |}.

(** A tagging fails. *)
Definition tagging_fails : Script :=
  {| refetched := refetched happy; approvals := approvals happy;
     user := user happy; branch := branch happy;
     listed := listed happy; head := head happy;
     rebased := rebased happy; merged := merged happy;
     commit_hash := commit_hash happy;
     tagged := fun _ => Raise (new GitError "filter-branch failed");
     pushed := pushed happy;
     checked_out := checked_out happy; removed := removed happy |}.

(** The pipeline on the awaited commit [r9] has passed. *)
Definition ci_passed : Script :=
  {| refetched := refetched happy; approvals := approvals happy;
     user := user happy; branch := branch happy;
     listed := [mkPipeline 6 "r9" "success"; mkPipeline 5 "r9" "failed"];
     head := "r9";
     rebased := rebased happy; merged := merged happy;
     commit_hash := commit_hash happy; tagged := tagged happy;
     pushed := pushed happy;
     checked_out := checked_out happy; removed := removed happy |}.

(** A request whose source and target branch are the same. *)
Definition stale_mr : MergeRequest :=
  {| iid := 43; state := "opened"; work_in_progress := false; squash := false;
     source_project_id := 1; source_branch := "main"; target_branch := "main";
     sha := "a1"; assignee_ids := [7]; author_id := 11;
     web_url := "https://forge.example.com/g/p/merge_requests/43" |}.

End Fake.

(** ** Vocabulary of the statements *)

Section Vocabulary.

Context {S : Type}.

(** The call passes the assertion on [source_repo_url] and the check that
    source and target do not coincide, and so reaches the [try] block. *)
Definition enters_try (self : MergeJob) (merge_request : MergeRequest)
           (source_repo_url : option string) : bool :=
  negb (option_string_eqb source_repo_url (repo_remote_url self))
  && negb (match source_repo_url with None => true | Some _ => false end
           && String.eqb (source_branch merge_request) (target_branch merge_request)).

(** A computation only appends to the trace, and what it appends
    satisfies [P].  [tr] reads the trace off the state. *)
Definition adds {St A : Type} (tr : St -> list Event) (P : Event -> bool)
           (m : M St A) : Prop :=
  forall st, exists d, tr (snd (m st)) = (tr st ++ d)%list /\ forallb P d = true.

Definition block_trace (lw : Locals * World S) : list Event := trace (snd lw).

(** The wall clock moves forward: a sleep of [n] seconds takes at least [n]
    seconds, and neither a call to the forge nor the time that passes up to
    a read of the clock sets it back. *)
Definition clock_moves_forward (env : Env S) : Prop :=
  (forall n s, 0 <= n ->
     datetime_utcnow env s + n * 1000000 <= datetime_utcnow env (time_sleep env n s)) /\
  (forall pid b u s,
     datetime_utcnow env s
     <= datetime_utcnow env (snd (Pipeline_pipelines_by_branch env pid b u s))) /\
  (forall pid b s,
     datetime_utcnow env s <= datetime_utcnow env (snd (Pipeline_start env pid b s))) /\
  (forall s, datetime_utcnow env s <= datetime_utcnow env (time_passes env s)).

End Vocabulary.

Definition not_tag (ev : Event) : bool :=
  match ev with
  | EvTagWithTrailer _ _ _ _ _ => false
  | _ => true
  end.

Definition not_rewrite_or_push (ev : Event) : bool := negb (is_rewrite_or_push ev).

(** The commit whose pipeline [wait_for_ci_to_pass] awaits. *)
Definition awaited (merge_request : MergeRequest) (commit_sha : option string)
  : string :=
  match commit_sha with
  | None => sha merge_request
  | Some c => c
  end.

(** The exception [wait_for_ci_to_pass] raises when it leaves its loop. *)
Definition too_long (o : MergeJobOptions) : Exn :=
  new (if ci_timeout_skip o then SkipMerge else CannotMerge) "CI is taking too long.".

(** Loop turns that are always enough for [wait_for_ci_to_pass]: one per
    started ten seconds of [ci_timeout], and one to leave the loop. *)
Definition enough_turns (o : MergeJobOptions) : nat :=
  Datatypes.S (Datatypes.S (Z.to_nat (ci_timeout o / (waiting_time_in_secs * 1000000)))).

(** ** Further vocabulary: polls, trailers, escapes *)

(** The number of polls of a trace. *)
Fixpoint polls (tr : list Event) : nat :=
  match tr with
  | [] => O
  | EvPipelinesByBranch _ _ _ _ :: rest => Datatypes.S (polls rest)
  | _ :: rest => polls rest
  end.

(** What a CI status that ends the wait ends it with. *)
Definition verdict (ci_status : option string) : option (Res unit) :=
  if option_string_eqb ci_status "success" then Some (Ret tt)
  else if option_string_eqb ci_status "skipped" then Some (Ret tt)
  else if option_string_eqb ci_status "failed" then
    Some (Raise (new CannotMerge "CI failed!"))
  else if option_string_eqb ci_status "canceled" then
    Some (Raise (new CannotMerge "Someone canceled the CI."))
  else None.

(** The calls of the last turn of a wait, and the outcome they give: the
    deadline has passed ([elapsed] is the time on the clock since the wait
    first read it), a poll showed a status that ends the wait, or a call
    raised. *)
Definition wait_end (o : MergeJobOptions) (commit_sha : string) (elapsed : Z)
           (last : list Event) (r : Res unit) : Prop :=
  (last = [] /\ r = Raise (too_long o) /\ ci_timeout o <= elapsed) \/
  (exists pid b u ps,
      last = [EvPipelinesByBranch pid b u (Ret ps)] /\
      verdict (listed_status commit_sha ps) = Some r) \/
  (exists pid b u e,
      last = [EvPipelinesByBranch pid b u (Raise e)] /\ r = Raise e) \/
  (exists pid b u ps pid' b' e,
      last = [EvPipelinesByBranch pid b u (Ret ps); EvPipelineStart pid' b' (Raise e)] /\
      listed_status commit_sha ps = None /\ r = Raise e).

Definition option_string_same (a b : option string) : bool :=
  match a, b with
  | Some x, Some y => String.eqb x y
  | None, None => true
  | _, _ => false
  end.

Fixpoint list_string_eqb (a b : list string) : bool :=
  match a, b with
  | [], [] => true
  | x :: a', y :: b' => String.eqb x y && list_string_eqb a' b'
  | _, _ => false
  end.

(** A call [wait_for_ci_to_pass] may make for this job and request: a poll
    or a pipeline start on the source project and branch of the request (the
    poll filtered by the bot's user name exactly when the bot must run the
    CI itself, the start only then), or a sleep of ten seconds. *)
Definition ci_call_on (self : MergeJob) (merge_request : MergeRequest)
           (ev : Event) : bool :=
  match ev with
  | EvPipelinesByBranch pid b u _ =>
      (pid =? source_project_id merge_request)
      && String.eqb b (source_branch merge_request)
      && option_string_same u
           (if require_ci_run_by_me (_options self)
            then Some (username (_user self)) else None)
  | EvPipelineStart pid b _ =>
      (pid =? source_project_id merge_request)
      && String.eqb b (source_branch merge_request)
      && require_ci_run_by_me (_options self)
  | EvSleep secs => secs =? 10
  | _ => false
  end.

(** A call [add_trailers] may make for this job and request: the lookups
    for the reviewers, and taggings of the source branch: [Tested-by] on the
    last commit only, with the bot's name and the request's URL;
    [Reviewed-by] and [Part-of] from [origin/<target>] on. *)
Definition trailer_call_on (self : MergeJob) (merge_request : MergeRequest)
           (ev : Event) : bool :=
  match ev with
  | EvFetchApprovals _ => add_reviewers (_options self)
  | EvUserFetchById _ _ => add_reviewers (_options self)
  | EvTagWithTrailer n values b start_commit _ =>
      String.eqb b (source_branch merge_request)
      && (if String.eqb n "Tested-by" then
            String.eqb start_commit (source_branch merge_request ++ "^")
            && list_string_eqb values
                 [user_name (_user self) ++ " <" ++ web_url merge_request ++ ">"]
            && add_tested (_options self)
            && only_allow_merge_if_pipeline_succeeds (_project self)
            && MergeStrategy.eqb (merge_strategy (_options self)) MergeStrategy.rebase
          else if String.eqb n "Part-of" then
            String.eqb start_commit ("origin/" ++ target_branch merge_request)
            && list_string_eqb values ["<" ++ web_url merge_request ++ ">"]
            && add_part_of (_options self)
          else
            String.eqb n "Reviewed-by"
            && String.eqb start_commit ("origin/" ++ target_branch merge_request)
            && add_reviewers (_options self))
  | _ => false
  end.

Definition raised {A} (r : Res A) : option Exn :=
  match r with
  | Ret _ => None
  | Raise e => Some e
  end.

(** The exception a call raised, if it raised. *)
Definition event_raised (ev : Event) : option Exn :=
  match ev with
  | EvRefetchInfo r => raised r
  | EvFetchApprovals r => raised r
  | EvUserFetchById _ r => raised r
  | EvBranchFetchByName _ _ r => raised r
  | EvPipelinesByBranch _ _ _ r => raised r
  | EvPipelineStart _ _ r => raised r
  | EvRebase _ _ _ _ r => raised r
  | EvMerge _ _ _ _ r => raised r
  | EvGetCommitHash _ r => raised r
  | EvTagWithTrailer _ _ _ _ r => raised r
  | EvPush _ _ _ r => raised r
  | EvCheckoutBranch _ r => raised r
  | EvRemoveBranch _ r => raised r
  | EvSleep _ => None
  end.

Definition is_branch_lookup (ev : Event) : bool :=
  match ev with
  | EvBranchFetchByName _ _ _ => true
  | _ => false
  end.

Definition is_fuse (ev : Event) : bool :=
  match ev with
  | EvRebase _ _ _ _ _ | EvMerge _ _ _ _ _ => true
  | _ => false
  end.

Definition is_merge (ev : Event) : bool :=
  match ev with
  | EvMerge _ _ _ _ _ => true
  | _ => false
  end.

Definition is_trailer_call (ev : Event) : bool :=
  match ev with
  | EvFetchApprovals _ | EvUserFetchById _ _ | EvTagWithTrailer _ _ _ _ _ => true
  | _ => false
  end.

(** The look-ups [_get_reviewer_names_and_emails] makes when every one of
    them returns: one per approver id, in order. *)
Fixpoint reviewer_lookups (uids : list Z) (users : list User) : list Event :=
  match uids, users with
  | uid :: uids', u :: users' => EvUserFetchById uid (Ret u) :: reviewer_lookups uids' users'
  | _, _ => []
  end.

(** The outcome of a loop turn as an outcome of the whole loop: [None] when
    the turn goes round again. *)
Definition turn_result (r : Res (option unit)) : option (Res unit) :=
  match r with
  | Ret None => None
  | Ret (Some u) => Some (Ret u)
  | Raise e => Some (Raise e)
  end.

(** ** More of the job: default options, re-approval, unassignment, forks *)

(** An [IntervalUnion], of the module [interval], as the job sees it: what
    its [covers] method answers, and its truth value ([bool(u)]). *)
Record IntervalUnion : Type := mkIntervalUnion {
  covers : Z -> bool;
  truthy : bool }.

(** The keyword arguments of [MergeJobOptions.default]; [None] is Python's
    [None]. *)
Record DefaultArgs : Type := mkDefaultArgs {
  kw_add_tested : bool;
  kw_add_part_of : bool;
  kw_add_reviewers : bool;
  kw_reapprove : bool;
  kw_approval_timeout : option Z;
  kw_embargo : option IntervalUnion;
  kw_ci_timeout : option Z;
  kw_ci_timeout_skip : bool;
  kw_merge_strategy : MergeStrategy.t;
  kw_require_ci_run_by_me : bool }.

(** The defaults written in the signature of [MergeJobOptions.default]. *)
Definition no_args : DefaultArgs :=
  {| kw_add_tested := false; kw_add_part_of := false; kw_add_reviewers := false;
     kw_reapprove := false; kw_approval_timeout := None; kw_embargo := None;
     kw_ci_timeout := None; kw_ci_timeout_skip := false;
     kw_merge_strategy := MergeStrategy.rebase;
     kw_require_ci_run_by_me := false |}.

(** [x or default] on an optional [timedelta]: [None] and the zero duration
    are falsy. *)
Definition timedelta_or (x : option Z) (default : Z) : Z :=
  match x with
  | Some 0 => default
  | Some t => t
  | None => default
  end.

(** [MergeJobOptions.default]; [empty] is [IntervalUnion.empty()]. *)
Definition default (empty : IntervalUnion) (kw : DefaultArgs) : MergeJobOptions :=
  let approval_timeout := timedelta_or (kw_approval_timeout kw) 0 in
  let embargo :=
    match kw_embargo kw with
    | Some u => if truthy u then u else empty
    | None => empty
    end in
  let ci_timeout := timedelta_or (kw_ci_timeout kw) (15 * 60 * 1000000) in
  {| add_tested := kw_add_tested kw;
     add_part_of := kw_add_part_of kw;
     add_reviewers := kw_add_reviewers kw;
     reapprove := kw_reapprove kw;
     approval_timeout := approval_timeout;
     embargo := covers embargo;
     ci_timeout := ci_timeout;
     merge_strategy := kw_merge_strategy kw;
     require_ci_run_by_me := kw_require_ci_run_by_me kw;
     ci_timeout_skip := kw_ci_timeout_skip kw |}.

(** A project as [Project.fetch_by_id] returns it, with the attribute
    [fetch_source_project] reads. *)
Record SourceProject : Type := mkSourceProject {
  fetched_project : Project;
  ssh_url_to_repo : string }.

(** Which object a project is: [self._project] itself, or an object that
    [Project.fetch_by_id] built (never [self._project] itself). *)
Inductive ProjectRef : Type :=
| the_project
| another (p : SourceProject).

(** The calls of these methods: those of [Event], and five more. *)
Inductive Event2 : Type :=
| Ev (e : Event)
| EvAssignTo (uid : Z) (r : Res unit)
| EvUnassign (r : Res unit)
| EvReapprove (approvals : Approvals) (r : Res unit)
| EvProjectFetchById (pid : Z) (r : Res SourceProject)
| EvFetch (remote_name remote_url : string) (r : Res unit).

(** The further collaborators. *)
Record Env2 (S : Type) : Type := mkEnv2 {
  MergeRequest_assign_to : MergeRequest -> Z -> S -> Res unit * S;
  MergeRequest_unassign : MergeRequest -> S -> Res unit * S;
  Approvals_reapprove : Approvals -> S -> Res unit * S;
  Project_fetch_by_id : Z -> S -> Res SourceProject * S;
  repo_fetch : string -> string -> S -> Res unit * S }.

Arguments MergeRequest_assign_to {S}.
Arguments MergeRequest_unassign {S}.
Arguments Approvals_reapprove {S}.
Arguments Project_fetch_by_id {S}.
Arguments repo_fetch {S}.

Record World2 (S : Type) : Type := mkWorld2 { ext2 : S; trace2 : list Event2 }.
Arguments mkWorld2 {S}.
Arguments ext2 {S}.
Arguments trace2 {S}.

Section Job2.

Context {S : Type}.
Variable env : Env S.
Variable env2 : Env2 S.
Variable self : MergeJob.

Definition call2 {A} (op : S -> Res A * S) (ev : Res A -> Event2)
  : M (World2 S) A :=
  fun w => let (r, s') := op (ext2 w) in
           (r, mkWorld2 s' (trace2 w ++ [ev r])).

(** A computation over the calls of [Event], run here: its calls are
    appended as they are. *)
Definition old {A} (m : M (World S) A) : M (World2 S) A :=
  fun w2 => let (r, w) := m (mkWorld (ext2 w2) []) in
            (r, mkWorld2 (ext w) (trace2 w2 ++ map Ev (trace w))).

(** [unassign_from_mr]. *)
Definition unassign_from_mr (merge_request : MergeRequest) : M (World2 S) unit :=
  let author_id := author_id merge_request in
  if negb (author_id =? user_id (_user self)) then
    call2 (MergeRequest_assign_to env2 merge_request author_id) (EvAssignTo author_id)
  else
    call2 (MergeRequest_unassign env2 merge_request) EvUnassign.

(** The local function [sufficient_approvals] of [maybe_reapprove]. *)
Definition sufficient_approvals (merge_request : MergeRequest) : M (World2 S) bool :=
  approvals <- old (fetch_approvals env merge_request) ;;
  ret (sufficient approvals).

Definition reapprove_waiting_time_in_secs : Z := 5.

(** One turn of the [while] loop of [maybe_reapprove], the loop test
    included: [Some tt] leaves the loop, [None] goes round again. *)
Definition maybe_reapprove_turn (merge_request : MergeRequest) (time_0 : Z)
  : M (World2 S) (option unit) :=
  still_sufficient <- sufficient_approvals merge_request ;;
  if still_sufficient then
    now <- old (utcnow env) ;;
    if now - time_0 <? approval_timeout (_options self) then
      old (sleep env reapprove_waiting_time_in_secs) ;;
      ret None
    else ret (Some tt)
  else ret (Some tt).

(** [maybe_reapprove], with a budget of loop turns. *)
Definition maybe_reapprove (fuel : nat) (merge_request : MergeRequest)
           (approvals : Approvals) (w : World2 S)
  : option (Res unit * World2 S) :=
  if reapprove (_options self) then
    match old (utcnow env) w with
    | (Raise e, w) => Some (Raise e, w)
    | (Ret time_0, w) =>
        match loop fuel (maybe_reapprove_turn merge_request time_0) w with
        | None => None
        | Some (Raise e, w') => Some (Raise e, w')
        | Some (Ret _, w') =>
            Some ((still_sufficient <- sufficient_approvals merge_request ;;
                   if negb still_sufficient then
                     call2 (Approvals_reapprove env2 approvals)
                           (EvReapprove approvals)
                   else ret tt) w')
        end
    end
  else Some (Ret tt, w).

(** [get_source_project]. *)
Definition get_source_project (merge_request : MergeRequest)
  : M (World2 S) ProjectRef :=
  if negb (source_project_id merge_request =? project_id (_project self)) then
    p <- call2 (Project_fetch_by_id env2 (source_project_id merge_request))
               (EvProjectFetchById (source_project_id merge_request)) ;;
    ret (another p)
  else ret the_project.

(** [fetch_source_project]: the source project, the URL of its repository
    ([None] for the project itself) and the name of the remote. *)
Definition fetch_source_project (merge_request : MergeRequest)
  : M (World2 S) (ProjectRef * option string * string) :=
  source_project <- get_source_project merge_request ;;
  match source_project with
  | another p =>
      let remote := "source" in
      let remote_url := ssh_url_to_repo p in
      call2 (repo_fetch env2 remote remote_url) (EvFetch remote remote_url) ;;
      ret (source_project, Some remote_url, remote)
  | the_project => ret (source_project, None, "origin")
  end.

End Job2.

(** The clock moves forward through the polling of the approvals. *)
Definition approvals_clock_forward {S : Type} (env : Env S) : Prop :=
  (forall n s, 0 <= n ->
     datetime_utcnow env s + n * 1000000 <= datetime_utcnow env (time_sleep env n s)) /\
  (forall mr s,
     datetime_utcnow env s
     <= datetime_utcnow env (snd (MergeRequest_fetch_approvals env mr s))) /\
  (forall s, datetime_utcnow env s <= datetime_utcnow env (time_passes env s)).

(** Loop turns that are always enough for [maybe_reapprove]. *)
Definition enough_reapprove_turns (o : MergeJobOptions) : nat :=
  Datatypes.S (Datatypes.S
    (Z.to_nat (approval_timeout o / (reapprove_waiting_time_in_secs * 1000000)))).

Definition is_reapprove (ev : Event2) : bool :=
  match ev with
  | EvReapprove _ _ => true
  | _ => false
  end.

Definition is_sleep2 (ev : Event2) : bool :=
  match ev with
  | Ev (EvSleep _) => true
  | _ => false
  end.

(** A call of the polling loop of [maybe_reapprove]: a fetch of the
    approvals, or a sleep of five seconds. *)
Definition reapprove_poll_call (ev : Event2) : bool :=
  match ev with
  | Ev (EvFetchApprovals _) => true
  | Ev (EvSleep secs) => secs =? 5
  | _ => false
  end.

Fixpoint count2 (f : Event2 -> bool) (tr : list Event2) : nat :=
  match tr with
  | [] => O
  | ev :: rest => if f ev then Datatypes.S (count2 f rest) else count2 f rest
  end.

(** ** A scripted double of the further collaborators *)

Module Fake2.

(** What each of the further collaborators answers. *)
Record Script2 : Type := mkScript2 {
  assigned : Res unit;
  unassigned : Res unit;
  reapproved : Res unit;
  project : Z -> Res SourceProject;
  fetched : Res unit }.

Definition env2 (sc : Script2) : Env2 Fake.Forge :=
  {| MergeRequest_assign_to := fun _ _ f => (assigned sc, f);
     MergeRequest_unassign := fun _ f => (unassigned sc, f);
     Approvals_reapprove := fun _ f => (reapproved sc, f);
     Project_fetch_by_id := fun pid f => (project sc pid, f);
     repo_fetch := fun _ _ f => (fetched sc, f) |}.

(** The fork of the project that [alice] owns. *)
Definition fork : SourceProject :=
  mkSourceProject (mkProject 2 true) "git@forge.example.com:alice/p.git".

Definition obliging : Script2 :=
  {| assigned := Ret tt; unassigned := Ret tt; reapproved := Ret tt;
     project := fun _ => Ret fork; fetched := Ret tt |}.

Definition world0 : World2 Fake.Forge := mkWorld2 (Fake.mkForge 0 []) [].

(** A request from the fork. *)
Definition fork_mr : MergeRequest :=
  {| iid := 44; state := "opened"; work_in_progress := false; squash := false;
     source_project_id := 2; source_branch := "feature/y"; target_branch := "main";
     sha := "b1"; assignee_ids := [7]; author_id := 11;
     web_url := "https://forge.example.com/g/p/merge_requests/44" |}.

(** Re-approve after the push, and give the forge twelve seconds to reset
    the approvals. *)
Definition impersonating : MergeJobOptions :=
  {| add_tested := false; add_part_of := false; add_reviewers := false;
     reapprove := true; approval_timeout := 12000000; embargo := fun _ => false;
     ci_timeout := 900000000; merge_strategy := MergeStrategy.rebase;
     require_ci_run_by_me := false; ci_timeout_skip := false |}.

(** Rebase, and merge when the rebase hits conflicts. *)
Definition rebase_or_merge : MergeJobOptions :=
  {| add_tested := false; add_part_of := false; add_reviewers := false;
     reapprove := false; approval_timeout := 0; embargo := fun _ => false;
     ci_timeout := 900000000; merge_strategy := MergeStrategy.rebase_then_merge;
     require_ci_run_by_me := false; ci_timeout_skip := false |}.

(** The push has reset the approvals. *)
Definition approvals_gone : Fake.Script :=
  {| Fake.refetched := Fake.refetched Fake.happy;
     Fake.approvals := Ret (mkApprovals false [] "[]" "1");
     Fake.user := Fake.user Fake.happy; Fake.branch := Fake.branch Fake.happy;
     Fake.listed := Fake.listed Fake.happy; Fake.head := Fake.head Fake.happy;
     Fake.rebased := Fake.rebased Fake.happy; Fake.merged := Fake.merged Fake.happy;
     Fake.commit_hash := Fake.commit_hash Fake.happy;
     Fake.tagged := Fake.tagged Fake.happy;
     Fake.pushed := Fake.pushed Fake.happy;
     Fake.checked_out := Fake.checked_out Fake.happy;
     Fake.removed := Fake.removed Fake.happy |}.

(** The checkout of the cleanup fails. *)
Definition cleanup_fails : Fake.Script :=
  {| Fake.refetched := Fake.refetched Fake.happy;
     Fake.approvals := Fake.approvals Fake.happy;
     Fake.user := Fake.user Fake.happy; Fake.branch := Fake.branch Fake.happy;
     Fake.listed := Fake.listed Fake.happy; Fake.head := Fake.head Fake.happy;
     Fake.rebased := Fake.rebased Fake.happy; Fake.merged := Fake.merged Fake.happy;
     Fake.commit_hash := Fake.commit_hash Fake.happy;
     Fake.tagged := Fake.tagged Fake.happy;
     Fake.pushed := Fake.pushed Fake.happy;
     Fake.checked_out := Raise (new GitError "checkout failed");
     Fake.removed := Fake.removed Fake.happy |}.

(** The fuse leaves the source branch at the tip of the target, and the
    checkout of the cleanup fails. *)
Definition nothing_new_cleanup_fails : Fake.Script :=
  {| Fake.refetched := Fake.refetched Fake.happy;
     Fake.approvals := Fake.approvals Fake.happy;
     Fake.user := Fake.user Fake.happy; Fake.branch := Fake.branch Fake.happy;
     Fake.listed := Fake.listed Fake.happy; Fake.head := Fake.head Fake.happy;
     Fake.rebased := Ret "t0"; Fake.merged := Fake.merged Fake.happy;
     Fake.commit_hash := Ret "t0";
     Fake.tagged := Fake.tagged Fake.happy;
     Fake.pushed := Fake.pushed Fake.happy;
     Fake.checked_out := Raise (new GitError "checkout failed");
     Fake.removed := Fake.removed Fake.happy |}.

(** The second of three approvers cannot be looked up. *)
Definition second_unknown : Fake.Script :=
  {| Fake.refetched := Fake.refetched Fake.happy;
     Fake.approvals := Ret (mkApprovals true [11; 12; 13] "['alice', 'bob', 'carol']" "0");
     Fake.user := fun uid => if uid =? 12 then Raise (new Exception "404 User Not Found")
                             else Ret Fake.alice;
     Fake.branch := Fake.branch Fake.happy;
     Fake.listed := Fake.listed Fake.happy; Fake.head := Fake.head Fake.happy;
     Fake.rebased := Fake.rebased Fake.happy; Fake.merged := Fake.merged Fake.happy;
     Fake.commit_hash := Fake.commit_hash Fake.happy;
     Fake.tagged := Fake.tagged Fake.happy;
     Fake.pushed := Fake.pushed Fake.happy;
     Fake.checked_out := Fake.checked_out Fake.happy;
     Fake.removed := Fake.removed Fake.happy |}.

(** [IntervalUnion.empty()], and the keyword arguments with a [ci_timeout]
    of zero. *)
Definition never : IntervalUnion := mkIntervalUnion (fun _ => false) false.

Definition zero_ci_timeout : DefaultArgs :=
  {| kw_add_tested := false; kw_add_part_of := false; kw_add_reviewers := false;
     kw_reapprove := false; kw_approval_timeout := None; kw_embargo := None;
     kw_ci_timeout := Some 0; kw_ci_timeout_skip := false;
     kw_merge_strategy := MergeStrategy.rebase;
     kw_require_ci_run_by_me := false |}.

(** The forge of [Fake.env] seen from a slow machine: [lag] microseconds
    pass up to every read of the clock. *)
Definition lagging (sc : Fake.Script) (lag : Z) : Env Fake.Forge :=
  {| MergeRequest_refetch_info := MergeRequest_refetch_info (Fake.env sc);
     MergeRequest_fetch_approvals := MergeRequest_fetch_approvals (Fake.env sc);
     User_fetch_by_id := User_fetch_by_id (Fake.env sc);
     Branch_fetch_by_name := Branch_fetch_by_name (Fake.env sc);
     Pipeline_pipelines_by_branch := Pipeline_pipelines_by_branch (Fake.env sc);
     Pipeline_start := Pipeline_start (Fake.env sc);
     repo_rebase := repo_rebase (Fake.env sc);
     repo_merge := repo_merge (Fake.env sc);
     repo_get_commit_hash := repo_get_commit_hash (Fake.env sc);
     repo_tag_with_trailer := repo_tag_with_trailer (Fake.env sc);
     repo_push := repo_push (Fake.env sc);
     repo_checkout_branch := repo_checkout_branch (Fake.env sc);
     repo_remove_branch := repo_remove_branch (Fake.env sc);
     datetime_utcnow := Fake.clock;
     time_passes := fun f => Fake.mkForge (Fake.clock f + lag) (Fake.started f);
     time_sleep := time_sleep (Fake.env sc);
     GitError_str := GitError_str (Fake.env sc) |}.

(** The job with the options [MergeJobOptions.default] builds from them. *)
Definition by_default : MergeJob := Fake.job (default never zero_ci_timeout).

(** The approvals the job holds from before the push. *)
Definition approved : Approvals := mkApprovals true [11] "['alice']" "0".

(** A command line that carries the token with its option, and what the
    parser read from it. *)
Definition command_line : list string :=
  ["--use-merge-strategy"; "--add-part-of"; "--auth-token=tok"].

Definition parsed_args : App.Namespace :=
  App.mkNamespace true MergeStrategy.rebase false false true false.

End Fake2.

(** * Properties *)

(** ** The exception classes *)

Section ExceptionFacts.

Lemma issubclass_trans (a b c : ExnClass) :
  issubclass a b = true -> issubclass b c = true -> issubclass a c = true.
Proof. destruct a, b, c; vm_compute; congruence. Qed.

(** C10: [SkipMerge] derives from [CannotMerge]: whatever handler (class [k])
    catches [CannotMerge] catches every [SkipMerge] instance, a [SkipMerge]
    instance is a [CannotMerge] instance, and [reason] is the first
    constructor argument, or ['Unknown reason!'] when there is none. *)
Theorem SkipMerge_is_CannotMerge_and_reason :
  base SkipMerge = Some CannotMerge /\
  (forall e, exn_class e = SkipMerge -> isinstance e CannotMerge = true) /\
  (forall e k, isinstance e SkipMerge = true ->
               issubclass CannotMerge k = true -> isinstance e k = true) /\
  (forall k a rest, issubclass k CannotMerge = true ->
                    reason (mkExn k (a :: rest)) = a) /\
  (forall k, issubclass k CannotMerge = true ->
             reason (mkExn k []) = PyStr "Unknown reason!").
Proof.
  split; [reflexivity|].
  split.
  { intros e He. unfold isinstance. rewrite He. reflexivity. }
  split.
  { intros e k He Hk. unfold isinstance in *.
    apply issubclass_trans with (b := CannotMerge); [|exact Hk].
    apply issubclass_trans with (b := SkipMerge); [exact He|reflexivity]. }
  split; intros; reflexivity.
Qed.

Lemma SkipMerge_is_CannotMerge_and_reason_witness :
  isinstance (new SkipMerge "Merge embargo!") CannotMerge = true /\
  isinstance (new SkipMerge "Merge embargo!") Exception = true /\
  reason (new SkipMerge "Merge embargo!") = PyStr "Merge embargo!" /\
  reason (mkExn CannotMerge []) = PyStr "Unknown reason!".
Proof.
  destruct SkipMerge_is_CannotMerge_and_reason as (_ & H1 & H2 & H3 & H4).
  split; [apply H1; reflexivity|].
  split; [apply H2; reflexivity|].
  split; [apply H3; reflexivity|apply H4; reflexivity].
Defined.

End ExceptionFacts.

(** ** The strategy check *)

Section ParseConfig.

Import App.

(** C9: a configuration that selects the strategy [merge] (by
    [--use-merge-strategy] or by [--merge-strategy=merge]) together with
    [--batch] or with [--add-tested] is refused with a
    [MargeBotCliArgError]; every other combination passes the strategy check
    and goes on to the check of the command-line secrets, which is all that
    can still refuse it. *)
Theorem parse_config_strategy_check (config : Namespace) (cli_args : list string) :
  (selected_strategy config = MergeStrategy.merge -> batch config = true ->
   _parse_config config cli_args =
     Raise (new MargeBotCliArgError
       "--merge-strategy=merge and --batch are currently mutually exclusive")) /\
  (selected_strategy config = MergeStrategy.merge -> batch config = false ->
   add_tested config = true ->
   _parse_config config cli_args =
     Raise (new MargeBotCliArgError
       "--merge-strategy=merge and --add-tested are currently mutually exclusive")) /\
  ((selected_strategy config <> MergeStrategy.merge \/
    (batch config = false /\ add_tested config = false)) ->
   _parse_config config cli_args =
     check_bad_args ["--auth-token"; "--ssh-key"] cli_args
       (mkConfig (selected_strategy config) (add_tested config) (batch config)
                 (add_part_of config) (add_reviewers config)) /\
   (mem_string "--auth-token" cli_args = false ->
    mem_string "--ssh-key" cli_args = false ->
    _parse_config config cli_args =
      Ret (mkConfig (selected_strategy config) (add_tested config) (batch config)
                    (add_part_of config) (add_reviewers config)))).
Proof.
  destruct config as [u m t b p r].
  unfold _parse_config, selected_strategy; simpl.
  split; [|split].
  - intros Hs Hb. rewrite Hs, Hb. reflexivity.
  - intros Hs Hb Ht. rewrite Hs, Hb, Ht. reflexivity.
  - intros Hother.
    assert (Hpass :
              (MergeStrategy.eqb (if u then MergeStrategy.merge else m)
                                 MergeStrategy.merge && b = false) /\
              (MergeStrategy.eqb (if u then MergeStrategy.merge else m)
                                 MergeStrategy.merge && t = false)).
    { destruct Hother as [Hs | [Hb Ht]].
      - destruct u, m; simpl in *; solve [auto | congruence].
      - rewrite Hb, Ht, !andb_false_r. auto. }
    destruct Hpass as [Hbatch Htested]. rewrite Hbatch, Htested.
    split; [reflexivity|].
    intros Ha Hk. simpl. rewrite Ha, Hk. reflexivity.
Qed.

Lemma parse_config_strategy_check_witness :
  _parse_config (mkNamespace true MergeStrategy.rebase false true false false) []
  = Raise (new MargeBotCliArgError
      "--merge-strategy=merge and --batch are currently mutually exclusive") /\
  _parse_config (mkNamespace false MergeStrategy.merge true false false false) []
  = Raise (new MargeBotCliArgError
      "--merge-strategy=merge and --add-tested are currently mutually exclusive") /\
  _parse_config (mkNamespace false MergeStrategy.rebase_then_merge true true false false) []
  = Ret (mkConfig MergeStrategy.rebase_then_merge true true false false).
Proof.
  split; [|split].
  - apply (parse_config_strategy_check
             (mkNamespace true MergeStrategy.rebase false true false false) []);
      reflexivity.
  - apply (parse_config_strategy_check
             (mkNamespace false MergeStrategy.merge true false false false) []);
      reflexivity.
  - apply (parse_config_strategy_check
             (mkNamespace false MergeStrategy.rebase_then_merge true true false false) []);
      [left; discriminate | reflexivity | reflexivity].
Defined.

End ParseConfig.

(** ** Running the monadic code *)

(** Unfolds the combinators and the wrappers of the external calls. *)
Ltac unfold_job :=
  unfold refetch_info, fetch_approvals, fetch_by_id, fetch_by_name,
         pipelines_by_branch, start, rebase, merge, get_commit_hash,
         tag_with_trailer, push, checkout_branch, remove_branch,
         utcnow, sleep, read_local, call,
         bind, ret, raise, try_except, try_finally, lift, assign in *.

Lemma app_one_two {A} (l : list A) (a b : A) :
  ((l ++ [a]) ++ [b] = l ++ [a; b])%list.
Proof. rewrite <- app_assoc. reflexivity. Qed.

Lemma forallb_impl {A} (P Q : A -> bool) (l : list A) :
  (forall a, P a = true -> Q a = true) -> forallb P l = true -> forallb Q l = true.
Proof. intros H. rewrite !forallb_forall. auto. Qed.

Lemma forallb_none {A} (P Q : A -> bool) (l : list A) :
  (forall a, P a = true -> Q a = false) -> forallb P l = true -> existsb Q l = false.
Proof.
  intros H. induction l as [|a l IH]; simpl; [reflexivity|].
  intros Hl. apply andb_true_iff in Hl. destruct Hl as [Ha Hl].
  rewrite (H a Ha), (IH Hl). reflexivity.
Qed.

(** ** [rebase_then_merge] *)

Section RebaseThenMerge.

Context {S : Type}.
Variable env : Env S.

(** C1, as the code has it: when the rebase raises a [GitError], the outcome
    of [rebase_then_merge] is the outcome of the merge attempt, whatever it
    is: its SHA when it succeeds, its own error when it fails.  The rebase
    error is never the one surfaced. *)
Theorem rebase_then_merge_surfaces_merge_outcome
        (source target : string) (url : option string) (local : bool)
        (w : World S) (rebase_error : Exn) (s1 s2 : S) (r : Res string) :
  repo_rebase env source target url local (ext w) = (Raise rebase_error, s1) ->
  isinstance rebase_error GitError = true ->
  repo_merge env source target url local s1 = (r, s2) ->
  rebase_then_merge env source target url local w =
    (r, mkWorld s2 (trace w ++ [EvRebase source target url local (Raise rebase_error);
                                EvMerge source target url local r])).
Proof.
  intros Hrebase Hgit Hmerge.
  unfold rebase_then_merge. unfold_job.
  rewrite Hrebase, Hgit. simpl. rewrite Hmerge, app_one_two.
  destruct r as [sha | merge_error]; [reflexivity|].
  destruct (isinstance merge_error GitError); reflexivity.
Qed.

End RebaseThenMerge.

Lemma rebase_then_merge_surfaces_merge_outcome_witness :
  rebase_then_merge (Fake.env Fake.both_fail) "feature/x" "main" None false Fake.world0
  = (Raise (new GitError "merge conflict"),
     mkWorld (Fake.mkForge 0 [])
       [EvRebase "feature/x" "main" None false (Raise (new GitError "rebase conflict"));
        EvMerge "feature/x" "main" None false (Raise (new GitError "merge conflict"))]).
Proof.
  apply (rebase_then_merge_surfaces_merge_outcome (Fake.env Fake.both_fail)
           "feature/x" "main" None false Fake.world0
           (new GitError "rebase conflict") (Fake.mkForge 0 []) (Fake.mkForge 0 [])
           (Raise (new GitError "merge conflict")));
    reflexivity.
Defined.

(** C1, as the specification states it, fails: rebase and merge both raise a
    [GitError], and the error surfaced is not the rebase error. *)
Lemma rebase_then_merge_not_the_rebase_error :
  fst (repo_rebase (Fake.env Fake.both_fail) "feature/x" "main" None false
         (ext Fake.world0))
  = Raise (new GitError "rebase conflict") /\
  fst (repo_merge (Fake.env Fake.both_fail) "feature/x" "main" None false
         (ext Fake.world0))
  = Raise (new GitError "merge conflict") /\
  fst (rebase_then_merge (Fake.env Fake.both_fail) "feature/x" "main" None false
         Fake.world0)
  <> Raise (new GitError "rebase conflict").
Proof. repeat split; vm_compute; congruence. Qed.

(** ** Validate *)

Section Validate.

Context {S : Type}.
Variable env : Env S.
Variable self : MergeJob.

(** C5: on the refreshed snapshot [mr], with [approvals] what the forge
    answers, the outcome of [ensure_mergeable_mr] is the outcome of the first
    check that holds, the checks taken in the listed order; so a
    work-in-progress request is refused as such whatever the later checks
    (the embargo among them) would say. *)
Theorem ensure_mergeable_mr_first_check_decides
        (merge_request mr : MergeRequest) (approvals : Approvals)
        (w : World S) (s1 s2 : S) :
  MergeRequest_refetch_info env merge_request (ext w) = (Ret mr, s1) ->
  MergeRequest_fetch_approvals env mr s1 = (Ret approvals, s2) ->
  fst (ensure_mergeable_mr env self merge_request w) =
    Spec.as_result mr
      (Spec.first_match
         (Spec.validate_checks self mr approvals
            (embargo (_options self)
               (datetime_utcnow env (time_passes env s2))))) /\
  (work_in_progress mr = true ->
   fst (ensure_mergeable_mr env self merge_request w) =
     Raise (new CannotMerge
       "Sorry, I can't merge requests marked as Work-In-Progress!")).
Proof.
  intros Hfetch Happrovals.
  unfold ensure_mergeable_mr, during_merge_embargo, opts. unfold_job.
  rewrite Hfetch. simpl.
  destruct (work_in_progress mr); simpl; [split; reflexivity|].
  split; [|discriminate].
  destruct (squash mr && requests_commit_tagging (_options self)); simpl;
    [reflexivity|].
  rewrite Happrovals. simpl.
  destruct (sufficient approvals); simpl; [|reflexivity].
  unfold mem_string, existsb.
  assert (Hlater : forall (b : bool) (m : M (World S) MergeRequest) ww,
             m = (if b then raise (new SkipMerge "Merge embargo!")
                  else if negb (mem_Z (user_id (_user self)) (assignee_ids mr))
                       then raise (new SkipMerge "It is not assigned to me anymore!")
                       else ret mr) ->
             fst (m ww) =
             Spec.as_result mr
               (Spec.first_match
                  [(b, Spec.Skipped "Merge embargo!");
                   (negb (mem_Z (user_id (_user self)) (assignee_ids mr)),
                    Spec.Skipped "It is not assigned to me anymore!")])).
  { intros b m ww ->.
    destruct b; [reflexivity|].
    destruct (mem_Z (user_id (_user self)) (assignee_ids mr)); reflexivity. }
  destruct (String.eqb_spec (state mr) "opened") as [->|_];
    [cbn; apply Hlater; reflexivity|].
  destruct (String.eqb_spec (state mr) "reopened") as [->|_];
    [cbn; apply Hlater; reflexivity|].
  destruct (String.eqb_spec (state mr) "locked") as [->|_];
    [cbn; apply Hlater; reflexivity|].
  destruct (String.eqb_spec (state mr) "merged") as [->|_]; [reflexivity|].
  destruct (String.eqb_spec (state mr) "closed") as [->|_]; reflexivity.
Qed.

End Validate.

Lemma ensure_mergeable_mr_first_check_decides_witness :
  embargo Fake.under_embargo 0 = true /\
  fst (ensure_mergeable_mr (Fake.env Fake.happy) (Fake.job Fake.under_embargo)
         Fake.wip_mr Fake.world0)
  = Raise (new CannotMerge "Sorry, I can't merge requests marked as Work-In-Progress!").
Proof.
  split; [reflexivity|].
  apply (ensure_mergeable_mr_first_check_decides
           (Fake.env Fake.happy) (Fake.job Fake.under_embargo)
           Fake.wip_mr Fake.wip_mr (mkApprovals true [11] "['alice']" "0")
           Fake.world0 (Fake.mkForge 0 []) (Fake.mkForge 0 []));
    reflexivity.
Defined.

(** ** What a computation appends to the trace *)

Section Adds.

Context {S : Type}.

Lemma adds_ret {St A} (tr : St -> list Event) P (a : A) :
  adds tr P (ret a : M St A).
Proof. intros st. exists []. simpl. rewrite app_nil_r. auto. Qed.

Lemma adds_raise {St A} (tr : St -> list Event) P (e : Exn) :
  adds tr P (raise e : M St A).
Proof. intros st. exists []. simpl. rewrite app_nil_r. auto. Qed.

Lemma adds_bind {St A B} (tr : St -> list Event) P (m : M St A) (k : A -> M St B) :
  adds tr P m -> (forall a, adds tr P (k a)) -> adds tr P (bind m k).
Proof.
  intros Hm Hk st. unfold bind.
  destruct (Hm st) as (d1 & E1 & F1).
  destruct (m st) as [[a|e] st1]; simpl in *.
  - destruct (Hk a st1) as (d2 & E2 & F2).
    exists (d1 ++ d2)%list. rewrite E2, E1, app_assoc, forallb_app, F1, F2. auto.
  - exists d1. auto.
Qed.

Lemma adds_try_except {St A} (tr : St -> list Event) P (m : M St A) k
      (h : Exn -> M St A) :
  adds tr P m -> (forall e, adds tr P (h e)) -> adds tr P (try_except m k h).
Proof.
  intros Hm Hh st. unfold try_except.
  destruct (Hm st) as (d1 & E1 & F1).
  destruct (m st) as [[a|e] st1]; simpl in *.
  - exists d1. auto.
  - destruct (isinstance e k); simpl; [|exists d1; auto].
    destruct (Hh e st1) as (d2 & E2 & F2).
    exists (d1 ++ d2)%list. rewrite E2, E1, app_assoc, forallb_app, F1, F2. auto.
Qed.

Lemma adds_try_finally {St A} (tr : St -> list Event) P (m : M St A)
      (c : M St unit) :
  adds tr P m -> adds tr P c -> adds tr P (try_finally m c).
Proof.
  intros Hm Hc st. unfold try_finally.
  destruct (Hm st) as (d1 & E1 & F1).
  destruct (m st) as [r st1]; simpl in *.
  destruct (Hc st1) as (d2 & E2 & F2).
  exists (d1 ++ d2)%list.
  destruct (c st1) as [[u|e] st2]; simpl in *;
    rewrite E2, E1, app_assoc, forallb_app, F1, F2; auto.
Qed.

Lemma adds_weaken {St A} (tr : St -> list Event) (P Q : Event -> bool) (m : M St A) :
  (forall ev, P ev = true -> Q ev = true) -> adds tr P m -> adds tr Q m.
Proof.
  intros HPQ Hm st. destruct (Hm st) as (d & E & F).
  exists d. split; [exact E|].
  rewrite forallb_forall in *. auto.
Qed.

Lemma adds_call {A} P (op : S -> Res A * S) (ev : Res A -> Event) :
  (forall r, P (ev r) = true) -> adds trace P (call op ev).
Proof.
  intros HP w. unfold call. destruct (op (ext w)) as [r s']. simpl.
  exists [ev r]. simpl. rewrite HP. auto.
Qed.

Lemma adds_lift {A} P (m : M (World S) A) :
  adds trace P m -> adds block_trace P (lift m).
Proof.
  intros Hm [l w]. unfold lift, block_trace. simpl.
  destruct (Hm w) as (d & E & F). destruct (m w) as [r w']. simpl in *.
  exists d. auto.
Qed.

Lemma adds_assign P (f : Locals -> Locals) :
  adds (block_trace (S := S)) P (assign f).
Proof. intros [l w]. exists []. unfold block_trace. simpl. rewrite app_nil_r. auto. Qed.

Lemma adds_mapM {St A B} (tr : St -> list Event) P (f : A -> M St B) (l : list A) :
  (forall a, adds tr P (f a)) -> adds tr P (mapM f l).
Proof.
  intros Hf. induction l as [|a l IH]; simpl.
  - apply adds_ret.
  - apply adds_bind; [apply Hf|]. intros b.
    apply adds_bind; [exact IH|]. intros bs. apply adds_ret.
Qed.

End Adds.

(** Breaks a goal [adds tr P m] down along the structure of [m]. *)
Ltac adds_step :=
  match goal with
  | |- adds _ _ (ret _) => apply adds_ret
  | |- adds _ _ (raise _) => apply adds_raise
  | |- adds _ _ (bind _ _) => apply adds_bind; [|intro]
  | |- adds _ _ (try_except _ _ _) => apply adds_try_except; [|intro]
  | |- adds _ _ (try_finally _ _) => apply adds_try_finally
  | |- adds _ _ (lift _) => apply adds_lift
  | |- adds _ _ (assign _) => apply adds_assign
  | |- adds _ _ (mapM _ _) => apply adds_mapM; intro
  | |- adds _ _ (call _ _) => apply adds_call; intro; reflexivity
  | |- adds _ _ (if ?b then _ else _) => destruct b
  | |- adds _ _ (match ?x with _ => _ end) => destruct x
  | |- adds _ _ (let _ := _ in _) => cbv zeta
  end.

Ltac adds_auto := repeat adds_step.

Section AddsJob.

Context {S : Type}.
Variable env : Env S.
Variable self : MergeJob.

Lemma fuse_adds source target url local :
  adds trace (fun ev => not_rewrite_or_push ev && negb (is_cleanup ev))
       (fuse env self source target url local).
Proof.
  unfold fuse, rebase_then_merge, rebase, merge.
  destruct (merge_strategy (_options self)); adds_auto.
Qed.

Lemma get_commit_hash_adds rev :
  adds trace (fun ev => not_rewrite_or_push ev && negb (is_cleanup ev))
       (get_commit_hash env rev).
Proof. unfold get_commit_hash. adds_auto. Qed.

Lemma update_finally_adds merge_request :
  adds trace (fun ev => not_rewrite_or_push ev && not_tag ev)
       (update_finally env merge_request).
Proof. unfold update_finally, checkout_branch, remove_branch. adds_auto. Qed.

Lemma update_finally_is_cleanup merge_request :
  adds trace is_cleanup (update_finally env merge_request).
Proof. unfold update_finally, checkout_branch, remove_branch. adds_auto. Qed.

Lemma add_trailers_adds merge_request :
  adds trace (fun ev => negb (is_cleanup ev)) (add_trailers env self merge_request).
Proof.
  unfold add_trailers, _get_reviewer_names_and_emails, fetch_approvals,
         fetch_by_id, tag_with_trailer.
  adds_auto.
Qed.

Lemma update_try_adds merge_request url :
  adds block_trace (fun ev => negb (is_cleanup ev))
       (update_try env self merge_request url).
Proof.
  unfold update_try, push, get_commit_hash.
  adds_auto;
    try (eapply adds_weaken; [|apply fuse_adds]; intros ev H;
         apply andb_true_iff in H; tauto);
    apply add_trailers_adds.
Qed.

Lemma update_except_adds merge_request l exc :
  adds trace (fun ev => negb (is_cleanup ev))
       (update_except env self merge_request l exc).
Proof. unfold update_except, read_local, fetch_by_name. adds_auto. Qed.

Lemma update_else_adds l :
  adds trace (fun ev => negb (is_cleanup ev)) (update_else (S := S) l).
Proof. unfold update_else, read_local. adds_auto. Qed.

End AddsJob.

(** ** [update_from_target_branch_and_push] *)

Section Update.

Context {S : Type}.
Variable env : Env S.
Variable self : MergeJob.

Lemma bind_run_ret {St A B} (m : M St A) (k : A -> M St B) (st st' : St) (a : A) :
  m st = (Ret a, st') -> bind m k st = k a st'.
Proof. intros H. unfold bind. rewrite H. reflexivity. Qed.

Lemma bind_lift_ret {A B} (m : M (World S) A) (k : A -> M (Locals * World S) B)
      (l : Locals) (w w' : World S) (a : A) :
  m w = (Ret a, w') -> bind (lift m) k (l, w) = k a (l, w').
Proof. intros H. unfold bind, lift. simpl. rewrite H. reflexivity. Qed.

Lemma bind_lift_raise {A B} (m : M (World S) A) (k : A -> M (Locals * World S) B)
      (l : Locals) (w w' : World S) (e : Exn) :
  m w = (Raise e, w') -> bind (lift m) k (l, w) = (Raise e, (l, w')).
Proof. intros H. unfold bind, lift. simpl. rewrite H. reflexivity. Qed.

Lemma bind_assign {B} (f : Locals -> Locals) (k : unit -> M (Locals * World S) B)
      (l : Locals) (w : World S) :
  bind (assign f) k (l, w) = k tt (f l, w).
Proof. reflexivity. Qed.

Lemma not_rewrite_or_push_fuse (ev : Event) :
  not_rewrite_or_push ev && negb (is_cleanup ev) = true ->
  is_rewrite_or_push ev = false.
Proof. unfold not_rewrite_or_push. destruct (is_rewrite_or_push ev); auto. Qed.

Lemma not_rewrite_or_push_cleanup (ev : Event) :
  not_rewrite_or_push ev && not_tag ev = true -> is_rewrite_or_push ev = false.
Proof. unfold not_rewrite_or_push. destruct (is_rewrite_or_push ev); auto. Qed.

Lemma update_enters_try merge_request url :
  enters_try self merge_request url = true ->
  update_from_target_branch_and_push env self merge_request url =
    try_finally (update_try_except_else env self merge_request url)
                (update_finally env merge_request).
Proof.
  unfold enters_try, update_from_target_branch_and_push.
  intros H. apply andb_true_iff in H. destruct H as [H1 H2].
  apply negb_true_iff in H1. apply negb_true_iff in H2.
  rewrite H1, H2. reflexivity.
Qed.

(** C6, as the code has it: when the fuse returns a SHA that
    [origin/<target>] also has, the [try] block raises [CannotMerge] right
    after the hash lookup, so that only the [finally] clause still runs.
    The call fails with that [CannotMerge] once the cleanup returns; when a
    cleanup call raises, the call fails with the error of the cleanup
    instead.  In no case is a trailer rewrite or a push among the calls
    made. *)
Theorem update_rejects_changes_already_in_target
        (merge_request : MergeRequest) (url : option string)
        (w w1 w2 : World S) (updated : string) :
  enters_try self merge_request url = true ->
  fuse env self (source_branch merge_request) (target_branch merge_request) url false w
  = (Ret updated, w1) ->
  get_commit_hash env ("origin/" ++ target_branch merge_request) w1
  = (Ret updated, w2) ->
  let rejection :=
    new CannotMerge ("these changes already exist in branch `"
                     ++ target_branch merge_request ++ "`") in
  update_from_target_branch_and_push env self merge_request url w
  = try_finally (raise rejection) (update_finally env merge_request) w2 /\
  (forall w3, update_finally env merge_request w2 = (Ret tt, w3) ->
     update_from_target_branch_and_push env self merge_request url w
     = (Raise rejection, w3)) /\
  (forall e w3, update_finally env merge_request w2 = (Raise e, w3) ->
     update_from_target_branch_and_push env self merge_request url w
     = (Raise e, w3)) /\
  (exists d,
     trace (snd (update_from_target_branch_and_push env self merge_request url w))
     = (trace w ++ d)%list /\
     existsb is_rewrite_or_push d = false).
Proof.
  intros Hguard Hfuse Hhash rejection.
  assert (Hrun : update_from_target_branch_and_push env self merge_request url w
                 = try_finally (raise rejection) (update_finally env merge_request) w2).
  { rewrite update_enters_try by exact Hguard.
    unfold try_finally, update_try_except_else, update_try. cbv zeta.
    rewrite (bind_lift_ret _ _ _ _ _ _ Hfuse), !bind_assign.
    rewrite (bind_lift_ret _ _ _ _ _ _ Hhash), bind_assign.
    rewrite String.eqb_refl. reflexivity. }
  split; [exact Hrun|]. split; [|split].
  - intros w3 Hclean. rewrite Hrun. unfold try_finally, raise.
    rewrite Hclean. reflexivity.
  - intros e w3 Hclean. rewrite Hrun. unfold try_finally, raise.
    rewrite Hclean. reflexivity.
  - rewrite Hrun. unfold try_finally, raise.
    destruct (fuse_adds env self (source_branch merge_request)
                (target_branch merge_request) url false w) as (d1 & E1 & F1).
    destruct (get_commit_hash_adds env ("origin/" ++ target_branch merge_request) w1)
      as (d2 & E2 & F2).
    destruct (update_finally_adds env merge_request w2) as (d3 & E3 & F3).
    rewrite Hfuse in E1. rewrite Hhash in E2. simpl in E1, E2.
    exists (d1 ++ d2 ++ d3)%list. split.
    + destruct (update_finally env merge_request w2) as [[u|e] w3]; simpl in *;
        rewrite E3, E2, E1, <- !app_assoc; reflexivity.
    + rewrite !existsb_app.
      rewrite (forallb_none _ is_rewrite_or_push _ not_rewrite_or_push_fuse F1).
      rewrite (forallb_none _ is_rewrite_or_push _ not_rewrite_or_push_fuse F2).
      rewrite (forallb_none _ is_rewrite_or_push _ not_rewrite_or_push_cleanup F3).
      reflexivity.
Qed.

(** C2, as the code has it: the fuse succeeded with something new, the
    trailer rewrite succeeded and the force-push raises a [GitError].  When
    the rewrite changed the tip ([rewritten] differs from [updated]) the
    branch is looked up at the forge, and the [try] statement raises
    [CannotMerge] with the message for protected branches when it is
    protected, and with the message naming the strategy otherwise.  When
    the rewrite left the tip as it was, the [try] statement raises
    [CannotMerge('expected commit id to change on merge, ...')] and the
    branch is not looked up: after the failed push only the cleanup calls
    are made.  Either way that is the outcome of the call once the cleanup
    returns. *)
Theorem update_push_failure
        (merge_request : MergeRequest) (url : option string)
        (w w1 w2 w3 w4 : World S) (updated target : string)
        (trailers_sha : option string) (exc : Exn) :
  enters_try self merge_request url = true ->
  fuse env self (source_branch merge_request) (target_branch merge_request) url false w
  = (Ret updated, w1) ->
  get_commit_hash env ("origin/" ++ target_branch merge_request) w1
  = (Ret target, w2) ->
  updated <> target ->
  add_trailers env self merge_request w2 = (Ret trailers_sha, w3) ->
  push env (source_branch merge_request) url true w3 = (Raise exc, w4) ->
  isinstance exc GitError = true ->
  let rewritten := py_or trailers_sha updated in
  let run := update_from_target_branch_and_push env self merge_request url w in
  (rewritten <> updated ->
   forall (b : Branch) (w5 : World S),
     fetch_by_name env (source_project_id merge_request)
       (source_branch merge_request) w4 = (Ret b, w5) ->
     let rejection :=
       new CannotMerge
         (if protected b
          then "Sorry, I can't push rewritten changes to protected branches!"
          else "failed to push with strategy "
               ++ MergeStrategy.value (merge_strategy (_options self))
               ++ ", check my logs!") in
     run = try_finally (raise rejection) (update_finally env merge_request) w5 /\
     (forall w6, update_finally env merge_request w5 = (Ret tt, w6) ->
        run = (Raise rejection, w6))) /\
  (rewritten = updated ->
   let rejection :=
     new CannotMerge
       ("expected commit id to change on merge, but we have rewritten=" ++ rewritten
        ++ " updated=" ++ updated ++ ". Or it could be the GitError: "
        ++ GitError_str env exc) in
   run = try_finally (raise rejection) (update_finally env merge_request) w4 /\
   (forall w6, update_finally env merge_request w4 = (Ret tt, w6) ->
      run = (Raise rejection, w6)) /\
   (exists cleaned,
      trace (snd run) = (trace w4 ++ cleaned)%list /\
      forallb is_cleanup cleaned = true)).
Proof.
  intros Hguard Hfuse Hhash Hnew Htrailers Hpush Hgit rewritten run.
  apply String.eqb_neq in Hnew.
  assert (Htry : run
                 = try_finally
                     (update_except env self merge_request
                        (mkLocals (Some updated) (Some target) (Some rewritten)
                           true (negb (String.eqb rewritten updated)) false)
                        exc)
                     (update_finally env merge_request) w4).
  { unfold run. rewrite update_enters_try by exact Hguard.
    unfold try_finally, update_try_except_else, update_try. cbv zeta.
    rewrite (bind_lift_ret _ _ _ _ _ _ Hfuse), !bind_assign.
    rewrite (bind_lift_ret _ _ _ _ _ _ Hhash), bind_assign.
    rewrite Hnew.
    rewrite (bind_lift_ret _ _ _ _ _ _ Htrailers), !bind_assign.
    rewrite (bind_lift_raise _ _ _ _ _ _ Hpush).
    rewrite Hgit. reflexivity. }
  split.
  - intros Hrewritten b w5 Hbranch rejection.
    apply String.eqb_neq in Hrewritten.
    assert (Hrun : run = try_finally (raise rejection)
                           (update_finally env merge_request) w5).
    { rewrite Htry. unfold try_finally, update_except.
      cbn [branch_updated branch_rewritten changes_pushed negb].
      rewrite Hrewritten. cbn [negb]. unfold bind at 1.
      rewrite (bind_run_ret _ _ _ _ _ Hbranch). unfold ret at 1.
      unfold rejection, opts, raise.
      destruct (protected b); reflexivity. }
    split; [exact Hrun|].
    intros w6 Hclean. rewrite Hrun. unfold try_finally, raise.
    rewrite Hclean. reflexivity.
  - intros Hsame rejection.
    assert (Hrun : run = try_finally (raise rejection)
                           (update_finally env merge_request) w4).
    { rewrite Htry. unfold try_finally, update_except.
      cbn [branch_updated branch_rewritten changes_pushed negb
           rewritten_sha updated_sha].
      assert (Heq : String.eqb rewritten updated = true)
        by (apply String.eqb_eq; exact Hsame).
      rewrite Heq. cbn [negb].
      unfold read_local, bind, ret, raise. reflexivity. }
    split; [exact Hrun|]. split.
    + intros w6 Hclean. rewrite Hrun. unfold try_finally, raise.
      rewrite Hclean. reflexivity.
    + rewrite Hrun. unfold try_finally, raise.
      destruct (update_finally_is_cleanup env merge_request w4) as (d & E & F).
      exists d. split; [|exact F].
      destruct (update_finally env merge_request w4) as [[u|e] w6]; exact E.
Qed.

End Update.

Lemma update_rejects_changes_already_in_target_witness :
  update_from_target_branch_and_push (Fake.env Fake.nothing_new)
    (Fake.job Fake.with_all_trailers) Fake.mr42 None Fake.world0
  = (Raise (new CannotMerge "these changes already exist in branch `main`"),
     mkWorld (Fake.mkForge 0 [])
       [EvRebase "feature/x" "main" None false (Ret "t0");
        EvGetCommitHash "origin/main" (Ret "t0");
        EvCheckoutBranch "master" (Ret tt);
        EvRemoveBranch "feature/x" (Ret tt)]) /\
  update_from_target_branch_and_push (Fake.env Fake2.nothing_new_cleanup_fails)
    (Fake.job Fake.with_all_trailers) Fake.mr42 None Fake.world0
  = (Raise (new GitError "checkout failed"),
     mkWorld (Fake.mkForge 0 [])
       [EvRebase "feature/x" "main" None false (Ret "t0");
        EvGetCommitHash "origin/main" (Ret "t0");
        EvCheckoutBranch "master" (Raise (new GitError "checkout failed"))]).
Proof.
  split.
  - edestruct (update_rejects_changes_already_in_target
                 (Fake.env Fake.nothing_new) (Fake.job Fake.with_all_trailers)
                 Fake.mr42 None Fake.world0) as (_ & H & _);
      [reflexivity | reflexivity | reflexivity |].
    apply H. reflexivity.
  - edestruct (update_rejects_changes_already_in_target
                 (Fake.env Fake2.nothing_new_cleanup_fails)
                 (Fake.job Fake.with_all_trailers)
                 Fake.mr42 None Fake.world0) as (_ & _ & H & _);
      [reflexivity | reflexivity | reflexivity |].
    apply H. reflexivity.
Defined.

(** C6, as the specification states it, fails: the fuse leaves the source
    branch at the tip of the target, the [try] block raises the
    [CannotMerge], the checkout of the cleanup raises a [GitError], and the
    call ends in that [GitError], not in the [CannotMerge]. *)
Lemma update_already_in_target_cleanup_fails :
  fst (fuse (Fake.env Fake2.nothing_new_cleanup_fails) (Fake.job Fake.options)
         "feature/x" "main" None false Fake.world0) = Ret "t0" /\
  Fake.commit_hash Fake2.nothing_new_cleanup_fails = Ret "t0" /\
  update_from_target_branch_and_push (Fake.env Fake2.nothing_new_cleanup_fails)
    (Fake.job Fake.options) Fake.mr42 None Fake.world0
  = (Raise (new GitError "checkout failed"),
     mkWorld (Fake.mkForge 0 [])
       [EvRebase "feature/x" "main" None false (Ret "t0");
        EvGetCommitHash "origin/main" (Ret "t0");
        EvCheckoutBranch "master" (Raise (new GitError "checkout failed"))]) /\
  fst (update_from_target_branch_and_push (Fake.env Fake2.nothing_new_cleanup_fails)
         (Fake.job Fake.options) Fake.mr42 None Fake.world0)
  <> Raise (new CannotMerge "these changes already exist in branch `main`").
Proof. repeat split; vm_compute; congruence. Qed.

Lemma update_push_failure_witness :
  update_from_target_branch_and_push (Fake.env Fake.push_rejected)
    (Fake.job Fake.with_part_of) Fake.mr42 None Fake.world0
  = (Raise (new CannotMerge
       "Sorry, I can't push rewritten changes to protected branches!"),
     mkWorld (Fake.mkForge 0 [])
       [EvRebase "feature/x" "main" None false (Ret "u1");
        EvGetCommitHash "origin/main" (Ret "t0");
        EvTagWithTrailer "Part-of"
          ["<https://forge.example.com/g/p/merge_requests/42>"]
          "feature/x" "origin/main" (Ret "sha-Part-of");
        EvPush "feature/x" None true (Raise (new GitError "remote rejected"));
        EvBranchFetchByName 1 "feature/x" (Ret (mkBranch true));
        EvCheckoutBranch "master" (Ret tt);
        EvRemoveBranch "feature/x" (Ret tt)]) /\
  update_from_target_branch_and_push (Fake.env Fake.push_rejected)
    (Fake.job Fake.options) Fake.mr42 None Fake.world0
  = (Raise (new CannotMerge
       ("expected commit id to change on merge, but we have rewritten=u1"
        ++ " updated=u1. Or it could be the GitError: remote rejected")),
     mkWorld (Fake.mkForge 0 [])
       [EvRebase "feature/x" "main" None false (Ret "u1");
        EvGetCommitHash "origin/main" (Ret "t0");
        EvPush "feature/x" None true (Raise (new GitError "remote rejected"));
        EvCheckoutBranch "master" (Ret tt);
        EvRemoveBranch "feature/x" (Ret tt)]).
Proof.
  split.
  - edestruct (update_push_failure
                 (Fake.env Fake.push_rejected) (Fake.job Fake.with_part_of)
                 Fake.mr42 None Fake.world0) as (H & _);
      [reflexivity | lazy; reflexivity | lazy; reflexivity | discriminate
      | lazy; reflexivity | lazy; reflexivity | reflexivity |].
    edestruct H as (_ & H'); [discriminate | lazy; reflexivity |].
    apply H'. reflexivity.
  - edestruct (update_push_failure
                 (Fake.env Fake.push_rejected) (Fake.job Fake.options)
                 Fake.mr42 None Fake.world0) as (_ & H);
      [reflexivity | lazy; reflexivity | lazy; reflexivity | discriminate
      | lazy; reflexivity | lazy; reflexivity | reflexivity |].
    destruct (H eq_refl) as (_ & H' & _).
    apply H'. reflexivity.
Defined.

(** C2, as the specification states it, fails: no trailer is configured, so the rewrite
    succeeds and leaves the tip as it was; the push to the protected branch
    raises a [GitError]; the branch is not looked up, and the message is
    neither of the two the specification names. *)
Lemma update_push_failure_without_rewrite :
  update_from_target_branch_and_push (Fake.env Fake.push_rejected)
    (Fake.job Fake.options) Fake.mr42 None Fake.world0
  = (Raise (new CannotMerge
       ("expected commit id to change on merge, but we have rewritten=u1"
        ++ " updated=u1. Or it could be the GitError: remote rejected")),
     mkWorld (Fake.mkForge 0 [])
       [EvRebase "feature/x" "main" None false (Ret "u1");
        EvGetCommitHash "origin/main" (Ret "t0");
        EvPush "feature/x" None true (Raise (new GitError "remote rejected"));
        EvCheckoutBranch "master" (Ret tt);
        EvRemoveBranch "feature/x" (Ret tt)]) /\
  Fake.branch Fake.push_rejected = Ret (mkBranch true) /\
  fst (update_from_target_branch_and_push (Fake.env Fake.push_rejected)
         (Fake.job Fake.options) Fake.mr42 None Fake.world0)
  <> Raise (new CannotMerge
       "Sorry, I can't push rewritten changes to protected branches!") /\
  fst (update_from_target_branch_and_push (Fake.env Fake.push_rejected)
         (Fake.job Fake.options) Fake.mr42 None Fake.world0)
  <> Raise (new CannotMerge
       ("failed to push with strategy "
        ++ MergeStrategy.value (merge_strategy Fake.options)
        ++ ", check my logs!")).
Proof. repeat split; vm_compute; congruence. Qed.

Section Cleanup.

Context {S : Type}.
Variable env : Env S.
Variable self : MergeJob.

Lemma update_try_except_else_adds merge_request url :
  adds trace (fun ev => negb (is_cleanup ev))
       (update_try_except_else env self merge_request url).
Proof.
  intros w. unfold update_try_except_else.
  destruct (update_try_adds env self merge_request url (no_locals, w))
    as (d1 & E1 & F1).
  destruct (update_try env self merge_request url (no_locals, w))
    as [[u|exc] [l w1]]; unfold block_trace in E1; simpl in E1.
  - destruct (update_else_adds (S := S) l w1) as (d2 & E2 & F2).
    exists (d1 ++ d2)%list. rewrite E2, E1, app_assoc, forallb_app, F1, F2. auto.
  - destruct (isinstance exc GitError); [|exists d1; auto].
    destruct (update_except_adds env self merge_request l exc w1) as (d2 & E2 & F2).
    exists (d1 ++ d2)%list. rewrite E2, E1, app_assoc, forallb_app, F1, F2. auto.
Qed.

(** C8, as the code has it, for a call that is past its assertion on
    [source_repo_url].  When no [source_repo_url] is given and source and
    target branch coincide, the call raises [CannotMerge('source and target
    branch seem to coincide!')] before its [try] statement: no call is made
    and the outside state is left as it was, so no cleanup takes place
    whatever the name of the branch.  Otherwise, when the source branch is
    not [master], the calls of the [try] statement are followed by
    [checkout_branch('master')] and, when that returns, by
    [remove_branch(<source>)] as the last call, on every outcome; an error
    raised by either of the two is the error that propagates.  When the
    source branch is [master] no cleanup call is made. *)
Theorem update_cleans_up_after_try
        (merge_request : MergeRequest) (url : option string) (w : World S) :
  option_string_eqb url (repo_remote_url self) = false ->
  let run := update_from_target_branch_and_push env self merge_request url w in
  (url = None /\ source_branch merge_request = target_branch merge_request ->
   run = (Raise (new CannotMerge "source and target branch seem to coincide!"), w)) /\
  (~ (url = None /\ source_branch merge_request = target_branch merge_request) ->
   exists before,
     forallb (fun ev => negb (is_cleanup ev)) before = true /\
     (source_branch merge_request = "master" ->
      trace (snd run) = (trace w ++ before)%list) /\
     (source_branch merge_request <> "master" ->
      (exists removal,
         trace (snd run)
         = (trace w ++ before
            ++ [EvCheckoutBranch "master" (Ret tt);
                EvRemoveBranch (source_branch merge_request) removal])%list /\
         forall e, removal = Raise e -> fst run = Raise e) \/
      (exists e,
         trace (snd run)
         = (trace w ++ before ++ [EvCheckoutBranch "master" (Raise e)])%list /\
         fst run = Raise e))).
Proof.
  intros Hassert run. split.
  - intros [-> Hsame]. unfold run, update_from_target_branch_and_push.
    rewrite Hassert. apply String.eqb_eq in Hsame. rewrite Hsame. reflexivity.
  - intros Hnot.
    assert (Hguard : enters_try self merge_request url = true).
    { unfold enters_try. rewrite Hassert. cbn [negb andb].
      destruct url as [u|]; [reflexivity|]. cbn [andb].
      destruct (String.eqb_spec (source_branch merge_request)
                  (target_branch merge_request)) as [Heq|_]; [|reflexivity].
      exfalso. apply Hnot. auto. }
    unfold run. clear run.
    rewrite update_enters_try by exact Hguard.
    unfold try_finally.
    destruct (update_try_except_else_adds merge_request url w) as (before & E & F).
    destruct (update_try_except_else env self merge_request url w) as [r w1].
    simpl in E. exists before. split; [exact F|]. split.
    + intros Hmaster. unfold update_finally. rewrite Hmaster. simpl. exact E.
    + intros Hother. apply String.eqb_neq in Hother.
      unfold update_finally. rewrite Hother. cbn [negb].
      unfold checkout_branch, remove_branch, call, bind.
      destruct (repo_checkout_branch env "master" (ext w1)) as [[[]|e] s1]; simpl.
      * left.
        destruct (repo_remove_branch env (source_branch merge_request) s1)
          as [[[]|e] s2]; simpl.
        -- exists (Ret tt). rewrite E, <- !app_assoc. split; [reflexivity|].
           intros e He. discriminate.
        -- exists (Raise e). rewrite E, <- !app_assoc. split; [reflexivity|].
           intros e' He. congruence.
      * right. exists e. rewrite E, <- !app_assoc. auto.
Qed.

End Cleanup.

Lemma update_cleans_up_after_try_witness :
  (source_branch Fake.mr42 <> "master" /\
   exists before,
     forallb (fun ev => negb (is_cleanup ev)) before = true /\
     ((exists removal,
         trace (snd (update_from_target_branch_and_push (Fake.env Fake.push_rejected)
                       (Fake.job Fake.options) Fake.mr42 None Fake.world0))
         = (trace Fake.world0 ++ before
            ++ [EvCheckoutBranch "master" (Ret tt);
                EvRemoveBranch (source_branch Fake.mr42) removal])%list /\
         forall e, removal = Raise e ->
           fst (update_from_target_branch_and_push (Fake.env Fake.push_rejected)
                  (Fake.job Fake.options) Fake.mr42 None Fake.world0) = Raise e) \/
      (exists e,
         trace (snd (update_from_target_branch_and_push (Fake.env Fake.push_rejected)
                       (Fake.job Fake.options) Fake.mr42 None Fake.world0))
         = (trace Fake.world0 ++ before ++ [EvCheckoutBranch "master" (Raise e)])%list /\
         fst (update_from_target_branch_and_push (Fake.env Fake.push_rejected)
                (Fake.job Fake.options) Fake.mr42 None Fake.world0) = Raise e))) /\
  (source_branch Fake.stale_mr <> "master" /\
   update_from_target_branch_and_push (Fake.env Fake.happy)
     (Fake.job Fake.options) Fake.stale_mr None Fake.world0
   = (Raise (new CannotMerge "source and target branch seem to coincide!"),
      Fake.world0)).
Proof.
  split.
  - split; [discriminate|].
    destruct (update_cleans_up_after_try (Fake.env Fake.push_rejected)
                (Fake.job Fake.options) Fake.mr42 None Fake.world0 eq_refl)
      as (_ & H).
    destruct H as (before & F & _ & H).
    { intros [_ Hsame]. discriminate. }
    exists before. split; [exact F|]. apply H. discriminate.
  - split; [discriminate|].
    destruct (update_cleans_up_after_try (Fake.env Fake.happy)
                (Fake.job Fake.options) Fake.stale_mr None Fake.world0 eq_refl)
      as (H & _).
    apply H. split; reflexivity.
Defined.

(** C8, as the specification states it, fails: source and target coincide, the call
    raises [CannotMerge] before its [try] statement, and the branch, which is
    not [master], is neither left nor removed. *)
Lemma update_coincide_skips_cleanup :
  update_from_target_branch_and_push (Fake.env Fake.happy)
    (Fake.job Fake.options) Fake.stale_mr None Fake.world0
  = (Raise (new CannotMerge "source and target branch seem to coincide!"),
     Fake.world0) /\
  source_branch Fake.stale_mr <> "master" /\
  existsb is_cleanup
    (trace (snd (update_from_target_branch_and_push (Fake.env Fake.happy)
                   (Fake.job Fake.options) Fake.stale_mr None Fake.world0)))
  = false.
Proof. repeat split; vm_compute; congruence. Qed.

(** ** Trailers *)

Section TraceFacts.

Lemma tag_names_app (a b : list Event) :
  tag_names (a ++ b) = (tag_names a ++ tag_names b)%list.
Proof.
  induction a as [|ev a IH]; simpl; [reflexivity|].
  destruct ev; simpl; rewrite IH; reflexivity.
Qed.

Lemma last_tag_sha_app (a b : list Event) :
  last_tag_sha (a ++ b) =
    match last_tag_sha b with
    | Some s => Some s
    | None => last_tag_sha a
    end.
Proof.
  induction a as [|ev a IH]; simpl.
  - destruct (last_tag_sha b); reflexivity.
  - destruct ev; simpl; try exact IH.
    destruct r; [|exact IH].
    rewrite IH. destruct (last_tag_sha b); reflexivity.
Qed.

Lemma no_tag_names (d : list Event) :
  forallb not_tag d = true -> tag_names d = [] /\ last_tag_sha d = None.
Proof.
  induction d as [|ev d IH]; simpl; [auto|].
  intros H. apply andb_true_iff in H. destruct H as [Hev Hd].
  destruct ev; simpl in *; try discriminate; auto.
Qed.

End TraceFacts.

Section Inversion.

Context {St A B : Type}.

Lemma bind_inv (m : M St A) (k : A -> M St B) (st st' : St) (b : B) :
  bind m k st = (Ret b, st') ->
  exists a st1, m st = (Ret a, st1) /\ k a st1 = (Ret b, st').
Proof.
  unfold bind. destruct (m st) as [[a|e] st1]; [eauto | discriminate].
Qed.

End Inversion.

Section Trailers.

Context {S : Type}.
Variable env : Env S.
Variable self : MergeJob.

Lemma call_trace {A} (op : S -> Res A * S) (ev : Res A -> Event)
      (w w' : World S) (r : Res A) :
  call op ev w = (r, w') -> trace w' = (trace w ++ [ev r])%list.
Proof.
  unfold call. destruct (op (ext w)) as [r0 s']. intros H.
  inversion H; subst. reflexivity.
Qed.

(** One of the three blocks of [add_trailers]: tag when there is something
    to tag with, else keep [sha]. *)
Lemma tag_block {V} (x : option V) (values : V -> list string)
      (trailer_name branch start_commit : string) (sha r : option string)
      (w w' : World S) :
  match x with
  | Some v =>
      (s <- tag_with_trailer env trailer_name (values v) branch start_commit ;;
       ret (Some s))%job
  | None => ret sha
  end w = (Ret r, w') ->
  exists d, trace w' = (trace w ++ d)%list /\
            tag_names d = match x with Some _ => [trailer_name] | None => [] end /\
            r = match last_tag_sha d with Some s => Some s | None => sha end /\
            (last_tag_sha d = None <-> tag_names d = []).
Proof.
  destruct x as [v|]; intros H.
  - apply bind_inv in H. destruct H as (s & w1 & Htag & H).
    inversion H; subst. apply call_trace in Htag.
    eexists. split; [exact Htag|]. simpl. repeat split; discriminate.
  - inversion H; subst. exists []. rewrite app_nil_r. simpl. tauto.
Qed.

Lemma reviewers_adds merge_request :
  adds trace not_tag
    (if add_reviewers (_options self) then
       approvals <- fetch_approvals env merge_request ;;
       names <- _get_reviewer_names_and_emails env approvals ;;
       ret (Some names)
     else ret None)%job.
Proof.
  unfold _get_reviewer_names_and_emails, fetch_approvals, fetch_by_id. adds_auto.
Qed.

Lemma reviewers_some merge_request (w w1 : World S) (reviewers : option (list string)) :
  (if add_reviewers (_options self) then
     approvals <- fetch_approvals env merge_request ;;
     names <- _get_reviewer_names_and_emails env approvals ;;
     ret (Some names)
   else ret None)%job w = (Ret reviewers, w1) ->
  match reviewers with Some _ => true | None => false end
  = add_reviewers (_options self).
Proof.
  destruct (add_reviewers (_options self)); intros H.
  - apply bind_inv in H. destruct H as (ap & w2 & _ & H).
    apply bind_inv in H. destruct H as (names & w3 & _ & H).
    inversion H; subst. reflexivity.
  - inversion H; subst. reflexivity.
Qed.

(** A run of [add_trailers] that returns has tagged with the applicable
    trailers in their order, and returns what the last tagging returned:
    [None] exactly when no trailer applies. *)
Lemma add_trailers_ret merge_request (w w' : World S) (r : option string) :
  add_trailers env self merge_request w = (Ret r, w') ->
  exists d, trace w' = (trace w ++ d)%list /\
            tag_names d = Spec.applicable_trailers self /\
            last_tag_sha d = r /\
            (r = None <-> Spec.applicable_trailers self = []).
Proof.
  intros H. unfold add_trailers in H. cbv zeta in H.
  apply bind_inv in H. destruct H as (reviewers & w1 & Hrev & H).
  apply bind_inv in H. destruct H as (sha1 & w2 & H1 & H).
  apply bind_inv in H. destruct H as (sha2 & w3 & H2 & H).
  apply bind_inv in H. destruct H as (sha3 & w4 & H3 & H).
  inversion H; subst; clear H.
  destruct (reviewers_adds merge_request w) as (d0 & E0 & F0).
  rewrite Hrev in E0. simpl in E0.
  apply no_tag_names in F0. destruct F0 as [N0 L0].
  apply reviewers_some in Hrev.
  apply (tag_block reviewers (fun v => v)) in H1.
  destruct H1 as (d1 & E1 & N1 & L1 & B1).
  assert (H2' : exists d2, trace w3 = (trace w2 ++ d2)%list /\
            tag_names d2 =
              (if add_tested (_options self)
                  && only_allow_merge_if_pipeline_succeeds (_project self)
                  && MergeStrategy.eqb (merge_strategy (_options self))
                                       MergeStrategy.rebase
               then ["Tested-by"] else []) /\
            sha2 = match last_tag_sha d2 with Some s => Some s | None => sha1 end /\
            (last_tag_sha d2 = None <-> tag_names d2 = [])).
  { destruct (add_tested (_options self)
              && only_allow_merge_if_pipeline_succeeds (_project self));
      [destruct (MergeStrategy.eqb (merge_strategy (_options self))
                                   MergeStrategy.rebase)|].
    - apply (tag_block (Some [user_name (_user self) ++ " <"
                              ++ web_url merge_request ++ ">"])
                       (fun v => v)) with (sha := sha1) in H2.
      exact H2.
    - inversion H2; subst. exists []. rewrite app_nil_r. simpl. tauto.
    - inversion H2; subst. exists []. rewrite app_nil_r. simpl. tauto. }
  destruct H2' as (d2 & E2 & N2 & L2 & B2).
  assert (H3' : exists d3, trace w' = (trace w3 ++ d3)%list /\
            tag_names d3 = (if add_part_of (_options self) then ["Part-of"] else []) /\
            r = match last_tag_sha d3 with Some s => Some s | None => sha2 end /\
            (last_tag_sha d3 = None <-> tag_names d3 = [])).
  { destruct (add_part_of (_options self)).
    - apply (tag_block (Some ("<" ++ web_url merge_request ++ ">"))
                       (fun v => [v])) with (sha := sha2) in H3.
      exact H3.
    - inversion H3; subst. exists []. rewrite app_nil_r. simpl. tauto. }
  destruct H3' as (d3 & E3 & N3 & L3 & B3).
  assert (Hnames : (tag_names d1 ++ tag_names d2 ++ tag_names d3)%list
                   = Spec.applicable_trailers self).
  { rewrite N1, N2, N3. unfold Spec.applicable_trailers.
    rewrite <- Hrev. destruct reviewers; reflexivity. }
  exists (d0 ++ d1 ++ d2 ++ d3)%list. split; [|split; [|split]].
  - rewrite E3, E2, E1, E0, <- !app_assoc. reflexivity.
  - rewrite !tag_names_app, N0. exact Hnames.
  - rewrite !last_tag_sha_app, L0, L3, L2, L1.
    destruct (last_tag_sha d3), (last_tag_sha d2), (last_tag_sha d1); reflexivity.
  - rewrite <- Hnames, L3, L2, L1. split.
    + intros H.
      destruct (last_tag_sha d3); [discriminate|].
      destruct (last_tag_sha d2); [discriminate|].
      destruct (last_tag_sha d1); [discriminate|].
      destruct B1 as [B1 _], B2 as [B2 _], B3 as [B3 _].
      rewrite B1, B2, B3; reflexivity.
    + intros H.
      apply app_eq_nil in H. destruct H as [H1 H23].
      apply app_eq_nil in H23. destruct H23 as [H2' H3'].
      apply B1 in H1. apply B2 in H2'. apply B3 in H3'.
      rewrite H3', H2', H1. reflexivity.
Qed.

End Trailers.

Section Rewritten.

Context {S : Type}.
Variable env : Env S.
Variable self : MergeJob.

Lemma lift_inv {A} (m : M (World S) A) (l l' : Locals) (w w' : World S) (r : Res A) :
  lift m (l, w) = (r, (l', w')) -> m w = (r, w') /\ l' = l.
Proof.
  unfold lift. simpl. destruct (m w) as [r0 w0]. intros H.
  inversion H; subst. auto.
Qed.

(** What the [try] block has done when it runs to its end. *)
Lemma update_try_ret merge_request url (w w' : World S) (l : Locals) :
  update_try env self merge_request url (no_locals, w) = (Ret tt, (l, w')) ->
  exists updated target trailers_sha wf wh wt,
    fuse env self (source_branch merge_request) (target_branch merge_request)
         url false w = (Ret updated, wf) /\
    get_commit_hash env ("origin/" ++ target_branch merge_request) wf
    = (Ret target, wh) /\
    add_trailers env self merge_request wh = (Ret trailers_sha, wt) /\
    push env (source_branch merge_request) url true wt = (Ret tt, w') /\
    updated_sha l = Some updated /\
    target_sha l = Some target /\
    rewritten_sha l = Some (py_or trailers_sha updated).
Proof.
  unfold update_try. cbv zeta. intros H.
  apply bind_inv in H. destruct H as (updated & [l1 wf] & Hfuse & H).
  apply lift_inv in Hfuse. destruct Hfuse as [Hfuse ->].
  rewrite !bind_assign in H.
  apply bind_inv in H. destruct H as (target & [l2 wh] & Hhash & H).
  apply lift_inv in Hhash. destruct Hhash as [Hhash ->].
  rewrite bind_assign in H.
  destruct (String.eqb updated target); [discriminate|].
  apply bind_inv in H. destruct H as (trailers_sha & [l3 wt] & Htrailers & H).
  apply lift_inv in Htrailers. destruct Htrailers as [Htrailers ->].
  rewrite !bind_assign in H.
  apply bind_inv in H. destruct H as ([] & [l4 wp] & Hpush & H).
  apply lift_inv in Hpush. destruct Hpush as [Hpush ->].
  inversion H; subst; clear H.
  exists updated, target, trailers_sha, wf, wh, wt.
  repeat split; assumption || reflexivity.
Qed.

(** The [except] clause never returns: each of its paths raises. *)
Lemma update_except_raises merge_request l exc (w : World S) :
  exists e, fst (update_except env self merge_request l exc w) = Raise e.
Proof.
  unfold update_except, read_local, fetch_by_name, call, bind, raise, ret.
  destruct (branch_updated l); simpl; [|eauto].
  destruct (branch_rewritten l); simpl.
  - destruct (changes_pushed l); simpl; [eauto|].
    destruct (Branch_fetch_by_name env _ _ (ext w)) as [[b|e] s']; simpl; [|eauto].
    destruct (protected b); simpl; eauto.
  - destruct (rewritten_sha l); simpl; [|eauto].
    destruct (updated_sha l); simpl; eauto.
Qed.

Lemma update_else_ret l (w w' : World S) (t u rw : string) :
  update_else l w = (Ret (t, u, rw), w') ->
  target_sha l = Some t /\ updated_sha l = Some u /\ rewritten_sha l = Some rw /\ w' = w.
Proof.
  unfold update_else, read_local, bind, ret, raise.
  destruct (target_sha l), (updated_sha l), (rewritten_sha l); simpl;
    intros H; inversion H; subst; auto.
Qed.

(** C4: every run of [update_from_target_branch_and_push] that returns has
    tagged with the applicable trailers, in the order Reviewed-by, Tested-by,
    Part-of.  When no trailer applies no tagging is made and its rewritten
    SHA is the updated SHA; otherwise the rewritten SHA is the SHA the last
    tagging returned (a SHA is not the empty string).  With no applicable
    trailer [add_trailers] makes no call at all and returns [None]. *)
Theorem update_rewritten_sha
        (merge_request : MergeRequest) (url : option string) (w w' : World S)
        (target updated rewritten : string) :
  update_from_target_branch_and_push env self merge_request url w
  = (Ret (target, updated, rewritten), w') ->
  (exists d,
     trace w' = (trace w ++ d)%list /\
     tag_names d = Spec.applicable_trailers self /\
     match last_tag_sha d with
     | None => Spec.applicable_trailers self = [] /\ rewritten = updated
     | Some s => Spec.applicable_trailers self <> [] /\
                 (s <> EmptyString -> rewritten = s)
     end) /\
  (Spec.applicable_trailers self = [] ->
   rewritten = updated /\
   forall w0, add_trailers env self merge_request w0 = (Ret None, w0)).
Proof.
  intros Hrun.
  assert (Hmain : exists d,
     trace w' = (trace w ++ d)%list /\
     tag_names d = Spec.applicable_trailers self /\
     match last_tag_sha d with
     | None => Spec.applicable_trailers self = [] /\ rewritten = updated
     | Some s => Spec.applicable_trailers self <> [] /\
                 (s <> EmptyString -> rewritten = s)
     end).
  { unfold update_from_target_branch_and_push in Hrun.
    destruct (option_string_eqb url (repo_remote_url self)); [discriminate|].
    destruct (_ && _); [discriminate|].
    unfold try_finally in Hrun.
    destruct (update_try_except_else env self merge_request url w)
      as [rb wb] eqn:Hbody.
    destruct (update_finally_adds env merge_request wb) as (dc & Ec & Fc).
    destruct (update_finally env merge_request wb) as [[[]|e] wc];
      [|discriminate].
    inversion Hrun; subst; clear Hrun. simpl in Ec.
    unfold update_try_except_else in Hbody.
    destruct (update_try env self merge_request url (no_locals, w))
      as [[[]|exc] [l w1]] eqn:Htry.
    - apply update_else_ret in Hbody. destruct Hbody as (Ht & Hu & Hr & ->).
      apply update_try_ret in Htry.
      destruct Htry as (u0 & t0 & tr & wf & wh & wt & Hfuse & Hhash & Htrail
                        & Hpush & Hu' & Ht' & Hr').
      rewrite Hu in Hu'. rewrite Hr in Hr'.
      inversion Hu'; inversion Hr'; subst; clear Hu' Hr'.
      destruct (fuse_adds env self (source_branch merge_request)
                  (target_branch merge_request) url false w) as (df & Ef & Ff).
      rewrite Hfuse in Ef. simpl in Ef.
      apply call_trace in Hhash. apply call_trace in Hpush.
      apply add_trailers_ret in Htrail.
      destruct Htrail as (dt & Et & Nt & Lt & Bt).
      assert (Nf : tag_names df = [] /\ last_tag_sha df = None).
      { apply no_tag_names. revert Ff. apply forallb_impl.
        intros [] H; (reflexivity || discriminate). }
      assert (Nc : tag_names dc = [] /\ last_tag_sha dc = None).
      { apply no_tag_names. revert Fc. apply forallb_impl.
        intros [] H; (reflexivity || discriminate). }
      destruct Nf as [Nf Lf]. destruct Nc as [Nc Lc].
      exists (df ++ [EvGetCommitHash ("origin/" ++ target_branch merge_request)
                       (Ret t0)]
              ++ dt ++ [EvPush (source_branch merge_request) url true (Ret tt)]
              ++ dc)%list.
      split; [|split].
      + rewrite Ec, Hpush, Et, Hhash, Ef, <- !app_assoc. reflexivity.
      + rewrite !tag_names_app, Nf, Nt, Nc. simpl. apply app_nil_r.
      + rewrite !last_tag_sha_app, Lc, Lf. simpl. rewrite Lt.
        destruct tr as [s|].
        * split; [intros Hnone; apply Bt in Hnone; discriminate|].
          intros Hs. destruct s; [contradiction|reflexivity].
        * split; [apply Bt|]; reflexivity.
    - destruct (isinstance exc GitError); [|discriminate].
      destruct (update_except_raises merge_request l exc w1) as (e & He).
      rewrite Hbody in He. discriminate. }
  split; [exact Hmain|].
  intros Hnone. split.
  - destruct Hmain as (d & _ & _ & Hlast).
    destruct (last_tag_sha d); destruct Hlast as [H1 H2]; [contradiction|exact H2].
  - clear Hrun Hmain. unfold Spec.applicable_trailers in Hnone.
    unfold add_trailers. intros w0.
    destruct (add_reviewers (_options self)); [discriminate|].
    destruct (add_part_of (_options self));
      [destruct (_ && _ && _); discriminate|].
    destruct (add_tested (_options self)
              && only_allow_merge_if_pipeline_succeeds (_project self)); simpl in *.
    + destruct (MergeStrategy.eqb _ _); [discriminate|reflexivity].
    + reflexivity.
Qed.

End Rewritten.

Lemma update_rewritten_sha_witness :
  exists d,
    trace (snd (update_from_target_branch_and_push (Fake.env Fake.happy)
                  (Fake.job Fake.with_all_trailers) Fake.mr42 None Fake.world0))
    = (trace Fake.world0 ++ d)%list /\
    tag_names d = Spec.applicable_trailers (Fake.job Fake.with_all_trailers) /\
    match last_tag_sha d with
    | None => Spec.applicable_trailers (Fake.job Fake.with_all_trailers) = [] /\
              "sha-Part-of" = "u1"
    | Some s => Spec.applicable_trailers (Fake.job Fake.with_all_trailers) <> [] /\
                (s <> EmptyString -> "sha-Part-of" = s)
    end.
Proof.
  apply (update_rewritten_sha (Fake.env Fake.happy)
           (Fake.job Fake.with_all_trailers) Fake.mr42 None Fake.world0
           (snd (update_from_target_branch_and_push (Fake.env Fake.happy)
                   (Fake.job Fake.with_all_trailers) Fake.mr42 None Fake.world0))
           "t0" "u1" "sha-Part-of").
  vm_compute. reflexivity.
Defined.

(** ** Waiting for the CI *)

Section AwaitCI.

Context {S : Type}.
Variable env : Env S.
Variable self : MergeJob.
Variable merge_request : MergeRequest.
Variable commit_sha : string.
Variable time_0 : Z.


Lemma starts_app (a b : list Event) : starts (a ++ b) = (starts a + starts b)%nat.
Proof.
  induction a as [|ev a IH]; simpl; [reflexivity|].
  destruct ev; simpl; rewrite IH; reflexivity.
Qed.

Lemma absent_polls_app sha (a b : list Event) :
  absent_polls sha (a ++ b) = (absent_polls sha a + absent_polls sha b)%nat.
Proof.
  induction a as [|ev a IH]; simpl; [reflexivity|].
  destruct ev; simpl; try exact IH.
  destruct r; [|exact IH].
  destruct (listed_status sha a0); simpl; rewrite IH; reflexivity.
Qed.

Lemma nothing_resolved_app sha (a b : list Event) :
  nothing_resolved sha (a ++ b) = nothing_resolved sha a && nothing_resolved sha b.
Proof.
  induction a as [|ev a IH]; simpl; [reflexivity|].
  destruct ev; simpl; try exact IH.
  - destruct r; [|reflexivity]. rewrite IH, andb_assoc. reflexivity.
  - destruct r; [exact IH|reflexivity].
Qed.

(** What one turn of the loop does.  A turn that goes round again has made
    one full round: a poll that resolved nothing, a pipeline start exactly
    when the pipeline is absent and the bot must run the CI itself, and a
    sleep of ten seconds.  Any other turn ends the wait. *)
Lemma turn_spec (w w' : World S) (r : Res (option unit)) :
  wait_for_ci_to_pass_turn env self merge_request commit_sha time_0 w = (r, w') ->
  exists d,
    trace w' = (trace w ++ d)%list /\
    starts d = (if (require_ci_run_by_me (_options self)) then absent_polls commit_sha d else O) /\
    match r with
    | Ret None =>
        (forall rest, paced waiting_time_in_secs (d ++ rest)
                      = paced waiting_time_in_secs rest) /\
        nothing_resolved commit_sha d = true
    | _ =>
        paced waiting_time_in_secs d = true /\
        (nothing_resolved commit_sha d = true ->
         r = Raise (too_long (_options self)) /\
         ci_timeout (_options self) <= datetime_utcnow env (ext w') - time_0)
    end.
Proof.
  unfold wait_for_ci_to_pass_turn, get_mr_ci_status.
  unfold pipelines_by_branch, start, sleep, utcnow, call, bind, ret, raise.
  cbn [ext trace].
  destruct (Z.ltb_spec (datetime_utcnow env (time_passes env (ext w)) - time_0)
              (ci_timeout (_options self))) as [Hlt|Hge].
  2:{ intros H. exists []. rewrite app_nil_r.
      unfold too_long.
      destruct (ci_timeout_skip (_options self)); inversion H; subst; cbn [ext trace];
        destruct (require_ci_run_by_me (_options self)); auto. }
  cbn [ext trace].
  destruct (Pipeline_pipelines_by_branch env _ _ _ (time_passes env (ext w)))
    as [[ps|e] s1].
  2:{ intros H. inversion H; subst. simpl.
      eexists. split; [reflexivity|]. simpl.
      destruct (require_ci_run_by_me (_options self)); repeat split; auto; discriminate. }
  assert (Hstatus : listed_status commit_sha ps
                    = option_map status
                        (find (fun pipeline =>
                                 String.eqb (pipeline_sha pipeline) commit_sha) ps))
    by reflexivity.
  destruct (find _ ps) as [p|]; simpl in Hstatus; cbn [option_string_eqb].
  - destruct (String.eqb (status p) "success") eqn:E1;
      [|destruct (String.eqb (status p) "skipped") eqn:E2;
        [|destruct (String.eqb (status p) "failed") eqn:E3;
          [|destruct (String.eqb (status p) "canceled") eqn:E4]]];
      intros H; inversion H; subst; clear H; simpl;
      eexists; (split; [try rewrite <- app_assoc; reflexivity|]);
      simpl; rewrite Hstatus; unfold resolved; simpl;
      rewrite ?E1, ?E2, ?E3, ?E4; simpl;
      destruct (require_ci_run_by_me (_options self)); repeat split; auto; try discriminate.
  - destruct (require_ci_run_by_me (_options self)) eqn:Hme.
    + cbn [ext trace].
      destruct (Pipeline_start env (source_project_id merge_request)
                  (source_branch merge_request) s1) as [[p|e] s2];
        intros H; inversion H; subst; clear H; simpl;
        eexists; (split; [try rewrite <- !app_assoc; reflexivity|]);
        simpl; rewrite Hstatus; repeat split; auto; discriminate.
    + intros H; inversion H; subst; clear H; simpl;
        eexists; (split; [try rewrite <- !app_assoc; reflexivity|]);
        simpl; rewrite Hstatus; repeat split; auto; discriminate.
Qed.


(** A turn that goes round again was within the deadline and has slept. *)
Lemma turn_clock (w w' : World S) :
  clock_moves_forward env ->
  wait_for_ci_to_pass_turn env self merge_request commit_sha time_0 w = (Ret None, w') ->
  datetime_utcnow env (ext w) + waiting_time_in_secs * 1000000
  <= datetime_utcnow env (ext w').
Proof.
  intros (Hsleep & Hpoll & Hstart & Hread).
  unfold wait_for_ci_to_pass_turn, get_mr_ci_status.
  unfold pipelines_by_branch, start, sleep, utcnow, call, bind, ret, raise.
  cbn [ext trace].
  destruct (_ <? _);
    [|destruct (ci_timeout_skip (_options self)); discriminate].
  cbn [ext trace].
  pose proof (Hread (ext w)) as Hr.
  pose proof (Hpoll (source_project_id merge_request) (source_branch merge_request)
                (if require_ci_run_by_me (_options self)
                 then Some (username (_user self)) else None)
                (time_passes env (ext w))) as Hp.
  destruct (Pipeline_pipelines_by_branch env _ _ _ (time_passes env (ext w)))
    as [[ps|e] s1];
    [|discriminate].
  simpl in Hp.
  destruct (find _ ps) as [p|]; cbn [option_string_eqb].
  - destruct (String.eqb (status p) "success"); [discriminate|].
    destruct (String.eqb (status p) "skipped"); [discriminate|].
    destruct (String.eqb (status p) "failed"); [discriminate|].
    destruct (String.eqb (status p) "canceled"); [discriminate|].
    intros H. inversion H; subst; clear H. simpl.
    pose proof (Hsleep waiting_time_in_secs s1). unfold waiting_time_in_secs in *. lia.
  - destruct (require_ci_run_by_me (_options self)).
    + cbn [ext trace].
      pose proof (Hstart (source_project_id merge_request)
                    (source_branch merge_request) s1) as Hs.
      destruct (Pipeline_start env (source_project_id merge_request)
                  (source_branch merge_request) s1) as [[p|e] s2];
        [|discriminate].
      simpl in Hs. intros H. inversion H; subst; clear H. simpl.
      pose proof (Hsleep waiting_time_in_secs s2). unfold waiting_time_in_secs in *. lia.
    + intros H. inversion H; subst; clear H. simpl.
      pose proof (Hsleep waiting_time_in_secs s1). unfold waiting_time_in_secs in *. lia.
Qed.

(** Past the deadline a turn leaves the loop. *)
Lemma turn_past_deadline (w : World S) :
  ci_timeout (_options self)
  <= datetime_utcnow env (time_passes env (ext w)) - time_0 ->
  wait_for_ci_to_pass_turn env self merge_request commit_sha time_0 w
  = (Raise (too_long (_options self)), mkWorld (time_passes env (ext w)) (trace w)).
Proof.
  intros H. unfold wait_for_ci_to_pass_turn, utcnow, bind, too_long, raise.
  cbn [ext trace].
  apply Z.ltb_ge in H. rewrite H.
  destruct (ci_timeout_skip (_options self)); reflexivity.
Qed.

(** The loop ends within one turn per ten seconds left, and one more. *)
Lemma loop_terminates (fuel : nat) (w : World S) :
  clock_moves_forward env ->
  ci_timeout (_options self) - (datetime_utcnow env (ext w) - time_0)
  <= Z.of_nat fuel * (waiting_time_in_secs * 1000000) ->
  exists res,
    loop (Datatypes.S fuel)
         (wait_for_ci_to_pass_turn env self merge_request commit_sha time_0) w
    = Some res.
Proof.
  intros Hclock. revert w.
  induction fuel as [|fuel IH]; intros w Hleft.
  - simpl. rewrite turn_past_deadline; [eauto|].
    pose proof (proj2 (proj2 (proj2 Hclock)) (ext w)). simpl in Hleft. lia.
  - cbn [loop].
    destruct (wait_for_ci_to_pass_turn env self merge_request commit_sha time_0 w)
      as [[[[]|]|e] w1] eqn:Hturn; eauto.
    apply turn_clock in Hturn; [|exact Hclock].
    apply IH. unfold waiting_time_in_secs in *. lia.
Qed.

Lemma loop_more_fuel {A} (body : M (World S) (option A)) (fuel fuel' : nat)
      (w : World S) (res : Res A * World S) :
  (fuel <= fuel')%nat -> loop fuel body w = Some res -> loop fuel' body w = Some res.
Proof.
  revert fuel' w. induction fuel as [|fuel IH]; intros fuel' w Hle; [discriminate|].
  destruct fuel' as [|fuel']; [lia|]. simpl.
  destruct (body w) as [[[a|]|e] w1]; auto.
  apply IH. lia.
Qed.

(** Every run of the loop that ends is a sequence of full rounds and a last
    turn. *)
Lemma loop_spec (fuel : nat) (w w' : World S) (r : Res unit) :
  loop fuel (wait_for_ci_to_pass_turn env self merge_request commit_sha time_0) w
  = Some (r, w') ->
  exists d,
    trace w' = (trace w ++ d)%list /\
    starts d = (if require_ci_run_by_me (_options self)
                then absent_polls commit_sha d else O) /\
    paced waiting_time_in_secs d = true /\
    (nothing_resolved commit_sha d = true ->
     r = Raise (too_long (_options self)) /\
     ci_timeout (_options self) <= datetime_utcnow env (ext w') - time_0).
Proof.
  revert w. induction fuel as [|fuel IH]; intros w; [discriminate|].
  cbn [loop].
  destruct (wait_for_ci_to_pass_turn env self merge_request commit_sha time_0 w)
    as [rt w1] eqn:Hturn.
  apply turn_spec in Hturn. destruct Hturn as (d1 & E1 & S1 & Hrest).
  destruct rt as [[[]|]|e].
  - intros H. inversion H; subst; clear H. destruct Hrest as [P1 R1].
    exists d1. split; [exact E1|]. split; [exact S1|]. split; [exact P1|].
    intros HR. destruct (R1 HR) as [HR' _]. discriminate.
  - intros H. apply IH in H. destruct H as (d2 & E2 & S2 & P2 & R2).
    destruct Hrest as [P1 R1].
    exists (d1 ++ d2)%list. split; [|split; [|split]].
    + rewrite E2, E1, app_assoc. reflexivity.
    + rewrite starts_app, S1, S2.
      destruct (require_ci_run_by_me (_options self));
        [rewrite absent_polls_app|]; reflexivity.
    + rewrite P1. exact P2.
    + rewrite nothing_resolved_app, R1. exact R2.
  - intros H. inversion H; subst; clear H. destruct Hrest as [P1 R1].
    exists d1. split; [exact E1|]. split; [exact S1|]. split; [exact P1|].
    intros HR. destruct (R1 HR) as [HR' Hpast].
    inversion HR'; subst. auto.
Qed.

(** A turn whose test of the clock finds time left makes a poll. *)
Lemma turn_in_time_polls (w w1 : World S) (rt : Res (option unit)) :
  datetime_utcnow env (time_passes env (ext w)) - time_0 < ci_timeout (_options self) ->
  wait_for_ci_to_pass_turn env self merge_request commit_sha time_0 w = (rt, w1) ->
  exists pid b u listing rest,
    trace w1 = (trace w ++ EvPipelinesByBranch pid b u listing :: rest)%list.
Proof.
  intros Hleft.
  unfold wait_for_ci_to_pass_turn, get_mr_ci_status.
  unfold pipelines_by_branch, start, sleep, utcnow, call, bind, ret, raise.
  cbn [ext trace].
  destruct (Z.ltb_spec (datetime_utcnow env (time_passes env (ext w)) - time_0)
              (ci_timeout (_options self))) as [_|Hge]; [|lia].
  cbn [ext trace].
  destruct (Pipeline_pipelines_by_branch env _ _ _ (time_passes env (ext w)))
    as [[ps|e] s1].
  2:{ intros H. inversion H; subst. simpl. do 5 eexists. reflexivity. }
  destruct (find _ ps) as [p|]; cbn [option_string_eqb].
  - destruct (String.eqb (status p) "success");
      [|destruct (String.eqb (status p) "skipped");
        [|destruct (String.eqb (status p) "failed");
          [|destruct (String.eqb (status p) "canceled")]]];
      intros H; inversion H; subst; simpl; rewrite <- ?app_assoc;
      do 5 eexists; reflexivity.
  - destruct (require_ci_run_by_me (_options self)).
    + cbn [ext trace].
      destruct (Pipeline_start env (source_project_id merge_request)
                  (source_branch merge_request) s1) as [[p|e] s2];
        intros H; inversion H; subst; simpl; rewrite <- ?app_assoc;
        do 5 eexists; reflexivity.
    + intros H; inversion H; subst; simpl; rewrite <- ?app_assoc;
        do 5 eexists; reflexivity.
Qed.

(** So does a run of the loop whose first test finds time left. *)
Lemma loop_in_time_polls (fuel : nat) (w w' : World S) (r : Res unit) :
  datetime_utcnow env (time_passes env (ext w)) - time_0 < ci_timeout (_options self) ->
  loop fuel (wait_for_ci_to_pass_turn env self merge_request commit_sha time_0) w
  = Some (r, w') ->
  exists pid b u listing rest,
    trace w' = (trace w ++ EvPipelinesByBranch pid b u listing :: rest)%list.
Proof.
  intros Hleft. destruct fuel as [|fuel]; [discriminate|].
  cbn [loop].
  destruct (wait_for_ci_to_pass_turn env self merge_request commit_sha time_0 w)
    as [rt w1] eqn:Hturn.
  apply turn_in_time_polls in Hturn; [|exact Hleft].
  destruct Hturn as (pid & b & u & listing & rest & E).
  destruct rt as [[[]|]|e].
  - intros H. inversion H; subst. eauto 10.
  - intros H. apply loop_spec in H. destruct H as (d & E2 & _).
    exists pid, b, u, listing, (rest ++ d)%list.
    rewrite E2, E, <- app_assoc. reflexivity.
  - intros H. inversion H; subst. eauto 10.
Qed.

End AwaitCI.

Section AwaitCIClaims.

Context {S : Type}.
Variable env : Env S.
Variable self : MergeJob.

Lemma enough_turns_enough (now_ time_0 : Z) :
  time_0 <= now_ ->
  ci_timeout (_options self) - (now_ - time_0)
  <= Z.of_nat (Nat.pred (enough_turns (_options self)))
     * (waiting_time_in_secs * 1000000).
Proof.
  intros Hle. unfold enough_turns, waiting_time_in_secs. cbn [Nat.pred].
  set (t := ci_timeout (_options self)).
  rewrite Nat2Z.inj_succ.
  destruct (Z.le_gt_cases 0 t) as [Hpos|Hneg].
  - rewrite Z2Nat.id by (apply Z.div_pos; lia).
    pose proof (Z.mod_pos_bound t (10 * 1000000) ltac:(lia)).
    pose proof (Z.div_mod t (10 * 1000000) ltac:(lia)). lia.
  - assert (0 <= Z.of_nat (Z.to_nat (t / (10 * 1000000)))) by lia. lia.
Qed.

(** With a clock that moves forward the wait ends within [enough_turns]
    turns, and what [loop_spec] says of the loop holds of the whole run. *)
Lemma wait_for_ci_to_pass_run
      (fuel : nat) (merge_request : MergeRequest) (commit_sha : option string)
      (w : World S) :
  clock_moves_forward env ->
  (enough_turns (_options self) <= fuel)%nat ->
  exists r w' d,
    wait_for_ci_to_pass env self fuel merge_request commit_sha w = Some (r, w') /\
    trace w' = (trace w ++ d)%list /\
    starts d = (if require_ci_run_by_me (_options self)
                then absent_polls (awaited merge_request commit_sha) d
                else O) /\
    paced waiting_time_in_secs d = true /\
    (nothing_resolved (awaited merge_request commit_sha) d = true ->
     r = Raise (too_long (_options self)) /\
     ci_timeout (_options self)
     <= datetime_utcnow env (ext w')
        - datetime_utcnow env (time_passes env (ext w))).
Proof.
  intros Hclock Hfuel. unfold wait_for_ci_to_pass, utcnow.
  fold (awaited merge_request commit_sha).
  set (w0 := mkWorld (time_passes env (ext w)) (trace w)).
  destruct (loop_terminates env self merge_request (awaited merge_request commit_sha)
              (datetime_utcnow env (time_passes env (ext w)))
              (Nat.pred (enough_turns (_options self))) w0 Hclock)
    as ([r w'] & Hrun).
  { apply enough_turns_enough. simpl. lia. }
  change (Datatypes.S (Nat.pred (enough_turns (_options self))))
    with (enough_turns (_options self)) in Hrun.
  apply loop_more_fuel with (fuel' := fuel) in Hrun; [|exact Hfuel].
  destruct (loop_spec env self merge_request _ _ _ _ _ _ Hrun) as (d & H).
  exists r, w', d. auto.
Qed.

(** C7: with a clock that moves forward, [wait_for_ci_to_pass] ends within
    [enough_turns] turns of its loop.  The calls it made are polling rounds,
    each poll followed by a sleep of ten seconds before the next.  When no
    call raised and no polled status was one of success, skipped, failed or
    canceled, the wait ends by raising [SkipMerge('CI is taking too long.')]
    if [ci_timeout_skip] is set and [CannotMerge('CI is taking too long.')]
    otherwise, and by then [ci_timeout] has elapsed on the clock since the
    wait first read it.  And the wait does poll, unless [ci_timeout] has
    elapsed already when the loop tests the clock for the first time. *)
Theorem wait_for_ci_to_pass_times_out
        (fuel : nat) (merge_request : MergeRequest) (commit_sha : option string)
        (w : World S) :
  clock_moves_forward env ->
  (enough_turns (_options self) <= fuel)%nat ->
  exists r w' d,
    wait_for_ci_to_pass env self fuel merge_request commit_sha w = Some (r, w') /\
    trace w' = (trace w ++ d)%list /\
    paced 10 d = true /\
    (nothing_resolved (awaited merge_request commit_sha) d = true ->
     r = Raise (new (if ci_timeout_skip (_options self)
                     then SkipMerge else CannotMerge)
                    "CI is taking too long.") /\
     ci_timeout (_options self)
     <= datetime_utcnow env (ext w')
        - datetime_utcnow env (time_passes env (ext w))) /\
    (datetime_utcnow env (time_passes env (time_passes env (ext w)))
     - datetime_utcnow env (time_passes env (ext w))
     < ci_timeout (_options self) ->
     (0 < polls d)%nat).
Proof.
  intros Hclock Hfuel.
  destruct (wait_for_ci_to_pass_run fuel merge_request commit_sha w Hclock Hfuel)
    as (r & w' & d & Hrun & E & _ & P & R).
  exists r, w', d.
  split; [exact Hrun|]. split; [exact E|]. split; [exact P|]. split; [exact R|].
  intros Hleft.
  unfold wait_for_ci_to_pass, utcnow in Hrun.
  apply loop_in_time_polls in Hrun; [|exact Hleft].
  destruct Hrun as (pid & b & u & listing & rest & E').
  cbn [trace] in E'. rewrite E in E'. apply app_inv_head in E'. subst d.
  simpl. lia.
Qed.

(** C3, as the code has it: with [require_ci_run_by_me] set, one call of
    [wait_for_ci_to_pass] invokes [Pipeline.start] once for every poll that
    finds no pipeline for the awaited commit, so as many times as the
    pipeline is found absent; without it, never. *)
Theorem wait_for_ci_to_pass_starts_per_absent_poll
        (fuel : nat) (merge_request : MergeRequest) (commit_sha : option string)
        (w : World S) :
  clock_moves_forward env ->
  (enough_turns (_options self) <= fuel)%nat ->
  exists r w' d,
    wait_for_ci_to_pass env self fuel merge_request commit_sha w = Some (r, w') /\
    trace w' = (trace w ++ d)%list /\
    starts d = (if require_ci_run_by_me (_options self)
                then absent_polls (awaited merge_request commit_sha) d
                else O).
Proof.
  intros Hclock Hfuel.
  destruct (wait_for_ci_to_pass_run fuel merge_request commit_sha w Hclock Hfuel)
    as (r & w' & d & Hrun & E & St & _).
  exists r, w', d. auto.
Qed.

End AwaitCIClaims.

Lemma wait_for_ci_to_pass_times_out_witness :
  clock_moves_forward (Fake.env Fake.ci_running) /\
  (enough_turns (_options (Fake.job Fake.ci_skip)) <= 5)%nat /\
  exists w' d,
    wait_for_ci_to_pass (Fake.env Fake.ci_running) (Fake.job Fake.ci_skip) 5
      Fake.mr42 (Some "r9") Fake.world0
    = Some (Raise (new SkipMerge "CI is taking too long."), w') /\
    trace w' = (trace Fake.world0 ++ d)%list /\
    paced 10 d = true /\
    nothing_resolved "r9" d = true /\
    ci_timeout Fake.ci_skip
    <= Fake.clock (ext w') - Fake.clock (ext Fake.world0) /\
    (0 < polls d)%nat.
Proof.
  assert (Hclock : clock_moves_forward (Fake.env Fake.ci_running))
    by (repeat split; intros; simpl; lia).
  assert (Hfuel : (enough_turns (_options (Fake.job Fake.ci_skip)) <= 5)%nat)
    by (vm_compute; lia).
  split; [exact Hclock|]. split; [exact Hfuel|].
  destruct (wait_for_ci_to_pass_times_out (Fake.env Fake.ci_running)
              (Fake.job Fake.ci_skip) 5 Fake.mr42 (Some "r9") Fake.world0
              Hclock Hfuel)
    as (r & w' & d & Hrun & E & P & R & Hpolls).
  assert (HN : nothing_resolved "r9" d = true).
  { vm_compute in Hrun. inversion Hrun; subst. simpl in E. subst d. reflexivity. }
  destruct (R HN) as [Hr Hpast].
  rewrite Hr in Hrun.
  exists w', d.
  split; [exact Hrun|]. split; [exact E|]. split; [exact P|]. split; [exact HN|].
  split; [exact Hpast|].
  apply Hpolls. vm_compute. reflexivity.
Defined.

Lemma wait_for_ci_to_pass_starts_per_absent_poll_witness :
  clock_moves_forward (Fake.env Fake.happy) /\
  (enough_turns (_options (Fake.job Fake.ci_by_me)) <= 5)%nat /\
  exists r w' d,
    wait_for_ci_to_pass (Fake.env Fake.happy) (Fake.job Fake.ci_by_me) 5
      Fake.mr42 (Some "r9") Fake.world0 = Some (r, w') /\
    trace w' = (trace Fake.world0 ++ d)%list /\
    starts d = absent_polls "r9" d.
Proof.
  assert (Hclock : clock_moves_forward (Fake.env Fake.happy))
    by (repeat split; intros; simpl; lia).
  assert (Hfuel : (enough_turns (_options (Fake.job Fake.ci_by_me)) <= 5)%nat)
    by (vm_compute; lia).
  split; [exact Hclock|]. split; [exact Hfuel|].
  exact (wait_for_ci_to_pass_starts_per_absent_poll (Fake.env Fake.happy)
           (Fake.job Fake.ci_by_me) 5 Fake.mr42 (Some "r9") Fake.world0
           Hclock Hfuel).
Defined.

(** C3, as the specification states it, fails: the branch at the forge has moved on from
    the awaited commit [r9], each pipeline the bot starts runs on the new
    head, the pipeline for [r9] stays absent over three polls, and
    [Pipeline.start] is invoked three times in the one call. *)
Lemma wait_for_ci_to_pass_starts_thrice :
  require_ci_run_by_me (_options (Fake.job Fake.ci_by_me)) = true /\
  option_map (fun run => (fst run, starts (trace (snd run)),
                          absent_polls "r9" (trace (snd run))))
    (wait_for_ci_to_pass (Fake.env Fake.happy) (Fake.job Fake.ci_by_me) 5
       Fake.mr42 (Some "r9") Fake.world0)
  = Some (Raise (new CannotMerge "CI is taking too long."), 3%nat, 3%nat) /\
  ~ (3 <= 1)%nat.
Proof. split; [reflexivity|]. split; [vm_compute; reflexivity | lia]. Qed.

(** * Further properties of the merge job *)

(** ** Validate: what a pass guarantees, and which calls are made *)

Section ValidateMore.

Context {S : Type}.
Variable env : Env S.
Variable self : MergeJob.

Lemma call_inv {A} (op : S -> Res A * S) (ev : Res A -> Event)
      (w w' : World S) (r : Res A) :
  call op ev w = (r, w') ->
  op (ext w) = (r, ext w') /\ trace w' = (trace w ++ [ev r])%list.
Proof.
  unfold call. destruct (op (ext w)) as [r0 s']. intros H.
  inversion H; subst. auto.
Qed.

(** X1: when [ensure_mergeable_mr] returns, it returns the refetched
    snapshot, and on that snapshot the request is not work in progress, is
    not a squash request under commit tagging, has sufficient approvals, is
    opened, reopened or locked, is assigned to the bot, and the embargo does
    not cover the instant read after the approvals; the only calls made are
    the refetch and the fetch of the approvals. *)
Theorem ensure_mergeable_mr_pass
        (merge_request mr : MergeRequest) (w w' : World S) :
  ensure_mergeable_mr env self merge_request w = (Ret mr, w') ->
  exists approvals s1 s2,
    MergeRequest_refetch_info env merge_request (ext w) = (Ret mr, s1) /\
    MergeRequest_fetch_approvals env mr s1 = (Ret approvals, s2) /\
    ext w' = time_passes env s2 /\
    trace w' = (trace w ++ [EvRefetchInfo (Ret mr);
                            EvFetchApprovals (Ret approvals)])%list /\
    work_in_progress mr = false /\
    squash mr && requests_commit_tagging (_options self) = false /\
    sufficient approvals = true /\
    mem_string (state mr) ["opened"; "reopened"; "locked"] = true /\
    embargo (_options self) (datetime_utcnow env (ext w')) = false /\
    mem_Z (user_id (_user self)) (assignee_ids mr) = true.
Proof.
  unfold ensure_mergeable_mr. intros H.
  apply bind_inv in H. destruct H as (mr1 & w1 & Hfetch & H).
  apply call_inv in Hfetch. destruct Hfetch as [Hfetch T1].
  destruct (work_in_progress mr1) eqn:Hwip; [discriminate|].
  destruct (squash mr1 && requests_commit_tagging (_options self)) eqn:Hsq;
    [discriminate|].
  apply bind_inv in H. destruct H as (approvals & w2 & Happ & H).
  apply call_inv in Happ. destruct Happ as [Happ T2].
  destruct (sufficient approvals) eqn:Hsuff; [|discriminate]. cbn [negb] in H.
  cbv zeta in H.
  destruct (mem_string (state mr1) ["opened"; "reopened"; "locked"]) eqn:Hstate.
  2:{ cbn [negb] in H.
      destruct (mem_string (state mr1) ["merged"; "closed"]); discriminate. }
  cbn [negb] in H.
  unfold during_merge_embargo, utcnow, opts in H.
  unfold bind at 1 2 in H. unfold ret at 1 in H. cbn [ext trace] in H.
  destruct (embargo (_options self) (datetime_utcnow env (time_passes env (ext w2))))
    eqn:Hemb;
    [discriminate|].
  destruct (mem_Z (user_id (_user self)) (assignee_ids mr1)) eqn:Hassigned;
    [|discriminate].
  inversion H; subst; clear H.
  exists approvals, (ext w1), (ext w2). cbn [ext trace].
  rewrite T2, T1, app_one_two.
  repeat split; assumption.
Qed.

(** X2: [ensure_mergeable_mr] only reads: it refetches the request, then
    fetches the approvals, and makes no other call.  The approvals are
    fetched exactly when the refetch returned a request that is neither work
    in progress nor a squash request under commit tagging; and when one of
    the two calls raises, that exception is the outcome. *)
Theorem ensure_mergeable_mr_calls
        (merge_request : MergeRequest) (w w' : World S) (r : Res MergeRequest) :
  ensure_mergeable_mr env self merge_request w = (r, w') ->
  (exists e, trace w' = (trace w ++ [EvRefetchInfo (Raise e)])%list /\
             r = Raise e) \/
  (exists mr, trace w' = (trace w ++ [EvRefetchInfo (Ret mr)])%list /\
              work_in_progress mr
              || squash mr && requests_commit_tagging (_options self) = true /\
              exists why, r = Raise (new CannotMerge why)) \/
  (exists mr approvals,
      trace w' = (trace w ++ [EvRefetchInfo (Ret mr);
                              EvFetchApprovals approvals])%list /\
      work_in_progress mr
      || squash mr && requests_commit_tagging (_options self) = false /\
      forall e, approvals = Raise e -> r = Raise e).
Proof.
  unfold ensure_mergeable_mr, refetch_info, fetch_approvals, call.
  unfold bind at 1.
  destruct (MergeRequest_refetch_info env merge_request (ext w)) as [[mr|e] s1].
  2:{ intros H. inversion H; subst. left. exists e. auto. }
  destruct (work_in_progress mr) eqn:Hwip.
  { intros H. inversion H; subst. right. left. exists mr.
    split; [reflexivity|].
    split; [rewrite ?Hwip, ?Hsq; reflexivity|]. eexists. reflexivity. }
  destruct (squash mr && requests_commit_tagging (_options self)) eqn:Hsq.
  { intros H. inversion H; subst. right. left. exists mr.
    split; [reflexivity|].
    split; [rewrite ?Hwip, ?Hsq; reflexivity|]. eexists. reflexivity. }
  unfold bind at 1. cbn [ext trace].
  destruct (MergeRequest_fetch_approvals env mr s1) as [[approvals|e] s2].
  - intros H. right. right. exists mr, (Ret approvals). cbn [orb].
    split; [|split; [rewrite ?Hwip, ?Hsq; reflexivity|discriminate]].
    rewrite <- app_one_two.
    revert H.
    destruct (sufficient approvals); cbn [negb];
      [|intros H; inversion H; reflexivity].
    cbv zeta.
    destruct (mem_string (state mr) ["opened"; "reopened"; "locked"]); cbn [negb].
    + unfold during_merge_embargo, utcnow, opts, bind, ret.
      cbn [ext trace].
      destruct (embargo (_options self) (datetime_utcnow env (time_passes env s2)));
        [intros H; inversion H; reflexivity|].
      destruct (mem_Z (user_id (_user self)) (assignee_ids mr));
        intros H; inversion H; reflexivity.
    + destruct (mem_string (state mr) ["merged"; "closed"]);
        intros H; inversion H; reflexivity.
  - intros H. inversion H; subst. right. right. exists mr, (Raise e).
    cbn [ext trace]. rewrite <- app_one_two.
    split; [reflexivity|].
    split; [rewrite ?Hwip, ?Hsq; reflexivity|]. intros e' He. congruence.
Qed.

End ValidateMore.

(** ** The status of the CI *)

Section CIStatus.

Context {S : Type}.
Variable env : Env S.
Variable self : MergeJob.

Lemma find_first {A} (f : A -> bool) (l : list A) (x : A) :
  find f l = Some x ->
  exists before after,
    l = (before ++ x :: after)%list /\ f x = true /\
    forallb (fun y => negb (f y)) before = true.
Proof.
  induction l as [|a l IH]; simpl; [discriminate|].
  destruct (f a) eqn:Ha.
  - intros H. inversion H; subst. exists [], l. auto.
  - intros H. destruct (IH H) as (before & after & -> & Hx & Hb).
    exists (a :: before), after. simpl. rewrite Ha. auto.
Qed.

Lemma find_nowhere {A} (f : A -> bool) (l : list A) :
  find f l = None <-> forallb (fun y => negb (f y)) l = true.
Proof.
  induction l as [|a l IH]; simpl; [tauto|].
  destruct (f a); simpl; [split; discriminate|exact IH].
Qed.

(** X3: [get_mr_ci_status] lists the pipelines of the source project and
    branch of the request, for the bot's user name when [ci_run_by_me] and
    for any user otherwise.  When the listing returns, the status is that of
    the first listed pipeline on the commit ([merge_request.sha] when no
    commit is given), whatever later pipelines on the same commit say, and
    [None] exactly when no listed pipeline is on the commit. *)
Theorem get_mr_ci_status_first_listed
        (merge_request : MergeRequest) (commit_sha : option string)
        (ci_run_by_me : bool) (w : World S) (pipelines : list Pipeline) (s1 : S) :
  let user := if ci_run_by_me then Some (username (_user self)) else None in
  let commit := awaited merge_request commit_sha in
  Pipeline_pipelines_by_branch env (source_project_id merge_request)
    (source_branch merge_request) user (ext w) = (Ret pipelines, s1) ->
  exists ci_status,
    get_mr_ci_status env self merge_request commit_sha ci_run_by_me w
    = (Ret ci_status,
       mkWorld s1 (trace w ++ [EvPipelinesByBranch (source_project_id merge_request)
                                 (source_branch merge_request) user
                                 (Ret pipelines)])) /\
    (ci_status = None <->
     forallb (fun p => negb (String.eqb (pipeline_sha p) commit)) pipelines = true) /\
    (forall st, ci_status = Some st ->
       exists before p after,
         pipelines = (before ++ p :: after)%list /\
         pipeline_sha p = commit /\ status p = st /\
         forallb (fun q => negb (String.eqb (pipeline_sha q) commit)) before = true).
Proof.
  intros user commit Hlist.
  unfold get_mr_ci_status, pipelines_by_branch, call, bind.
  fold user. fold (awaited merge_request commit_sha). fold commit.
  rewrite Hlist.
  destruct (find (fun pipeline => String.eqb (pipeline_sha pipeline) commit) pipelines)
    as [p|] eqn:Hfind.
  - exists (Some (status p)). split; [reflexivity|]. split.
    + split; [discriminate|]. intros Hnone.
      apply find_nowhere in Hnone. congruence.
    + intros st Hst. inversion Hst; subst.
      apply find_first in Hfind. destruct Hfind as (before & after & E & Hp & Hb).
      apply String.eqb_eq in Hp. exists before, p, after. auto.
  - exists None. split; [reflexivity|]. split.
    + split; [intros _; apply find_nowhere; exact Hfind|reflexivity].
    + discriminate.
Qed.

End CIStatus.

(** ** Waiting for the CI: how the wait ends, and what it costs *)

Section AddsMore.

Context {S : Type}.
Variable env : Env S.

Lemma adds_utcnow P : adds trace P (utcnow env).
Proof. intros w. exists []. simpl. rewrite app_nil_r. auto. Qed.

Lemma adds_sleep (P : Event -> bool) secs :
  P (EvSleep secs) = true -> adds trace P (sleep env secs).
Proof. intros HP w. exists [EvSleep secs]. simpl. rewrite HP. auto. Qed.

Lemma loop_adds {A} (P : Event -> bool) (body : M (World S) (option A))
      (fuel : nat) (w w' : World S) (r : Res A) :
  adds trace P body ->
  loop fuel body w = Some (r, w') ->
  exists d, trace w' = (trace w ++ d)%list /\ forallb P d = true.
Proof.
  intros Hbody. revert w. induction fuel as [|fuel IH]; intros w; [discriminate|].
  simpl. destruct (Hbody w) as (d1 & E1 & F1).
  destruct (body w) as [[[a|]|e] w1]; simpl in E1.
  - intros H. inversion H; subst. eauto.
  - intros H. apply IH in H. destruct H as (d2 & E2 & F2).
    exists (d1 ++ d2)%list. rewrite E2, E1, app_assoc, forallb_app, F1, F2. auto.
  - intros H. inversion H; subst. eauto.
Qed.

End AddsMore.

(** As [adds_step], with [tac] to show that a call satisfies the property. *)
Ltac adds_step_with tac :=
  match goal with
  | |- adds _ _ (ret _) => apply adds_ret
  | |- adds _ _ (raise _) => apply adds_raise
  | |- adds _ _ (utcnow _) => apply adds_utcnow
  | |- adds _ _ (sleep _ _) => apply adds_sleep; tac
  | |- adds _ _ (bind _ _) => apply adds_bind; [|intro]
  | |- adds _ _ (try_except _ _ _) => apply adds_try_except; [|intro]
  | |- adds _ _ (mapM _ _) => apply adds_mapM; intro
  | |- adds _ _ (call _ _) => apply adds_call; intro; tac
  | |- adds _ _ (if ?b then _ else _) => destruct b eqn:?
  | |- adds _ _ (match ?x with _ => _ end) => destruct x eqn:?
  | |- adds _ _ (let _ := _ in _) => cbv zeta
  end.

Section AwaitCIMore.

Context {S : Type}.
Variable env : Env S.
Variable self : MergeJob.
Variable merge_request : MergeRequest.
Variable commit_sha : string.
Variable time_0 : Z.

Lemma polls_app (a b : list Event) : polls (a ++ b) = (polls a + polls b)%nat.
Proof.
  induction a as [|ev a IH]; simpl; [reflexivity|].
  destruct ev; simpl; rewrite IH; reflexivity.
Qed.

Lemma verdict_ret (ci_status : option string) :
  verdict ci_status = Some (Ret tt) ->
  ci_status = Some "success" \/ ci_status = Some "skipped".
Proof.
  unfold verdict. destruct ci_status as [st|]; simpl; [|discriminate].
  destruct (String.eqb_spec st "success") as [->|_]; [auto|].
  destruct (String.eqb_spec st "skipped") as [->|_]; [auto|].
  destruct (String.eqb st "failed"); [discriminate|].
  destruct (String.eqb st "canceled"); discriminate.
Qed.

(** A turn that does not go round again is a last turn. *)
Lemma turn_end (w w' : World S) (r : Res (option unit)) (r' : Res unit) :
  wait_for_ci_to_pass_turn env self merge_request commit_sha time_0 w = (r, w') ->
  turn_result r = Some r' ->
  exists last,
    trace w' = (trace w ++ last)%list /\
    wait_end (_options self) commit_sha
      (datetime_utcnow env (ext w') - time_0) last r' /\
    (last = [] \/
     datetime_utcnow env (time_passes env (ext w)) - time_0
     < ci_timeout (_options self)).
Proof.
  unfold wait_for_ci_to_pass_turn, get_mr_ci_status.
  unfold pipelines_by_branch, start, sleep, utcnow, call, bind, ret, raise.
  cbn [ext trace].
  destruct (Z.ltb_spec (datetime_utcnow env (time_passes env (ext w)) - time_0)
                       (ci_timeout (_options self))) as [Hin|Hout].
  2:{ intros H Hr. exists []. rewrite app_nil_r. unfold wait_end, too_long.
      destruct (ci_timeout_skip (_options self)); inversion H; subst;
        inversion Hr; subst; cbn [ext trace];
        (split; [reflexivity|]; split; [left; auto|left; reflexivity]). }
  cbn [ext trace].
  destruct (Pipeline_pipelines_by_branch env _ _ _ (time_passes env (ext w)))
    as [[ps|e] s1].
  2:{ intros H Hr. inversion H; subst. inversion Hr; subst. simpl.
      eexists. split; [reflexivity|]. split; [|auto].
      right. right. left. eauto 10. }
  assert (Hstatus : listed_status commit_sha ps
                    = option_map status
                        (find (fun pipeline =>
                                 String.eqb (pipeline_sha pipeline) commit_sha) ps))
    by reflexivity.
  destruct (find _ ps) as [p|]; simpl in Hstatus; cbn [option_string_eqb].
  - destruct (String.eqb (status p) "success") eqn:E1;
      [|destruct (String.eqb (status p) "skipped") eqn:E2;
        [|destruct (String.eqb (status p) "failed") eqn:E3;
          [|destruct (String.eqb (status p) "canceled") eqn:E4]]];
      intros H Hr; inversion H; subst; clear H; simpl in Hr;
      try discriminate; inversion Hr; subst; clear Hr; simpl;
      (eexists; split; [reflexivity|]; split; [|auto];
       right; left; do 4 eexists; split; [reflexivity|];
       rewrite Hstatus; unfold verdict; simpl;
       rewrite ?E1, ?E2, ?E3, ?E4; reflexivity).
  - destruct (require_ci_run_by_me (_options self)).
    + cbn [ext trace].
      destruct (Pipeline_start env (source_project_id merge_request)
                  (source_branch merge_request) s1) as [[p|e] s2];
        intros H Hr; inversion H; subst; clear H; simpl in Hr;
        try discriminate; inversion Hr; subst; clear Hr; simpl.
      eexists. split; [rewrite <- app_assoc; reflexivity|]. split; [|auto].
      right. right. right. do 7 eexists. split; [reflexivity|]. auto.
    + intros H Hr; inversion H; subst; clear H; simpl in Hr. discriminate.
Qed.

(** A turn makes no poll past the deadline, and one poll within it. *)
Lemma turn_polls (w w' : World S) (r : Res (option unit)) :
  wait_for_ci_to_pass_turn env self merge_request commit_sha time_0 w = (r, w') ->
  exists d,
    trace w' = (trace w ++ d)%list /\
    ((d = [] /\ r = Raise (too_long (_options self))) \/
     (polls d = 1%nat /\
      datetime_utcnow env (time_passes env (ext w)) - time_0
      < ci_timeout (_options self))).
Proof.
  intros H.
  destruct r as [[[]|]|e].
  - destruct (turn_end w w' _ (Ret tt) H eq_refl) as (last & E & Hend & Hin).
    exists last. split; [exact E|].
    destruct Hend as [(-> & Hr & _)|[(pid & b & u & ps & -> & _)
                      |[(pid & b & u & e & -> & Hr)
                       |(pid & b & u & ps & pid' & b' & e & -> & _ & Hr)]]];
      try discriminate.
    right. split; [reflexivity|]. destruct Hin as [Hin|Hin]; [discriminate|exact Hin].
  - pose proof H as H'. apply turn_spec in H'.
    destruct H' as (d & E & _ & _ & _). exists d. split; [exact E|]. right.
    revert H E.
    unfold wait_for_ci_to_pass_turn, get_mr_ci_status.
    unfold pipelines_by_branch, start, sleep, utcnow, call, bind, ret, raise.
    cbn [ext trace].
    destruct (Z.ltb_spec (datetime_utcnow env (time_passes env (ext w)) - time_0)
                         (ci_timeout (_options self))) as [Hin|Hout];
      [|destruct (ci_timeout_skip (_options self)); discriminate].
    cbn [ext trace].
    destruct (Pipeline_pipelines_by_branch env _ _ _ (time_passes env (ext w)))
      as [[ps|e] s1];
      [|discriminate].
    destruct (find _ ps) as [p|]; cbn [option_string_eqb].
    + destruct (String.eqb (status p) "success"); [discriminate|].
      destruct (String.eqb (status p) "skipped"); [discriminate|].
      destruct (String.eqb (status p) "failed"); [discriminate|].
      destruct (String.eqb (status p) "canceled"); [discriminate|].
      intros H E. inversion H; subst; clear H. simpl in E.
      rewrite <- app_assoc in E. apply app_inv_head in E. subst d. auto.
    + destruct (require_ci_run_by_me (_options self)).
      * cbn [ext trace].
        destruct (Pipeline_start env (source_project_id merge_request)
                    (source_branch merge_request) s1) as [[p|e] s2];
          [|discriminate].
        intros H E. inversion H; subst; clear H. simpl in E.
        rewrite <- !app_assoc in E. apply app_inv_head in E. subst d. auto.
      * intros H E. inversion H; subst; clear H. simpl in E.
        rewrite <- app_assoc in E. apply app_inv_head in E. subst d. auto.
  - destruct (turn_end w w' _ (Raise e) H eq_refl) as (last & E & Hend & Hin).
    exists last. split; [exact E|].
    destruct Hend as [(-> & Hr & _)|[(pid & b & u & ps & -> & _)
                      |[(pid & b & u & e' & -> & Hr)
                       |(pid & b & u & ps & pid' & b' & e' & -> & _ & Hr)]]].
    + left. split; [reflexivity|]. inversion Hr; subst. reflexivity.
    + right. split; [reflexivity|]. destruct Hin as [Hin|Hin]; [discriminate|exact Hin].
    + right. split; [reflexivity|]. destruct Hin as [Hin|Hin]; [discriminate|exact Hin].
    + right. split; [reflexivity|]. destruct Hin as [Hin|Hin]; [discriminate|exact Hin].
Qed.

End AwaitCIMore.

Section AwaitCILoop.

Context {S : Type}.
Variable env : Env S.
Variable self : MergeJob.
Variable merge_request : MergeRequest.
Variable commit_sha : string.
Variable time_0 : Z.

(** A loop that ends has made rounds that resolved nothing, then a last
    turn. *)
Lemma loop_end (fuel : nat) (w w' : World S) (r : Res unit) :
  loop fuel (wait_for_ci_to_pass_turn env self merge_request commit_sha time_0) w
  = Some (r, w') ->
  exists rounds last,
    trace w' = (trace w ++ rounds ++ last)%list /\
    nothing_resolved commit_sha rounds = true /\
    wait_end (_options self) commit_sha
      (datetime_utcnow env (ext w') - time_0) last r.
Proof.
  revert w. induction fuel as [|fuel IH]; intros w; [discriminate|].
  cbn [loop].
  destruct (wait_for_ci_to_pass_turn env self merge_request commit_sha time_0 w)
    as [rt w1] eqn:Hturn.
  destruct rt as [[[]|]|e].
  - intros H. inversion H; subst; clear H.
    destruct (turn_end env self merge_request commit_sha time_0 w w' _ (Ret tt)
                Hturn eq_refl) as (last & E & Hend & _).
    exists [], last. auto.
  - intros H. apply IH in H. destruct H as (rounds & last & E2 & R2 & Hend).
    apply turn_spec in Hturn. destruct Hturn as (d1 & E1 & _ & _ & R1).
    exists (d1 ++ rounds)%list, last. split; [|split].
    + rewrite E2, E1, <- !app_assoc. reflexivity.
    + rewrite nothing_resolved_app, R1, R2. reflexivity.
    + exact Hend.
  - intros H. inversion H; subst; clear H.
    destruct (turn_end env self merge_request commit_sha time_0 w w' _ (Raise e)
                Hturn eq_refl) as (last & E & Hend & _).
    exists [], last. auto.
Qed.

(** Each poll but the last is followed by ten seconds of sleep, and every
    poll is made within the deadline. *)
Lemma loop_polls (fuel : nat) (w w' : World S) (r : Res unit) :
  clock_moves_forward env ->
  loop fuel (wait_for_ci_to_pass_turn env self merge_request commit_sha time_0) w
  = Some (r, w') ->
  exists d,
    trace w' = (trace w ++ d)%list /\
    (polls d = O \/
     (datetime_utcnow env (ext w) - time_0)
     + (Z.of_nat (polls d) - 1) * 10000000 < ci_timeout (_options self)).
Proof.
  intros Hclock. revert w. induction fuel as [|fuel IH]; intros w; [discriminate|].
  cbn [loop].
  destruct (wait_for_ci_to_pass_turn env self merge_request commit_sha time_0 w)
    as [rt w1] eqn:Hturn.
  destruct (turn_polls env self merge_request commit_sha time_0 w w1 rt Hturn)
    as (d1 & E1 & Hd1).
  pose proof (proj2 (proj2 (proj2 Hclock)) (ext w)) as Hread.
  destruct rt as [[[]|]|e].
  - intros H. inversion H; subst; clear H. exists d1. split; [exact E1|].
    destruct Hd1 as [[-> _]|[Hp Hin]]; [left; reflexivity|right].
    rewrite Hp. simpl. lia.
  - intros H. apply IH in H. destruct H as (d2 & E2 & Hd2).
    destruct Hd1 as [[_ Hr]|[Hp Hin]]; [discriminate|].
    apply turn_clock in Hturn; [|exact Hclock].
    unfold waiting_time_in_secs in Hturn.
    exists (d1 ++ d2)%list. split; [rewrite E2, E1, app_assoc; reflexivity|].
    right. rewrite polls_app, Hp.
    destruct Hd2 as [Hz|Hb]; [rewrite Hz; simpl; lia|].
    rewrite Nat2Z.inj_add. simpl Z.of_nat at 1. lia.
  - intros H. inversion H; subst; clear H. exists d1. split; [exact E1|].
    destruct Hd1 as [[-> _]|[Hp Hin]]; [left; reflexivity|right].
    rewrite Hp. simpl. lia.
Qed.

Lemma turn_adds :
  adds trace (ci_call_on self merge_request)
       (wait_for_ci_to_pass_turn env self merge_request commit_sha time_0).
Proof.
  unfold wait_for_ci_to_pass_turn, get_mr_ci_status, pipelines_by_branch, start.
  repeat adds_step_with
         ltac:(unfold ci_call_on, waiting_time_in_secs;
               rewrite ?Z.eqb_refl, ?String.eqb_refl;
               destruct (require_ci_run_by_me (_options self));
               simpl; rewrite ?String.eqb_refl; try reflexivity; try discriminate).
Qed.

End AwaitCILoop.

Section AwaitCIExtras.

Context {S : Type}.
Variable env : Env S.
Variable self : MergeJob.

(** X4: [wait_for_ci_to_pass] returns only on a CI that passed or was
    skipped: whenever it returns, its last call is a poll that lists, for
    the awaited commit, the status [success] or [skipped], and no earlier
    poll had shown a status that ends the wait. *)
Theorem wait_for_ci_to_pass_returns_on_success
        (fuel : nat) (merge_request : MergeRequest) (commit_sha : option string)
        (w w' : World S) :
  wait_for_ci_to_pass env self fuel merge_request commit_sha w = Some (Ret tt, w') ->
  exists rounds pid b u pipelines,
    trace w' = (trace w ++ rounds ++ [EvPipelinesByBranch pid b u (Ret pipelines)])%list /\
    nothing_resolved (awaited merge_request commit_sha) rounds = true /\
    (listed_status (awaited merge_request commit_sha) pipelines = Some "success" \/
     listed_status (awaited merge_request commit_sha) pipelines = Some "skipped").
Proof.
  unfold wait_for_ci_to_pass, utcnow. fold (awaited merge_request commit_sha).
  intros H. apply loop_end in H. destruct H as (rounds & last & E & R & Hend).
  cbn [ext trace] in E.
  destruct Hend as [(_ & Hr & _)|[(pid & b & u & ps & -> & Hv)
                   |[(pid & b & u & e & _ & Hr)
                    |(pid & b & u & ps & pid' & b' & e & _ & _ & Hr)]]];
    try discriminate.
  apply verdict_ret in Hv. exists rounds, pid, b, u, ps. auto.
Qed.

(** X5: every wait that ends is a series of rounds in which nothing was
    resolved and no call raised, and a last turn: either the deadline has
    passed ([ci_timeout] or more has elapsed on the clock between the first
    read of the wait and its last) and the wait raises 'CI is taking too
    long.' without another call; or a poll lists a status whose verdict is
    the outcome (return for [success] and [skipped], [CannotMerge('CI
    failed!')] for [failed], [CannotMerge('Someone canceled the CI.')] for
    [canceled]); or the poll, or the pipeline start after a poll that found
    nothing, raises, and that exception is the outcome. *)
Theorem wait_for_ci_to_pass_ends
        (fuel : nat) (merge_request : MergeRequest) (commit_sha : option string)
        (w w' : World S) (r : Res unit) :
  wait_for_ci_to_pass env self fuel merge_request commit_sha w = Some (r, w') ->
  exists rounds last,
    trace w' = (trace w ++ rounds ++ last)%list /\
    nothing_resolved (awaited merge_request commit_sha) rounds = true /\
    wait_end (_options self) (awaited merge_request commit_sha)
      (datetime_utcnow env (ext w')
       - datetime_utcnow env (time_passes env (ext w)))
      last r.
Proof.
  unfold wait_for_ci_to_pass, utcnow. fold (awaited merge_request commit_sha).
  intros H. apply loop_end in H. exact H.
Qed.

(** X6: with a clock that moves forward, a wait makes no more polls than
    ten-second steps fit into [ci_timeout]: each poll starts within the
    deadline and at least ten seconds after the one before.  With a
    [ci_timeout] of zero or less it makes no call at all and raises
    'CI is taking too long.' at once. *)
Theorem wait_for_ci_to_pass_poll_bound
        (fuel : nat) (merge_request : MergeRequest) (commit_sha : option string)
        (w : World S) :
  clock_moves_forward env ->
  (enough_turns (_options self) <= fuel)%nat ->
  exists r w' d,
    wait_for_ci_to_pass env self fuel merge_request commit_sha w = Some (r, w') /\
    trace w' = (trace w ++ d)%list /\
    (polls d = O \/
     (Z.of_nat (polls d) - 1) * 10000000 < ci_timeout (_options self)) /\
    (ci_timeout (_options self) <= 0 ->
     d = [] /\ r = Raise (too_long (_options self))).
Proof.
  intros Hclock Hfuel.
  destruct (wait_for_ci_to_pass_run env self fuel merge_request commit_sha w
              Hclock Hfuel) as (r & w' & d & Hrun & E & _ & _ & R).
  exists r, w', d. split; [exact Hrun|]. split; [exact E|].
  unfold wait_for_ci_to_pass, utcnow in Hrun.
  fold (awaited merge_request commit_sha) in Hrun.
  split.
  - apply loop_polls in Hrun; [|exact Hclock].
    destruct Hrun as (d' & E' & Hb). cbn [ext trace] in E', Hb.
    rewrite E in E'. apply app_inv_head in E'. subst d'.
    destruct Hb as [Hz|Hb]; [left; exact Hz|right; lia].
  - intros Hzero.
    destruct fuel as [|fuel]; [discriminate|].
    cbn [loop] in Hrun.
    rewrite turn_past_deadline in Hrun.
    2:{ pose proof (proj2 (proj2 (proj2 Hclock)) (time_passes env (ext w))).
        cbn [ext trace]. lia. }
    inversion Hrun; subst; clear Hrun.
    split; [|reflexivity].
    cbn [ext trace] in E.
    rewrite <- (app_nil_r (trace w)) in E at 1.
    apply app_inv_head in E. auto.
Qed.

(** X7: a wait touches nothing but the pipelines of the request's source
    project and branch: every call it makes is a listing of those pipelines
    (those of the bot's own user when [require_ci_run_by_me], of any user
    otherwise), a pipeline start on that project and branch (only when
    [require_ci_run_by_me]), or a sleep of ten seconds. *)
Theorem wait_for_ci_to_pass_calls
        (fuel : nat) (merge_request : MergeRequest) (commit_sha : option string)
        (w w' : World S) (r : Res unit) :
  wait_for_ci_to_pass env self fuel merge_request commit_sha w = Some (r, w') ->
  exists d,
    trace w' = (trace w ++ d)%list /\
    forallb (ci_call_on self merge_request) d = true.
Proof.
  unfold wait_for_ci_to_pass, utcnow. intros H.
  apply (loop_adds (ci_call_on self merge_request)) in H; [exact H|].
  apply turn_adds.
Qed.

End AwaitCIExtras.

(** ** Trailers: what is tagged, with what, from where *)

(** Settles the side condition of a call of [add_trailers]. *)
Ltac trailer_call :=
  repeat match goal with
         | H : (if ?c then _ else _) = _ |- _ =>
             destruct c eqn:?; inversion H; subst; clear H
         | H : _ && _ = true |- _ =>
             apply andb_true_iff in H; destruct H
         end;
  unfold trailer_call_on; simpl;
  repeat match goal with
         | H : ?x = true |- context [?x] => rewrite H
         end;
  rewrite ?String.eqb_refl; simpl; try reflexivity; try discriminate.

Section TrailerCalls.

Context {S : Type}.
Variable env : Env S.
Variable self : MergeJob.

Lemma adds_bind_bind_ret {St A B C D} (tr : St -> list Event) P
      (m1 : M St A) (m2 : A -> M St B) (f : B -> C) (k : C -> M St D) :
  adds tr P (bind m1 (fun a => bind (m2 a) (fun b => k (f b)))) ->
  adds tr P (bind (bind m1 (fun a => bind (m2 a) (fun b => ret (f b)))) k).
Proof.
  intros Hm st. specialize (Hm st). revert Hm. unfold bind, ret.
  destruct (m1 st) as [[a|e] st1]; [|auto].
  destruct (m2 a st1) as [[b|e] st2]; auto.
Qed.

Lemma adds_bind_ret {St A B} (tr : St -> list Event) P (a : A) (k : A -> M St B) :
  adds tr P (k a) -> adds tr P (bind (ret a) k).
Proof. intros Hm st. exact (Hm st). Qed.

(** X8: every call [add_trailers] makes is a lookup for the reviewers (only
    under [add_reviewers]) or a tagging of the request's source branch with
    one of the three trailers.  [Tested-by] is tagged on the last commit
    only (from [<source>^]), with the one value ['<bot name> <<MR url>>'],
    and only under [add_tested] for a project that requires a green pipeline
    and with the strategy [rebase]; [Part-of] is tagged from
    [origin/<target>] with the one value ['<<MR url>>'], only under
    [add_part_of]; [Reviewed-by] from [origin/<target>], only under
    [add_reviewers]. *)
Theorem add_trailers_calls (merge_request : MergeRequest) :
  adds trace (trailer_call_on self merge_request)
       (add_trailers env self merge_request).
Proof.
  unfold add_trailers.
  destruct (add_reviewers (_options self)) eqn:Hreviewers.
  - apply adds_bind_bind_ret.
    unfold _get_reviewer_names_and_emails, fetch_approvals,
           fetch_by_id, tag_with_trailer.
    repeat adds_step_with trailer_call.
  - apply adds_bind_ret.
    unfold tag_with_trailer.
    repeat adds_step_with trailer_call.
Qed.

End TrailerCalls.

Section Reviewers.

Context {S : Type}.
Variable env : Env S.

Lemma reviewers_names (uids : list Z) (w w' : World S) (r : Res (list string)) :
  mapM (fun uid => u <- fetch_by_id env uid ;;
                   ret (user_name u ++ " <" ++ email u ++ ">"))%job uids w
  = (r, w') ->
  match r with
  | Ret names =>
      exists users,
        List.length users = List.length uids /\
        names = map (fun u => user_name u ++ " <" ++ email u ++ ">") users /\
        trace w' = (trace w ++ reviewer_lookups uids users)%list
  | Raise e =>
      exists looked_up uid rest users,
        uids = (looked_up ++ uid :: rest)%list /\
        List.length users = List.length looked_up /\
        trace w' = (trace w ++ reviewer_lookups looked_up users
                    ++ [EvUserFetchById uid (Raise e)])%list
  end.
Proof.
  revert w w' r. induction uids as [|uid uids IH]; intros w w' r; simpl.
  - intros H. inversion H; subst. exists []. rewrite app_nil_r. auto.
  - unfold bind at 1. unfold bind at 1. unfold fetch_by_id at 1. unfold call at 1.
    destruct (User_fetch_by_id env uid (ext w)) as [[u|e] s1]; cbn [ret].
    + unfold bind at 1.
      destruct (mapM _ uids _) as [[names|e] w1] eqn:Hrest;
        apply IH in Hrest; cbn [trace] in Hrest.
      * intros H. inversion H; subst; clear H.
        destruct Hrest as (users & Hlen & -> & E).
        exists (u :: users). simpl. rewrite Hlen, E, <- app_assoc. auto.
      * intros H. inversion H; subst; clear H.
        destruct Hrest as (looked_up & uid' & rest & users & -> & Hlen & E).
        exists (uid :: looked_up), uid', rest, (u :: users). simpl.
        rewrite Hlen, E, <- !app_assoc. auto.
    + intros H. inversion H; subst; clear H.
      exists [], uid, uids, []. simpl. auto.
Qed.

(** X9: [_get_reviewer_names_and_emails] looks the approvers up one by one,
    in the order of [approver_ids] and without dropping repeated ids.  When
    every lookup returns, it returns one ['<name> <<email>>'] per approver id,
    in that order; when a lookup raises, it stops there, no later approver is
    looked up, and that exception is the outcome. *)
Theorem reviewer_names_and_emails
        (approvals : Approvals) (w w' : World S) (r : Res (list string)) :
  _get_reviewer_names_and_emails env approvals w = (r, w') ->
  match r with
  | Ret names =>
      exists users,
        List.length users = List.length (approver_ids approvals) /\
        names = map (fun u => user_name u ++ " <" ++ email u ++ ">") users /\
        trace w' = (trace w ++ reviewer_lookups (approver_ids approvals) users)%list
  | Raise e =>
      exists looked_up uid rest users,
        approver_ids approvals = (looked_up ++ uid :: rest)%list /\
        List.length users = List.length looked_up /\
        trace w' = (trace w ++ reviewer_lookups looked_up users
                    ++ [EvUserFetchById uid (Raise e)])%list
  end.
Proof. unfold _get_reviewer_names_and_emails. apply reviewers_names. Qed.

End Reviewers.

(** ** [update_from_target_branch_and_push]: the other ways it ends *)

Section UpdateMore.

Context {S : Type}.
Variable env : Env S.
Variable self : MergeJob.

(** X10: when the fuse raises, nothing else of the [try] block runs.  A
    [GitError] of the fuse, under any strategy ([merge] too), is reported as
    [CannotMerge('got conflicts while rebasing, your problem now...')];
    any other exception is passed on as it is.  Either is the outcome of the
    call once the cleanup returns. *)
Theorem update_fuse_failure
        (merge_request : MergeRequest) (url : option string)
        (w w1 : World S) (exc : Exn) :
  enters_try self merge_request url = true ->
  fuse env self (source_branch merge_request) (target_branch merge_request) url false w
  = (Raise exc, w1) ->
  let outcome :=
    if isinstance exc GitError
    then new CannotMerge "got conflicts while rebasing, your problem now..."
    else exc in
  update_from_target_branch_and_push env self merge_request url w
  = try_finally (raise outcome) (update_finally env merge_request) w1 /\
  (forall w2, update_finally env merge_request w1 = (Ret tt, w2) ->
     update_from_target_branch_and_push env self merge_request url w
     = (Raise outcome, w2)).
Proof.
  intros Hguard Hfuse outcome.
  assert (Hrun : update_from_target_branch_and_push env self merge_request url w
                 = try_finally (raise outcome) (update_finally env merge_request) w1).
  { rewrite update_enters_try by exact Hguard.
    unfold try_finally, update_try_except_else, update_try. cbv zeta.
    rewrite (bind_lift_raise _ _ _ _ _ _ Hfuse).
    unfold outcome. destruct (isinstance exc GitError); reflexivity. }
  split; [exact Hrun|].
  intros w2 Hclean. rewrite Hrun. unfold try_finally, raise.
  rewrite Hclean. reflexivity.
Qed.

(** X11: when the fuse has succeeded and a [GitError] is then raised by the
    lookup of the target's commit hash, or by [add_trailers] (a failed
    tagging), the [except] clause reads [rewritten_sha] before it was ever
    assigned: the [try] statement ends in an [UnboundLocalError], not in a
    [CannotMerge], and that is the outcome of the call once the cleanup
    returns. *)
Theorem update_git_error_before_rewrite
        (merge_request : MergeRequest) (url : option string)
        (w w1 w2 : World S) (updated : string) (exc : Exn) :
  enters_try self merge_request url = true ->
  fuse env self (source_branch merge_request) (target_branch merge_request) url false w
  = (Ret updated, w1) ->
  (get_commit_hash env ("origin/" ++ target_branch merge_request) w1 = (Raise exc, w2) \/
   exists target wh,
     get_commit_hash env ("origin/" ++ target_branch merge_request) w1
     = (Ret target, wh) /\
     updated <> target /\
     add_trailers env self merge_request wh = (Raise exc, w2)) ->
  isinstance exc GitError = true ->
  exists err,
    exn_class err = UnboundLocalError /\
    update_from_target_branch_and_push env self merge_request url w
    = try_finally (raise err) (update_finally env merge_request) w2 /\
    (forall w3, update_finally env merge_request w2 = (Ret tt, w3) ->
       update_from_target_branch_and_push env self merge_request url w
       = (Raise err, w3)).
Proof.
  intros Hguard Hfuse Hfail Hgit.
  exists (new UnboundLocalError
            "local variable 'rewritten_sha' referenced before assignment").
  split; [reflexivity|].
  assert (Hrun : update_from_target_branch_and_push env self merge_request url w
                 = try_finally
                     (raise (new UnboundLocalError
                        "local variable 'rewritten_sha' referenced before assignment"))
                     (update_finally env merge_request) w2).
  { rewrite update_enters_try by exact Hguard.
    unfold try_finally, update_try_except_else, update_try. cbv zeta.
    rewrite (bind_lift_ret _ _ _ _ _ _ Hfuse), !bind_assign.
    destruct Hfail as [Hhash|(target & wh & Hhash & Hnew & Htrailers)].
    - rewrite (bind_lift_raise _ _ _ _ _ _ Hhash), Hgit. reflexivity.
    - apply String.eqb_neq in Hnew.
      rewrite (bind_lift_ret _ _ _ _ _ _ Hhash), bind_assign, Hnew.
      rewrite (bind_lift_raise _ _ _ _ _ _ Htrailers), Hgit. reflexivity. }
  split; [exact Hrun|].
  intros w3 Hclean. rewrite Hrun. unfold try_finally, raise.
  rewrite Hclean. reflexivity.
Qed.

End UpdateMore.

Section UpdateEscapes.

Context {S : Type}.
Variable env : Env S.
Variable self : MergeJob.

Lemma bind_inv_raise {St A B} (m : M St A) (k : A -> M St B) (st st' : St) (e : Exn) :
  bind m k st = (Raise e, st') ->
  m st = (Raise e, st') \/
  exists a st1, m st = (Ret a, st1) /\ k a st1 = (Raise e, st').
Proof.
  unfold bind. destruct (m st) as [[a|e0] st1]; [eauto|].
  intros H. inversion H; subst. auto.
Qed.

(** Whenever the [try] block raises, [changes_pushed] is still false: the
    assignment is its last statement. *)
Lemma update_try_raise_not_pushed merge_request url (w w' : World S)
      (l : Locals) (exc : Exn) :
  update_try env self merge_request url (no_locals, w) = (Raise exc, (l, w')) ->
  changes_pushed l = false.
Proof.
  unfold update_try. cbv zeta. intros H.
  apply bind_inv_raise in H. destruct H as [H|(updated & [l1 wf] & Hfuse & H)].
  { apply lift_inv in H. destruct H as [_ ->]. reflexivity. }
  apply lift_inv in Hfuse. destruct Hfuse as [_ ->].
  rewrite !bind_assign in H.
  apply bind_inv_raise in H. destruct H as [H|(target & [l2 wh] & Hhash & H)].
  { apply lift_inv in H. destruct H as [_ ->]. reflexivity. }
  apply lift_inv in Hhash. destruct Hhash as [_ ->].
  rewrite bind_assign in H.
  destruct (String.eqb updated target).
  { inversion H; subst. reflexivity. }
  apply bind_inv_raise in H. destruct H as [H|(tr & [l3 wt] & Htrail & H)].
  { apply lift_inv in H. destruct H as [_ ->]. reflexivity. }
  apply lift_inv in Htrail. destruct Htrail as [_ ->].
  rewrite !bind_assign in H.
  apply bind_inv_raise in H. destruct H as [H|(x & [l4 wp] & Hpush & H)].
  { apply lift_inv in H. destruct H as [_ ->]. reflexivity. }
  discriminate.
Qed.

Lemma not_GitError_CannotMerge why : isinstance (new CannotMerge why) GitError = false.
Proof. reflexivity. Qed.

Lemma not_GitError_UnboundLocalError why :
  isinstance (new UnboundLocalError why) GitError = false.
Proof. reflexivity. Qed.

(** A [GitError] leaves the [try] statement only out of the branch lookup. *)
Lemma update_try_except_else_git_error merge_request url (w w' : World S) (e : Exn) :
  update_try_except_else env self merge_request url w = (Raise e, w') ->
  isinstance e GitError = true ->
  exists before pid b,
    trace w' = (trace w ++ before ++ [EvBranchFetchByName pid b (Raise e)])%list.
Proof.
  unfold update_try_except_else.
  destruct (update_try_adds env self merge_request url (no_locals, w))
    as (d1 & E1 & _).
  destruct (update_try env self merge_request url (no_locals, w))
    as [[[]|exc] [l w1]] eqn:Htry; unfold block_trace in E1; simpl in E1.
  - unfold update_else, read_local, bind, ret, raise.
    destruct (target_sha l), (updated_sha l), (rewritten_sha l);
      intros H Hg; inversion H; subst; discriminate.
  - apply update_try_raise_not_pushed in Htry.
    destruct (isinstance exc GitError) eqn:Hexc.
    2:{ intros H Hg. inversion H; subst. congruence. }
    unfold update_except, read_local, fetch_by_name, call, bind, ret, raise.
    rewrite Htry.
    destruct (branch_updated l); cbn [negb];
      [|intros H Hg; inversion H; subst; discriminate].
    destruct (branch_rewritten l); cbn [negb].
    + destruct (Branch_fetch_by_name env _ _ (ext w1)) as [[b|e0] s2].
      * destruct (protected b); intros H Hg; inversion H; subst; discriminate.
      * intros H Hg. inversion H; subst. simpl. rewrite E1.
        exists d1, (source_project_id merge_request), (source_branch merge_request).
        rewrite <- app_assoc. reflexivity.
    + destruct (rewritten_sha l); [destruct (updated_sha l)|];
        intros H Hg; inversion H; subst; discriminate.
Qed.

Lemma update_finally_raise merge_request (w w' : World S) (e : Exn) :
  update_finally env merge_request w = (Raise e, w') ->
  exists before ev,
    trace w' = (trace w ++ before ++ [ev])%list /\
    is_cleanup ev = true /\ event_raised ev = Some e.
Proof.
  unfold update_finally, checkout_branch, remove_branch, call, bind, ret.
  destruct (negb _); [|discriminate].
  destruct (repo_checkout_branch env "master" (ext w)) as [[[]|e0] s1]; cbn [ext trace].
  - destruct (repo_remove_branch env _ s1) as [[[]|e1] s2];
      intros H; inversion H; subst.
    exists [EvCheckoutBranch "master" (Ret tt)], (EvRemoveBranch (source_branch merge_request) (Raise e)).
    simpl. rewrite <- app_assoc. auto.
  - intros H. inversion H; subst.
    exists [], (EvCheckoutBranch "master" (Raise e)). simpl. auto.
Qed.

(** X12: no [GitError] of the [try] block gets out of
    [update_from_target_branch_and_push] (the [raise] that ends its [except]
    clause is never reached): every [GitError] of the fuse, of the hash
    lookup, of a tagging or of the push is turned into another exception.
    When the call does end in a [GitError], that error was raised by the
    branch lookup in the [except] clause or by a cleanup call. *)
Theorem update_git_error_escapes_only_from_lookup_or_cleanup
        (merge_request : MergeRequest) (url : option string)
        (w w' : World S) (e : Exn) :
  update_from_target_branch_and_push env self merge_request url w = (Raise e, w') ->
  isinstance e GitError = true ->
  exists d ev,
    trace w' = (trace w ++ d)%list /\
    In ev d /\
    event_raised ev = Some e /\
    is_cleanup ev || is_branch_lookup ev = true.
Proof.
  unfold update_from_target_branch_and_push.
  destruct (option_string_eqb url (repo_remote_url self)).
  { intros H Hg. inversion H; subst. discriminate. }
  destruct (_ && _).
  { intros H Hg. inversion H; subst. discriminate. }
  unfold try_finally.
  destruct (update_try_except_else_adds env self merge_request url w)
    as (db & Eb & _).
  destruct (update_try_except_else env self merge_request url w)
    as [rb wb] eqn:Hbody. simpl in Eb.
  destruct (update_finally_adds env merge_request wb) as (dc & Ec & _).
  destruct (update_finally env merge_request wb) as [[[]|ec] wc] eqn:Hclean;
    simpl in Ec; intros H Hg; inversion H; subst; clear H.
  - apply update_try_except_else_git_error in Hbody; [|exact Hg].
    destruct Hbody as (before & pid & b & E).
    exists ((before ++ [EvBranchFetchByName pid b (Raise e)]) ++ dc)%list,
           (EvBranchFetchByName pid b (Raise e)).
    split; [rewrite Ec, E, <- !app_assoc; reflexivity|].
    split; [|split; reflexivity].
    apply in_or_app. left. apply in_or_app. right. simpl. auto.
  - apply update_finally_raise in Hclean.
    destruct Hclean as (before & ev & E & Hc & Hr).
    exists (db ++ before ++ [ev])%list, ev.
    split; [rewrite E, Eb, <- !app_assoc; reflexivity|].
    split; [|split; [exact Hr|rewrite Hc; reflexivity]].
    apply in_or_app. right. apply in_or_app. right. simpl. auto.
Qed.

Lemma fuse_is_fuse source target url local :
  adds trace is_fuse (fuse env self source target url local).
Proof.
  unfold fuse, rebase_then_merge, rebase, merge.
  destruct (merge_strategy (_options self)); adds_auto.
Qed.

Lemma add_trailers_is_trailer_call merge_request :
  adds trace is_trailer_call (add_trailers env self merge_request).
Proof.
  unfold add_trailers, _get_reviewer_names_and_emails, fetch_approvals,
         fetch_by_id, tag_with_trailer.
  adds_auto.
Qed.

(** X13: a call that returns [(target, updated, rewritten)] has made, in
    this order: the calls of the fuse, which returned [updated]; the lookup
    of [origin/<target>], which returned [target], different from [updated];
    the calls of [add_trailers]; one forced push of the source branch, which
    returned; and the cleanup.  Nothing is pushed before every tagging is
    done, and nothing else is called. *)
Theorem update_success_calls
        (merge_request : MergeRequest) (url : option string) (w w' : World S)
        (target updated rewritten : string) :
  update_from_target_branch_and_push env self merge_request url w
  = (Ret (target, updated, rewritten), w') ->
  target <> updated /\
  exists wf fused tagged cleaned,
    fuse env self (source_branch merge_request) (target_branch merge_request)
         url false w = (Ret updated, wf) /\
    trace wf = (trace w ++ fused)%list /\
    trace w' = (trace w ++ fused
                ++ [EvGetCommitHash ("origin/" ++ target_branch merge_request)
                      (Ret target)]
                ++ tagged
                ++ [EvPush (source_branch merge_request) url true (Ret tt)]
                ++ cleaned)%list /\
    forallb is_fuse fused = true /\
    forallb is_trailer_call tagged = true /\
    forallb is_cleanup cleaned = true.
Proof.
  intros Hrun.
  unfold update_from_target_branch_and_push in Hrun.
  destruct (option_string_eqb url (repo_remote_url self)); [discriminate|].
  destruct (_ && _); [discriminate|].
  unfold try_finally in Hrun.
  destruct (update_try_except_else env self merge_request url w)
    as [rb wb] eqn:Hbody.
  destruct (update_finally_is_cleanup env merge_request wb) as (dc & Ec & Fc).
  destruct (update_finally env merge_request wb) as [[[]|e] wc]; [|discriminate].
  inversion Hrun; subst; clear Hrun. simpl in Ec.
  unfold update_try_except_else in Hbody.
  destruct (update_try env self merge_request url (no_locals, w))
    as [[[]|exc] [l w1]] eqn:Htry.
  - apply update_else_ret in Hbody. destruct Hbody as (Ht & Hu & Hr & ->).
    unfold update_try in Htry. cbv zeta in Htry.
    apply bind_inv in Htry. destruct Htry as (u0 & [l1 wf] & Hfuse & Htry).
    apply lift_inv in Hfuse. destruct Hfuse as [Hfuse ->].
    rewrite !bind_assign in Htry.
    apply bind_inv in Htry. destruct Htry as (t0 & [l2 wh] & Hhash & Htry).
    apply lift_inv in Hhash. destruct Hhash as [Hhash ->].
    rewrite bind_assign in Htry.
    destruct (String.eqb_spec u0 t0) as [Heq|Hneq]; [discriminate|].
    apply bind_inv in Htry. destruct Htry as (tr & [l3 wt] & Htrail & Htry).
    apply lift_inv in Htrail. destruct Htrail as [Htrail ->].
    rewrite !bind_assign in Htry.
    apply bind_inv in Htry. destruct Htry as ([] & [l4 wp] & Hpush & Htry).
    apply lift_inv in Hpush. destruct Hpush as [Hpush ->].
    inversion Htry; subst; clear Htry.
    cbn in Ht, Hu. inversion Ht; inversion Hu; subst; clear Ht Hu.
    split; [congruence|].
    destruct (fuse_is_fuse (source_branch merge_request)
                (target_branch merge_request) url false w) as (df & Ef & Ff).
    rewrite Hfuse in Ef. simpl in Ef.
    destruct (add_trailers_is_trailer_call merge_request wh) as (dt & Et & Ft).
    rewrite Htrail in Et. simpl in Et.
    apply call_trace in Hhash. apply call_trace in Hpush.
    exists wf, df, dt, dc.
    split; [exact Hfuse|]. split; [exact Ef|].
    split; [|auto].
    rewrite Ec, Hpush, Et, Hhash, Ef, <- !app_assoc. reflexivity.
  - destruct (isinstance exc GitError); [|discriminate].
    destruct (update_except_raises env self merge_request l exc w1) as (e & He).
    rewrite Hbody in He. discriminate.
Qed.

End UpdateEscapes.

(** ** The fuse *)

Section FuseCalls.

Context {S : Type}.
Variable env : Env S.
Variable self : MergeJob.

(** X14: [fuse] makes one call under the strategies [merge] and [rebase],
    and the outcome of that call, a [GitError] included, is its outcome.
    Under [rebase_then_merge] it rebases first and tries the merge exactly
    when the rebase raised a [GitError]: a rebase that returns, or that
    raises anything else, is the outcome and no merge is attempted; with the
    merge attempted, the outcome is the merge's. *)
Theorem fuse_calls
        (source target : string) (url : option string) (local : bool)
        (w w' : World S) (r : Res string) :
  fuse env self source target url local w = (r, w') ->
  match merge_strategy (_options self) with
  | MergeStrategy.merge =>
      trace w' = (trace w ++ [EvMerge source target url local r])%list
  | MergeStrategy.rebase =>
      trace w' = (trace w ++ [EvRebase source target url local r])%list
  | MergeStrategy.rebase_then_merge =>
      (trace w' = (trace w ++ [EvRebase source target url local r])%list /\
       forall e, r = Raise e -> isinstance e GitError = false) \/
      (exists e, isinstance e GitError = true /\
                 trace w' = (trace w ++ [EvRebase source target url local (Raise e);
                                         EvMerge source target url local r])%list)
  end.
Proof.
  unfold fuse.
  destruct (merge_strategy (_options self)).
  - intros H. apply call_trace in H. exact H.
  - intros H. apply call_trace in H. exact H.
  - unfold rebase_then_merge, try_except, rebase, merge, call, raise.
    destruct (repo_rebase env source target url local (ext w)) as [[sha|e] s1].
    + intros H. inversion H; subst. left. split; [reflexivity|discriminate].
    + destruct (isinstance e GitError) eqn:Hgit.
      * cbn [ext trace].
        destruct (repo_merge env source target url local s1) as [[sha|e'] s2].
        -- intros H. inversion H; subst. right. exists e.
           cbn [trace]. rewrite app_one_two. auto.
        -- destruct (isinstance e' GitError); intros H; inversion H; subst;
             right; exists e; cbn [trace]; rewrite app_one_two; auto.
      * intros H. inversion H; subst. left. split; [reflexivity|].
        intros e' He. congruence.
Qed.

End FuseCalls.

(** ** The configuration that [_parse_config] lets through *)

Section ParseConfigMore.

Import App.

Lemma mem_string_in (x : string) (xs : list string) :
  In x xs -> mem_string x xs = true.
Proof.
  intros Hin. unfold mem_string. apply existsb_exists.
  exists x. split; [exact Hin|apply String.eqb_refl].
Qed.

Lemma check_bad_args_ret (bad_args cli_args : list string) (config config' : Config) :
  check_bad_args bad_args cli_args config = Ret config' ->
  config' = config /\
  forallb (fun bad_arg => negb (mem_string bad_arg cli_args)) bad_args = true.
Proof.
  induction bad_args as [|bad_arg rest IH]; simpl.
  - intros H. inversion H. auto.
  - destruct (mem_string bad_arg cli_args); [discriminate|]. exact IH.
Qed.

(** X15: a configuration that [_parse_config] returns never combines the
    strategy [merge] with batch mode or with [add_tested]; its strategy is
    [merge] whenever [--use-merge-strategy] was given, whatever
    [--merge-strategy] says; the other settings are those parsed; and no
    argument of the command line is exactly ['--auth-token'] or exactly
    ['--ssh-key'].  The check compares whole arguments: it says nothing of
    an argument that carries its value, such as ['--auth-token=tok']. *)
Theorem parse_config_returns
        (config : Namespace) (cli_args : list string) (parsed : Config) :
  _parse_config config cli_args = Ret parsed ->
  (config_merge_strategy parsed = MergeStrategy.merge ->
   config_batch parsed = false /\ config_add_tested parsed = false) /\
  (use_merge_strategy config = true ->
   config_merge_strategy parsed = MergeStrategy.merge) /\
  (use_merge_strategy config = false ->
   config_merge_strategy parsed = merge_strategy config) /\
  config_add_tested parsed = add_tested config /\
  config_batch parsed = batch config /\
  config_add_part_of parsed = add_part_of config /\
  config_add_reviewers parsed = add_reviewers config /\
  mem_string "--auth-token" cli_args = false /\
  mem_string "--ssh-key" cli_args = false /\
  (forall arg, In arg cli_args -> arg <> "--auth-token" /\ arg <> "--ssh-key").
Proof.
  unfold _parse_config.
  destruct (MergeStrategy.eqb _ MergeStrategy.merge && batch config) eqn:Hb;
    [discriminate|].
  destruct (MergeStrategy.eqb _ MergeStrategy.merge && add_tested config) eqn:Ht;
    [discriminate|].
  intros H. apply check_bad_args_ret in H. destruct H as [-> Hcli].
  simpl in Hcli.
  destruct (mem_string "--auth-token" cli_args) eqn:Htoken; [discriminate|].
  destruct (mem_string "--ssh-key" cli_args) eqn:Hkey; [discriminate|].
  cbn [config_merge_strategy config_batch config_add_tested config_add_part_of
       config_add_reviewers].
  split.
  { intros Hm. rewrite Hm in Hb, Ht. simpl in Hb, Ht. auto. }
  split; [intros ->; reflexivity|].
  split; [intros ->; reflexivity|].
  do 6 (split; [reflexivity|]).
  intros arg Hin. split; intros ->.
  - apply (mem_string_in "--auth-token") in Hin. congruence.
  - apply (mem_string_in "--ssh-key") in Hin. congruence.
Qed.

End ParseConfigMore.

(** ** Default options *)

Section DefaultOptions.

Context {S : Type}.
Variable env : Env S.
Variable self : MergeJob.

(** X16: [MergeJobOptions.default] takes a [ci_timeout] of zero, like one
    not given, for fifteen minutes, and an [approval_timeout] not given for
    zero; so with options built by it from a [ci_timeout] that is not
    negative, [ci_timeout] is positive, and a timeout of zero does not
    switch the wait off: a wait that ends without having made a call has
    raised 'CI is taking too long.' after [ci_timeout] went by on the clock
    between its first two reads, and a wait whose first test of the clock
    finds less than [ci_timeout] gone does poll. *)
Theorem default_ci_timeout_zero_is_fifteen_minutes
        (empty : IntervalUnion) (kw : DefaultArgs)
        (fuel : nat) (merge_request : MergeRequest) (commit_sha : option string)
        (w w' : World S) (r : Res unit) :
  _options self = default empty kw ->
  (kw_ci_timeout kw = None \/ exists t, kw_ci_timeout kw = Some t /\ 0 <= t) ->
  wait_for_ci_to_pass env self fuel merge_request commit_sha w = Some (r, w') ->
  0 < ci_timeout (_options self) /\
  (kw_ci_timeout kw = None \/ kw_ci_timeout kw = Some 0 ->
   ci_timeout (_options self) = 900000000) /\
  (kw_approval_timeout kw = None -> approval_timeout (_options self) = 0) /\
  exists d,
    trace w' = (trace w ++ d)%list /\
    (d = [] ->
     r = Raise (too_long (_options self)) /\
     ext w' = time_passes env (time_passes env (ext w)) /\
     ci_timeout (_options self)
     <= datetime_utcnow env (ext w')
        - datetime_utcnow env (time_passes env (ext w))) /\
    (datetime_utcnow env (time_passes env (time_passes env (ext w)))
     - datetime_utcnow env (time_passes env (ext w))
     < ci_timeout (_options self) ->
     (0 < polls d)%nat).
Proof.
  intros Hopts Hkw Hrun.
  assert (Hpos : 0 < ci_timeout (_options self)).
  { rewrite Hopts. unfold default. cbn [ci_timeout]. unfold timedelta_or.
    destruct Hkw as [->|(t & -> & Ht)]; [lia|].
    destruct t; lia. }
  split; [exact Hpos|]. split; [|split].
  - rewrite Hopts. unfold default. cbn [ci_timeout].
    intros [->| ->]; reflexivity.
  - rewrite Hopts. unfold default. cbn [approval_timeout].
    intros ->. reflexivity.
  - unfold wait_for_ci_to_pass, utcnow in Hrun.
    fold (awaited merge_request commit_sha) in Hrun.
    destruct (loop_end _ _ _ _ _ _ _ _ _ Hrun) as (rounds & last & E & _ & Hend).
    cbn [ext trace] in E.
    exists (rounds ++ last)%list. split; [exact E|]. split.
    + intros Hd. apply app_eq_nil in Hd. destruct Hd as [-> ->].
      destruct fuel as [|fuel]; [discriminate|].
      cbn [loop] in Hrun.
      destruct Hend as [(_ & Hr & Hpast)
                       |[(pid & b & u & ps & Hl & _)
                        |[(pid & b & u & e & Hl & _)
                         |(pid & b & u & ps & pid' & b' & e & Hl & _)]]];
        try discriminate.
      split; [exact Hr|].
      destruct (wait_for_ci_to_pass_turn env self merge_request
                  (awaited merge_request commit_sha)
                  (datetime_utcnow env (time_passes env (ext w)))
                  (mkWorld (time_passes env (ext w)) (trace w)))
        as [rt w1] eqn:Hturn.
      destruct (Z.lt_ge_cases
                  (datetime_utcnow env (time_passes env (time_passes env (ext w)))
                   - datetime_utcnow env (time_passes env (ext w)))
                  (ci_timeout (_options self))) as [Hin|Hout].
      * exfalso.
        assert (Hloop : loop (Datatypes.S fuel)
                          (wait_for_ci_to_pass_turn env self merge_request
                             (awaited merge_request commit_sha)
                             (datetime_utcnow env (time_passes env (ext w))))
                          (mkWorld (time_passes env (ext w)) (trace w))
                        = Some (r, w'))
          by (cbn [loop]; rewrite Hturn; exact Hrun).
        apply loop_in_time_polls in Hloop; [|exact Hin].
        destruct Hloop as (pid & b & u & listing & rest & E').
        cbn [ext trace] in E'. rewrite E in E'. simpl in E'.
        apply app_inv_head in E'. discriminate.
      * rewrite turn_past_deadline in Hturn by exact Hout.
        inversion Hturn; subst; clear Hturn.
        inversion Hrun; subst; clear Hrun.
        cbn [ext]. split; [reflexivity|exact Hout].
    + intros Hleft.
      apply loop_in_time_polls in Hrun; [|exact Hleft].
      destruct Hrun as (pid & b & u & listing & rest & E').
      cbn [ext trace] in E'. rewrite E in E'. apply app_inv_head in E'.
      rewrite E'. simpl. lia.
Qed.

End DefaultOptions.

(** ** Re-approval *)

Section Reapprove.

Context {S : Type}.
Variable env : Env S.
Variable env2 : Env2 S.
Variable self : MergeJob.
Variable merge_request : MergeRequest.

Lemma count2_app f (a b : list Event2) :
  count2 f (a ++ b) = (count2 f a + count2 f b)%nat.
Proof.
  induction a as [|ev a IH]; simpl; [reflexivity|].
  destruct (f ev); simpl; rewrite IH; reflexivity.
Qed.

Lemma sufficient_approvals_run (w : World2 S) (ra : Res Approvals) (s1 : S) :
  MergeRequest_fetch_approvals env merge_request (ext2 w) = (ra, s1) ->
  sufficient_approvals env merge_request w
  = (match ra with
     | Ret approvals => Ret (sufficient approvals)
     | Raise e => Raise e
     end,
     mkWorld2 s1 (trace2 w ++ [Ev (EvFetchApprovals ra)])).
Proof.
  intros H. unfold sufficient_approvals, old, fetch_approvals, call, bind, ret.
  cbn [ext trace]. rewrite H. destruct ra; reflexivity.
Qed.

(** What one turn of the polling loop does. *)
Lemma reapprove_turn_run (time_0 : Z) (w : World2 S) (ra : Res Approvals) (s1 : S) :
  MergeRequest_fetch_approvals env merge_request (ext2 w) = (ra, s1) ->
  let w1 := mkWorld2 s1 (trace2 w ++ [Ev (EvFetchApprovals ra)]) in
  maybe_reapprove_turn env self merge_request time_0 w =
    match ra with
    | Raise e => (Raise e, w1)
    | Ret approvals =>
        if sufficient approvals then
          if datetime_utcnow env (time_passes env s1) - time_0
             <? approval_timeout (_options self) then
            (Ret None,
             mkWorld2 (time_sleep env 5 (time_passes env s1))
               (trace2 w ++ [Ev (EvFetchApprovals ra); Ev (EvSleep 5)]))
          else (Ret (Some tt),
                mkWorld2 (time_passes env s1)
                  (trace2 w ++ [Ev (EvFetchApprovals ra)]))
        else (Ret (Some tt), w1)
    end.
Proof.
  intros H w1. unfold maybe_reapprove_turn. unfold bind at 1.
  rewrite (sufficient_approvals_run w ra s1 H). fold w1.
  destruct ra as [approvals|e]; [|reflexivity].
  destruct (sufficient approvals); [|reflexivity].
  unfold old, utcnow, sleep, bind, ret, reapprove_waiting_time_in_secs.
  cbn [ext trace ext2 trace2 map]. subst w1. cbn [ext2 trace2].
  destruct (_ <? _); rewrite ?app_nil_r; [|reflexivity].
  cbn [ext ext2 trace trace2 map]. rewrite <- app_assoc. reflexivity.
Qed.

(** The polling loop only fetches the approvals and sleeps five seconds
    after each fetch that shows them sufficient within the deadline. *)
Lemma reapprove_loop_spec (time_0 : Z) (fuel : nat) (w w' : World2 S) (r : Res unit) :
  approvals_clock_forward env ->
  loop fuel (maybe_reapprove_turn env self merge_request time_0) w = Some (r, w') ->
  exists d,
    trace2 w' = (trace2 w ++ d)%list /\
    forallb reapprove_poll_call d = true /\
    (count2 is_sleep2 d = O \/
     (datetime_utcnow env (ext2 w) - time_0)
     + (Z.of_nat (count2 is_sleep2 d) - 1) * 5000000
     < approval_timeout (_options self)).
Proof.
  intros (Hsleep & Hfetch & Hread). revert w.
  induction fuel as [|fuel IH]; intros w; [discriminate|].
  cbn [loop].
  pose proof (Hfetch merge_request (ext2 w)) as Hf.
  destruct (MergeRequest_fetch_approvals env merge_request (ext2 w))
    as [ra s1] eqn:Hra. simpl in Hf.
  rewrite (reapprove_turn_run time_0 w ra s1 Hra). cbv zeta.
  destruct ra as [approvals|e].
  2:{ intros H. inversion H; subst. exists [Ev (EvFetchApprovals (Raise e))].
      simpl. auto. }
  destruct (sufficient approvals).
  2:{ intros H. inversion H; subst. exists [Ev (EvFetchApprovals (Ret approvals))].
      simpl. auto. }
  pose proof (Hread s1) as Hr.
  destruct (Z.ltb_spec (datetime_utcnow env (time_passes env s1) - time_0)
                       (approval_timeout (_options self))) as [Hin|Hout].
  2:{ intros H. inversion H; subst. exists [Ev (EvFetchApprovals (Ret approvals))].
      simpl. auto. }
  intros H. apply IH in H. destruct H as (d & E & F & Hb).
  cbn [ext2 trace2] in E, Hb.
  exists ([Ev (EvFetchApprovals (Ret approvals)); Ev (EvSleep 5)] ++ d)%list.
  split; [rewrite E, <- app_assoc; reflexivity|].
  split; [simpl; exact F|].
  right. rewrite count2_app. simpl count2 at 1.
  pose proof (Hsleep 5 (time_passes env s1) ltac:(lia)) as Hs.
  destruct Hb as [Hz|Hb]; [rewrite Hz; simpl; lia|].
  rewrite Nat2Z.inj_add. simpl Z.of_nat at 1. lia.
Qed.

Lemma reapprove_loop_terminates (time_0 : Z) (fuel : nat) (w : World2 S) :
  approvals_clock_forward env ->
  approval_timeout (_options self) - (datetime_utcnow env (ext2 w) - time_0)
  <= Z.of_nat fuel * 5000000 ->
  exists res,
    loop (Datatypes.S fuel) (maybe_reapprove_turn env self merge_request time_0) w
    = Some res.
Proof.
  intros (Hsleep & Hfetch & Hread). revert w.
  induction fuel as [|fuel IH]; intros w Hleft; cbn [loop].
  - pose proof (Hfetch merge_request (ext2 w)) as Hf.
    destruct (MergeRequest_fetch_approvals env merge_request (ext2 w))
      as [ra s1] eqn:Hra. simpl in Hf.
    rewrite (reapprove_turn_run time_0 w ra s1 Hra). cbv zeta.
    destruct ra as [approvals|e]; [|eauto].
    destruct (sufficient approvals); [|eauto].
    pose proof (Hread s1) as Hr.
    destruct (Z.ltb_spec (datetime_utcnow env (time_passes env s1) - time_0)
                         (approval_timeout (_options self))); [|eauto].
    simpl in Hleft. lia.
  - pose proof (Hfetch merge_request (ext2 w)) as Hf.
    destruct (MergeRequest_fetch_approvals env merge_request (ext2 w))
      as [ra s1] eqn:Hra. simpl in Hf.
    rewrite (reapprove_turn_run time_0 w ra s1 Hra). cbv zeta.
    destruct ra as [approvals|e]; [|eauto].
    destruct (sufficient approvals); [|eauto].
    pose proof (Hread s1) as Hr.
    destruct (Z.ltb_spec (datetime_utcnow env (time_passes env s1) - time_0)
                         (approval_timeout (_options self))); [|eauto].
    apply IH. cbn [ext2].
    pose proof (Hsleep 5 (time_passes env s1) ltac:(lia)). lia.
Qed.

End Reapprove.

Section ReapproveClaims.

Context {S : Type}.
Variable env : Env S.
Variable env2 : Env2 S.
Variable self : MergeJob.
Variable merge_request : MergeRequest.

Lemma loop_fuel_mono {St A} (body : M St (option A)) (fuel fuel' : nat)
      (st : St) (res : Res A * St) :
  (fuel <= fuel')%nat -> loop fuel body st = Some res -> loop fuel' body st = Some res.
Proof.
  revert fuel' st. induction fuel as [|fuel IH]; intros fuel' st Hle; [discriminate|].
  destruct fuel' as [|fuel']; [lia|]. simpl.
  destruct (body st) as [[[a|]|e] st1]; auto.
  apply IH. lia.
Qed.

Lemma reapprove_loop_calls (time_0 : Z) (fuel : nat) (w w' : World2 S) (r : Res unit) :
  loop fuel (maybe_reapprove_turn env self merge_request time_0) w = Some (r, w') ->
  exists d,
    trace2 w' = (trace2 w ++ d)%list /\ forallb reapprove_poll_call d = true.
Proof.
  revert w. induction fuel as [|fuel IH]; intros w; [discriminate|].
  cbn [loop].
  destruct (MergeRequest_fetch_approvals env merge_request (ext2 w))
    as [ra s1] eqn:Hra.
  rewrite (reapprove_turn_run env self merge_request time_0 w ra s1 Hra). cbv zeta.
  destruct ra as [approvals|e].
  2:{ intros H. inversion H; subst. exists [Ev (EvFetchApprovals (Raise e))].
      simpl. auto. }
  destruct (sufficient approvals).
  2:{ intros H. inversion H; subst. exists [Ev (EvFetchApprovals (Ret approvals))].
      simpl. auto. }
  destruct (_ <? _).
  2:{ intros H. inversion H; subst. exists [Ev (EvFetchApprovals (Ret approvals))].
      simpl. auto. }
  intros H. apply IH in H. destruct H as (d & E & F).
  cbn [ext2 trace2] in E.
  exists ([Ev (EvFetchApprovals (Ret approvals)); Ev (EvSleep 5)] ++ d)%list.
  split; [rewrite E, <- app_assoc; reflexivity|]. simpl. exact F.
Qed.

Lemma poll_calls_no_reapprove (d : list Event2) :
  forallb reapprove_poll_call d = true -> count2 is_reapprove d = O.
Proof.
  induction d as [|ev d IH]; simpl; [reflexivity|].
  intros H. apply andb_true_iff in H. destruct H as [Hev Hd].
  destruct ev as [[]| | | | |]; simpl in *; try discriminate; auto.
Qed.

(** The last step of [maybe_reapprove]: one more fetch, and the re-approval
    when it shows the approvals insufficient. *)
Lemma reapprove_last_step (approvals : Approvals) (w w' : World2 S) (r : Res unit) :
  (still_sufficient <- sufficient_approvals env merge_request ;;
   if negb still_sufficient then
     call2 (Approvals_reapprove env2 approvals) (EvReapprove approvals)
   else ret tt)%job w = (r, w') ->
  (exists ra, trace2 w' = (trace2 w ++ [Ev (EvFetchApprovals ra)])%list /\
              match ra with
              | Ret ap => sufficient ap = true /\ r = Ret tt
              | Raise e => r = Raise e
              end) \/
  (exists ap, trace2 w' = (trace2 w ++ [Ev (EvFetchApprovals (Ret ap));
                                        EvReapprove approvals r])%list /\
              sufficient ap = false).
Proof.
  unfold bind at 1.
  destruct (MergeRequest_fetch_approvals env merge_request (ext2 w))
    as [ra s1] eqn:Hra.
  rewrite (sufficient_approvals_run env merge_request w ra s1 Hra).
  destruct ra as [ap|e].
  - destruct (sufficient ap) eqn:Hs; cbn [negb].
    + intros H. inversion H; subst. left. exists (Ret ap). auto.
    + unfold call2. cbn [ext2 trace2].
      destruct (Approvals_reapprove env2 approvals s1) as [rr s2].
      intros H. inversion H; subst. right. exists ap. cbn [trace2].
      rewrite <- app_assoc. auto.
  - intros H. inversion H; subst. left. exists (Raise e). auto.
Qed.

(** X17: [maybe_reapprove] re-approves at most once, as its last call, and
    only right after a fetch of the approvals that showed them insufficient:
    never on approvals still in place, and never before the polling is
    over.  Its outcome is then that of the re-approval.  When the option
    [reapprove] is not set it makes no call at all. *)
Theorem maybe_reapprove_guarded
        (fuel : nat) (approvals : Approvals) (w w' : World2 S) (r : Res unit) :
  maybe_reapprove env env2 self fuel merge_request approvals w = Some (r, w') ->
  exists d,
    trace2 w' = (trace2 w ++ d)%list /\
    (reapprove (_options self) = false -> d = [] /\ r = Ret tt) /\
    (count2 is_reapprove d = O \/
     exists before ap,
       d = (before ++ [Ev (EvFetchApprovals (Ret ap));
                       EvReapprove approvals r])%list /\
       sufficient ap = false /\
       count2 is_reapprove before = O).
Proof.
  unfold maybe_reapprove.
  destruct (reapprove (_options self)).
  2:{ intros H. inversion H; subst. exists []. rewrite app_nil_r. auto. }
  unfold old at 1, utcnow. cbn [ext trace map].
  destruct (loop fuel _ _) as [[[u|e] w1]|] eqn:Hloop; [| |discriminate].
  - apply reapprove_loop_calls in Hloop. destruct Hloop as (d1 & E1 & F1).
    cbn [trace2] in E1. rewrite app_nil_r in E1.
    apply poll_calls_no_reapprove in F1.
    intros H. inversion H as [Hlast]; clear H.
    destruct (bind _ _ w1) as [r2 w2] eqn:Hstep in Hlast.
    inversion Hlast; subst; clear Hlast.
    apply reapprove_last_step in Hstep.
    destruct Hstep as [(ra & E2 & _)|(ap & E2 & Hs)].
    + exists (d1 ++ [Ev (EvFetchApprovals ra)])%list.
      split; [rewrite E2, E1, <- app_assoc; reflexivity|].
      split; [discriminate|]. left.
      rewrite count2_app, F1. reflexivity.
    + exists (d1 ++ [Ev (EvFetchApprovals (Ret ap)); EvReapprove approvals r])%list.
      split; [rewrite E2, E1, <- app_assoc; reflexivity|].
      split; [discriminate|]. right. exists d1, ap. auto.
  - apply reapprove_loop_calls in Hloop. destruct Hloop as (d1 & E1 & F1).
    cbn [trace2] in E1. rewrite app_nil_r in E1.
    apply poll_calls_no_reapprove in F1.
    intros H. inversion H; subst. exists d1. split; [exact E1|].
    split; [discriminate|]. left. exact F1.
Qed.

(** X18: with a clock that moves forward, [maybe_reapprove] ends within
    [enough_reapprove_turns] turns of its loop.  Its polling only fetches
    the approvals and sleeps five seconds at a time, each sleep begun
    within [approval_timeout] of the start, so that there are no more
    sleeps than five-second steps fit into [approval_timeout]; with an
    [approval_timeout] of zero or less it never sleeps. *)
Theorem maybe_reapprove_sleeps
        (fuel : nat) (approvals : Approvals) (w : World2 S) :
  approvals_clock_forward env ->
  (enough_reapprove_turns (_options self) <= fuel)%nat ->
  exists r w' d,
    maybe_reapprove env env2 self fuel merge_request approvals w = Some (r, w') /\
    trace2 w' = (trace2 w ++ d)%list /\
    forallb (fun ev => reapprove_poll_call ev || is_reapprove ev) d = true /\
    (count2 is_sleep2 d = O \/
     (Z.of_nat (count2 is_sleep2 d) - 1) * 5000000
     < approval_timeout (_options self)) /\
    (approval_timeout (_options self) <= 0 -> count2 is_sleep2 d = O).
Proof.
  intros Hclock Hfuel. unfold maybe_reapprove.
  destruct (reapprove (_options self)).
  2:{ exists (Ret tt), w, []. rewrite app_nil_r. simpl. auto 6. }
  unfold old at 1, utcnow. cbn [ext trace map].
  set (w0 := mkWorld2 (time_passes env (ext2 w)) (trace2 w ++ [])).
  set (time_0 := datetime_utcnow env (time_passes env (ext2 w))).
  destruct (reapprove_loop_terminates env self merge_request
              time_0
              (Nat.pred (enough_reapprove_turns (_options self))) w0 Hclock)
    as ([r1 w1] & Hloop).
  { unfold enough_reapprove_turns, reapprove_waiting_time_in_secs. cbn [Nat.pred].
    subst w0 time_0. cbn [ext2].
    set (t := approval_timeout (_options self)).
    rewrite Nat2Z.inj_succ.
    destruct (Z.le_gt_cases 0 t) as [Hpos|Hneg].
    - rewrite Z2Nat.id by (apply Z.div_pos; lia).
      pose proof (Z.mod_pos_bound t (5 * 1000000) ltac:(lia)).
      pose proof (Z.div_mod t (5 * 1000000) ltac:(lia)). lia.
    - assert (0 <= Z.of_nat (Z.to_nat (t / (5 * 1000000)))) by lia. lia. }
  change (Datatypes.S (Nat.pred (enough_reapprove_turns (_options self))))
    with (enough_reapprove_turns (_options self)) in Hloop.
  assert (Hloop' : loop fuel
                     (maybe_reapprove_turn env self merge_request time_0) w0
                   = Some (r1, w1)).
  { apply (loop_fuel_mono _ _ _ _ _ Hfuel Hloop). }
  rewrite Hloop'.
  apply reapprove_loop_spec in Hloop'; [|exact Hclock].
  destruct Hloop' as (d1 & E1 & F1 & B1).
  subst w0 time_0. cbn [ext2 trace2] in E1, B1. rewrite app_nil_r in E1.
  assert (B1' : count2 is_sleep2 d1 = O \/
                (Z.of_nat (count2 is_sleep2 d1) - 1) * 5000000
                < approval_timeout (_options self)).
  { destruct B1 as [Hz|Hb]; [auto|right; lia]. }
  assert (B1'' : approval_timeout (_options self) <= 0 -> count2 is_sleep2 d1 = O).
  { intros Hzero. destruct B1' as [Hz|Hb]; [exact Hz|lia]. }
  assert (F1' : forallb (fun ev => reapprove_poll_call ev || is_reapprove ev) d1 = true).
  { revert F1. apply forallb_impl. intros ev ->. reflexivity. }
  destruct r1 as [u|e].
  - destruct (bind _ _ w1) as [r2 w2] eqn:Hstep.
    exists r2, w2.
    apply reapprove_last_step in Hstep.
    destruct Hstep as [(ra & E2 & _)|(ap & E2 & Hs)].
    + exists (d1 ++ [Ev (EvFetchApprovals ra)])%list.
      split; [reflexivity|].
      split; [rewrite E2, E1, <- app_assoc; reflexivity|].
      split; [rewrite forallb_app, F1'; reflexivity|].
      rewrite count2_app. simpl. rewrite Nat.add_0_r. auto.
    + exists (d1 ++ [Ev (EvFetchApprovals (Ret ap)); EvReapprove approvals r2])%list.
      split; [reflexivity|].
      split; [rewrite E2, E1, <- app_assoc; reflexivity|].
      split; [rewrite forallb_app, F1'; reflexivity|].
      rewrite count2_app. simpl. rewrite Nat.add_0_r. auto.
  - exists (Raise e), w1, d1. auto 6.
Qed.

End ReapproveClaims.

(** ** Unassignment and the source project *)

Section AssignmentAndForks.

Context {S : Type}.
Variable env2 : Env2 S.
Variable self : MergeJob.

(** X19: [unassign_from_mr] makes exactly one call, whose outcome is its
    own: it assigns the request to its author when the author is not the
    bot, and removes the assignee when the bot is the author.  It never
    assigns the request to the bot. *)
Theorem unassign_from_mr_never_to_bot
        (merge_request : MergeRequest) (w w' : World2 S) (r : Res unit) :
  unassign_from_mr env2 self merge_request w = (r, w') ->
  (author_id merge_request <> user_id (_user self) /\
   trace2 w' = (trace2 w ++ [EvAssignTo (author_id merge_request) r])%list) \/
  (author_id merge_request = user_id (_user self) /\
   trace2 w' = (trace2 w ++ [EvUnassign r])%list).
Proof.
  unfold unassign_from_mr, call2. cbv zeta.
  destruct (Z.eqb_spec (author_id merge_request) (user_id (_user self)))
    as [Heq|Hneq]; cbn [negb].
  - destruct (MergeRequest_unassign env2 merge_request (ext2 w)) as [r0 s1].
    intros H. inversion H; subst. right. auto.
  - destruct (MergeRequest_assign_to env2 merge_request _ (ext2 w)) as [r0 s1].
    intros H. inversion H; subst. left. auto.
Qed.

(** X20: [fetch_source_project] makes no call for a request from the
    project itself: it answers the project, no URL and the remote
    [origin].  For a request from a fork it looks the source
    project up and fetches the remote [source] at the SSH URL of that
    project, which is the URL it answers; when the lookup raises, nothing is
    fetched. *)
Theorem fetch_source_project_calls
        (merge_request : MergeRequest) (w w' : World2 S)
        (r : Res (ProjectRef * option string * string)) :
  fetch_source_project env2 self merge_request w = (r, w') ->
  (source_project_id merge_request = project_id (_project self) /\
   r = Ret (the_project, None, "origin") /\ w' = w) \/
  (source_project_id merge_request <> project_id (_project self) /\
   ((exists e,
       r = Raise e /\
       trace2 w' = (trace2 w ++ [EvProjectFetchById (source_project_id merge_request)
                                   (Raise e)])%list) \/
    (exists p fetched,
       trace2 w' = (trace2 w ++ [EvProjectFetchById (source_project_id merge_request)
                                   (Ret p);
                                 EvFetch "source" (ssh_url_to_repo p) fetched])%list /\
       match fetched with
       | Ret _ => r = Ret (another p, Some (ssh_url_to_repo p), "source")
       | Raise e => r = Raise e
       end))).
Proof.
  unfold fetch_source_project, get_source_project, call2, bind, ret.
  destruct (Z.eqb_spec (source_project_id merge_request) (project_id (_project self)))
    as [Heq|Hneq]; cbn [negb].
  - intros H. inversion H; subst. left.
    repeat split; try assumption.
  - intros Hrun. right. split; [exact Hneq|]. revert Hrun.
    destruct (Project_fetch_by_id env2 _ (ext2 w)) as [[p|e] s1]; cbn [ext2 trace2].
    + destruct (repo_fetch env2 "source" (ssh_url_to_repo p) s1) as [[[]|e] s2];
        intros Hrun; inversion Hrun; subst; right; exists p; eexists;
        cbn [trace2]; rewrite <- app_assoc; split; reflexivity.
    + intros Hrun. inversion Hrun; subst. left. exists e. auto.
Qed.

End AssignmentAndForks.

(** ** Worked runs *)

Lemma ensure_mergeable_mr_pass_witness :
  exists w',
    ensure_mergeable_mr (Fake.env Fake.happy) (Fake.job Fake.options) Fake.mr42
      Fake.world0 = (Ret Fake.mr42, w') /\
    exists approvals s1 s2,
      MergeRequest_refetch_info (Fake.env Fake.happy) Fake.mr42 (ext Fake.world0)
      = (Ret Fake.mr42, s1) /\
      MergeRequest_fetch_approvals (Fake.env Fake.happy) Fake.mr42 s1
      = (Ret approvals, s2) /\
      ext w' = time_passes (Fake.env Fake.happy) s2 /\
      trace w' = (trace Fake.world0 ++ [EvRefetchInfo (Ret Fake.mr42);
                                        EvFetchApprovals (Ret approvals)])%list /\
      work_in_progress Fake.mr42 = false /\
      squash Fake.mr42 && requests_commit_tagging (_options (Fake.job Fake.options))
      = false /\
      sufficient approvals = true /\
      mem_string (state Fake.mr42) ["opened"; "reopened"; "locked"] = true /\
      embargo (_options (Fake.job Fake.options))
        (datetime_utcnow (Fake.env Fake.happy) (ext w')) = false /\
      mem_Z (user_id (_user (Fake.job Fake.options))) (assignee_ids Fake.mr42) = true.
Proof.
  eexists. split; [vm_compute; reflexivity|].
  eapply (ensure_mergeable_mr_pass (Fake.env Fake.happy) (Fake.job Fake.options)
            Fake.mr42 Fake.mr42 Fake.world0).
  vm_compute. reflexivity.
Defined.

Lemma ensure_mergeable_mr_calls_witness :
  exists r w',
    ensure_mergeable_mr (Fake.env Fake.happy) (Fake.job Fake.options) Fake.wip_mr
      Fake.world0 = (r, w') /\
    ((exists e, trace w' = (trace Fake.world0 ++ [EvRefetchInfo (Raise e)])%list /\
                r = Raise e) \/
     (exists mr, trace w' = (trace Fake.world0 ++ [EvRefetchInfo (Ret mr)])%list /\
                 work_in_progress mr
                 || squash mr && requests_commit_tagging (_options (Fake.job Fake.options))
                 = true /\
                 exists why, r = Raise (new CannotMerge why)) \/
     (exists mr approvals,
         trace w' = (trace Fake.world0 ++ [EvRefetchInfo (Ret mr);
                                           EvFetchApprovals approvals])%list /\
         work_in_progress mr
         || squash mr && requests_commit_tagging (_options (Fake.job Fake.options))
         = false /\
         forall e, approvals = Raise e -> r = Raise e)).
Proof.
  eexists. eexists. split; [vm_compute; reflexivity|].
  eapply (ensure_mergeable_mr_calls (Fake.env Fake.happy) (Fake.job Fake.options)
            Fake.wip_mr Fake.world0).
  vm_compute. reflexivity.
Defined.

Lemma get_mr_ci_status_first_listed_witness :
  exists ci_status,
    get_mr_ci_status (Fake.env Fake.ci_passed) (Fake.job Fake.options) Fake.mr42
      (Some "r9") false Fake.world0
    = (Ret ci_status,
       mkWorld (Fake.mkForge 0 [])
         (trace Fake.world0
          ++ [EvPipelinesByBranch (source_project_id Fake.mr42)
                (source_branch Fake.mr42) None
                (Ret [mkPipeline 6 "r9" "success"; mkPipeline 5 "r9" "failed"])])) /\
    (ci_status = None <->
     forallb (fun p => negb (String.eqb (pipeline_sha p) "r9"))
       [mkPipeline 6 "r9" "success"; mkPipeline 5 "r9" "failed"] = true) /\
    (forall st, ci_status = Some st ->
       exists before p after,
         [mkPipeline 6 "r9" "success"; mkPipeline 5 "r9" "failed"]
         = (before ++ p :: after)%list /\
         pipeline_sha p = "r9" /\ status p = st /\
         forallb (fun q => negb (String.eqb (pipeline_sha q) "r9")) before = true).
Proof.
  apply (get_mr_ci_status_first_listed (Fake.env Fake.ci_passed)
           (Fake.job Fake.options) Fake.mr42 (Some "r9") false Fake.world0
           [mkPipeline 6 "r9" "success"; mkPipeline 5 "r9" "failed"]
           (Fake.mkForge 0 [])).
  reflexivity.
Defined.

Lemma wait_for_ci_to_pass_returns_on_success_witness :
  exists w',
    wait_for_ci_to_pass (Fake.env Fake.ci_passed) (Fake.job Fake.options) 5
      Fake.mr42 (Some "r9") Fake.world0 = Some (Ret tt, w') /\
    exists rounds pid b u pipelines,
      trace w' = (trace Fake.world0 ++ rounds
                  ++ [EvPipelinesByBranch pid b u (Ret pipelines)])%list /\
      nothing_resolved "r9" rounds = true /\
      (listed_status "r9" pipelines = Some "success" \/
       listed_status "r9" pipelines = Some "skipped").
Proof.
  eexists. split; [vm_compute; reflexivity|].
  eapply (wait_for_ci_to_pass_returns_on_success (Fake.env Fake.ci_passed)
            (Fake.job Fake.options) 5 Fake.mr42 (Some "r9") Fake.world0).
  vm_compute. reflexivity.
Defined.

Lemma wait_for_ci_to_pass_ends_witness :
  exists r w',
    wait_for_ci_to_pass (Fake.env Fake.ci_running) (Fake.job Fake.ci_skip) 5
      Fake.mr42 (Some "r9") Fake.world0 = Some (r, w') /\
    exists rounds last,
      trace w' = (trace Fake.world0 ++ rounds ++ last)%list /\
      nothing_resolved "r9" rounds = true /\
      wait_end Fake.ci_skip "r9"
        (Fake.clock (ext w') - Fake.clock (ext Fake.world0)) last r.
Proof.
  eexists. eexists. split; [vm_compute; reflexivity|].
  eapply (wait_for_ci_to_pass_ends (Fake.env Fake.ci_running)
            (Fake.job Fake.ci_skip) 5 Fake.mr42 (Some "r9") Fake.world0).
  vm_compute. reflexivity.
Defined.

Lemma wait_for_ci_to_pass_poll_bound_witness :
  clock_moves_forward (Fake.env Fake.ci_running) /\
  (enough_turns (_options (Fake.job Fake.ci_skip)) <= 5)%nat /\
  exists r w' d,
    wait_for_ci_to_pass (Fake.env Fake.ci_running) (Fake.job Fake.ci_skip) 5
      Fake.mr42 (Some "r9") Fake.world0 = Some (r, w') /\
    trace w' = (trace Fake.world0 ++ d)%list /\
    (polls d = O \/
     (Z.of_nat (polls d) - 1) * 10000000 < ci_timeout (_options (Fake.job Fake.ci_skip))) /\
    (ci_timeout (_options (Fake.job Fake.ci_skip)) <= 0 ->
     d = [] /\ r = Raise (too_long (_options (Fake.job Fake.ci_skip)))).
Proof.
  assert (Hclock : clock_moves_forward (Fake.env Fake.ci_running))
    by (repeat split; intros; simpl; lia).
  assert (Hfuel : (enough_turns (_options (Fake.job Fake.ci_skip)) <= 5)%nat)
    by (vm_compute; lia).
  split; [exact Hclock|]. split; [exact Hfuel|].
  exact (wait_for_ci_to_pass_poll_bound (Fake.env Fake.ci_running)
           (Fake.job Fake.ci_skip) 5 Fake.mr42 (Some "r9") Fake.world0 Hclock Hfuel).
Defined.

Lemma wait_for_ci_to_pass_calls_witness :
  exists r w',
    wait_for_ci_to_pass (Fake.env Fake.happy) (Fake.job Fake.ci_by_me) 5
      Fake.mr42 None Fake.world0 = Some (r, w') /\
    exists d,
      trace w' = (trace Fake.world0 ++ d)%list /\
      forallb (ci_call_on (Fake.job Fake.ci_by_me) Fake.mr42) d = true.
Proof.
  eexists. eexists. split; [vm_compute; reflexivity|].
  eapply (wait_for_ci_to_pass_calls (Fake.env Fake.happy)
            (Fake.job Fake.ci_by_me) 5 Fake.mr42 None Fake.world0).
  vm_compute. reflexivity.
Defined.

Lemma reviewer_names_and_emails_witness :
  (exists w',
     _get_reviewer_names_and_emails (Fake.env Fake.happy)
       (mkApprovals true [11; 11] "['alice']" "0") Fake.world0
     = (Ret ["Alice <alice@example.com>"; "Alice <alice@example.com>"], w') /\
     exists users,
       List.length users = 2%nat /\
       ["Alice <alice@example.com>"; "Alice <alice@example.com>"]
       = map (fun u => user_name u ++ " <" ++ email u ++ ">") users /\
       trace w' = (trace Fake.world0 ++ reviewer_lookups [11; 11] users)%list) /\
  (exists w',
     _get_reviewer_names_and_emails (Fake.env Fake2.second_unknown)
       (mkApprovals true [11; 12; 13] "['alice', 'bob', 'carol']" "0") Fake.world0
     = (Raise (new Exception "404 User Not Found"), w') /\
     exists looked_up uid rest users,
       [11; 12; 13] = (looked_up ++ uid :: rest)%list /\
       List.length users = List.length looked_up /\
       trace w' = (trace Fake.world0 ++ reviewer_lookups looked_up users
                   ++ [EvUserFetchById uid
                         (Raise (new Exception "404 User Not Found"))])%list).
Proof.
  split.
  - eexists. split; [vm_compute; reflexivity|].
    eapply (reviewer_names_and_emails (Fake.env Fake.happy)
              (mkApprovals true [11; 11] "['alice']" "0") Fake.world0 _
              (Ret ["Alice <alice@example.com>"; "Alice <alice@example.com>"])).
    vm_compute. reflexivity.
  - eexists. split; [vm_compute; reflexivity|].
    eapply (reviewer_names_and_emails (Fake.env Fake2.second_unknown)
              (mkApprovals true [11; 12; 13] "['alice', 'bob', 'carol']" "0")
              Fake.world0 _ (Raise (new Exception "404 User Not Found"))).
    vm_compute. reflexivity.
Defined.

Lemma update_fuse_failure_witness :
  exists w2,
    update_from_target_branch_and_push (Fake.env Fake.both_fail)
      (Fake.job Fake.options) Fake.mr42 None Fake.world0
    = (Raise (new CannotMerge "got conflicts while rebasing, your problem now..."), w2).
Proof.
  eexists.
  eapply (proj2 (update_fuse_failure (Fake.env Fake.both_fail)
                   (Fake.job Fake.options) Fake.mr42 None Fake.world0
                   (snd (fuse (Fake.env Fake.both_fail) (Fake.job Fake.options)
                           "feature/x" "main" None false Fake.world0))
                   (new GitError "rebase conflict") eq_refl eq_refl)).
  vm_compute. reflexivity.
Defined.

Lemma update_git_error_before_rewrite_witness :
  exists err w3,
    exn_class err = UnboundLocalError /\
    update_from_target_branch_and_push (Fake.env Fake.tagging_fails)
      (Fake.job Fake.with_part_of) Fake.mr42 None Fake.world0
    = (Raise err, w3).
Proof.
  pose (env := Fake.env Fake.tagging_fails).
  pose (self := Fake.job Fake.with_part_of).
  pose (w1 := snd (fuse env self "feature/x" "main" None false Fake.world0)).
  pose (wh := snd (get_commit_hash env "origin/main" w1)).
  pose (w2 := snd (add_trailers env self Fake.mr42 wh)).
  destruct (update_git_error_before_rewrite env self Fake.mr42 None Fake.world0
              w1 w2 "u1" (new GitError "filter-branch failed"))
    as (err & Hclass & _ & Hrun).
  - reflexivity.
  - reflexivity.
  - right. exists "t0", wh.
    split; [reflexivity|]. split; [discriminate|reflexivity].
  - reflexivity.
  - exists err. eexists. split; [exact Hclass|].
    apply Hrun. vm_compute. reflexivity.
Defined.

Lemma update_git_error_escapes_only_from_lookup_or_cleanup_witness :
  exists w',
    update_from_target_branch_and_push (Fake.env Fake2.cleanup_fails)
      (Fake.job Fake.options) Fake.mr42 None Fake.world0
    = (Raise (new GitError "checkout failed"), w') /\
    exists d ev,
      trace w' = (trace Fake.world0 ++ d)%list /\
      In ev d /\
      event_raised ev = Some (new GitError "checkout failed") /\
      is_cleanup ev || is_branch_lookup ev = true.
Proof.
  eexists. split; [vm_compute; reflexivity|].
  eapply (update_git_error_escapes_only_from_lookup_or_cleanup
            (Fake.env Fake2.cleanup_fails) (Fake.job Fake.options) Fake.mr42 None
            Fake.world0).
  - vm_compute. reflexivity.
  - reflexivity.
Defined.

Lemma update_success_calls_witness :
  exists w',
    update_from_target_branch_and_push (Fake.env Fake.happy)
      (Fake.job Fake.with_all_trailers) Fake.mr42 None Fake.world0
    = (Ret ("t0", "u1", "sha-Part-of"), w') /\
    "t0" <> "u1" /\
    exists wf fused tagged cleaned,
      fuse (Fake.env Fake.happy) (Fake.job Fake.with_all_trailers)
        "feature/x" "main" None false Fake.world0 = (Ret "u1", wf) /\
      trace wf = (trace Fake.world0 ++ fused)%list /\
      trace w' = (trace Fake.world0 ++ fused
                  ++ [EvGetCommitHash "origin/main" (Ret "t0")]
                  ++ tagged
                  ++ [EvPush "feature/x" None true (Ret tt)]
                  ++ cleaned)%list /\
      forallb is_fuse fused = true /\
      forallb is_trailer_call tagged = true /\
      forallb is_cleanup cleaned = true.
Proof.
  eexists. split; [vm_compute; reflexivity|].
  eapply (update_success_calls (Fake.env Fake.happy)
            (Fake.job Fake.with_all_trailers) Fake.mr42 None Fake.world0).
  vm_compute. reflexivity.
Defined.

Lemma fuse_calls_witness :
  exists r w',
    fuse (Fake.env Fake.both_fail) (Fake.job Fake2.rebase_or_merge)
      "feature/x" "main" None false Fake.world0 = (r, w') /\
    ((trace w' = (trace Fake.world0
                  ++ [EvRebase "feature/x" "main" None false r])%list /\
      forall e, r = Raise e -> isinstance e GitError = false) \/
     (exists e, isinstance e GitError = true /\
                trace w' = (trace Fake.world0
                            ++ [EvRebase "feature/x" "main" None false (Raise e);
                                EvMerge "feature/x" "main" None false r])%list)).
Proof.
  eexists. eexists. split; [vm_compute; reflexivity|].
  eapply (fuse_calls (Fake.env Fake.both_fail) (Fake.job Fake2.rebase_or_merge)
            "feature/x" "main" None false Fake.world0).
  vm_compute. reflexivity.
Defined.

Lemma parse_config_returns_witness :
  exists parsed,
    App._parse_config Fake2.parsed_args Fake2.command_line = Ret parsed /\
    In "--auth-token=tok" Fake2.command_line /\
    (App.config_merge_strategy parsed = MergeStrategy.merge ->
     App.config_batch parsed = false /\ App.config_add_tested parsed = false) /\
    (App.use_merge_strategy Fake2.parsed_args = true ->
     App.config_merge_strategy parsed = MergeStrategy.merge) /\
    (App.use_merge_strategy Fake2.parsed_args = false ->
     App.config_merge_strategy parsed = App.merge_strategy Fake2.parsed_args) /\
    App.config_add_tested parsed = App.add_tested Fake2.parsed_args /\
    App.config_batch parsed = App.batch Fake2.parsed_args /\
    App.config_add_part_of parsed = App.add_part_of Fake2.parsed_args /\
    App.config_add_reviewers parsed = App.add_reviewers Fake2.parsed_args /\
    mem_string "--auth-token" Fake2.command_line = false /\
    mem_string "--ssh-key" Fake2.command_line = false /\
    (forall arg, In arg Fake2.command_line ->
                 arg <> "--auth-token" /\ arg <> "--ssh-key").
Proof.
  eexists. split; [vm_compute; reflexivity|].
  split; [simpl; auto|].
  eapply (parse_config_returns Fake2.parsed_args Fake2.command_line).
  vm_compute. reflexivity.
Defined.

Lemma default_ci_timeout_zero_is_fifteen_minutes_witness :
  exists w',
    wait_for_ci_to_pass (Fake2.lagging Fake.ci_passed 960000000) Fake2.by_default 5
      Fake.mr42 (Some "r9") Fake.world0
    = Some (Raise (new CannotMerge "CI is taking too long."), w') /\
    0 < ci_timeout (_options Fake2.by_default) /\
    (kw_ci_timeout Fake2.zero_ci_timeout = None \/
     kw_ci_timeout Fake2.zero_ci_timeout = Some 0 ->
     ci_timeout (_options Fake2.by_default) = 900000000) /\
    (kw_approval_timeout Fake2.zero_ci_timeout = None ->
     approval_timeout (_options Fake2.by_default) = 0) /\
    exists d,
      trace w' = (trace Fake.world0 ++ d)%list /\
      (d = [] ->
       @Raise unit (new CannotMerge "CI is taking too long.")
       = Raise (too_long (_options Fake2.by_default)) /\
       ext w' = Fake.mkForge 1920000000 [] /\
       ci_timeout (_options Fake2.by_default) <= Fake.clock (ext w') - 960000000) /\
      (1920000000 - 960000000 < ci_timeout (_options Fake2.by_default) ->
       (0 < polls d)%nat).
Proof.
  eexists. split; [vm_compute; reflexivity|].
  eapply (default_ci_timeout_zero_is_fifteen_minutes
            (Fake2.lagging Fake.ci_passed 960000000) Fake2.by_default
            Fake2.never Fake2.zero_ci_timeout 5 Fake.mr42 (Some "r9") Fake.world0).
  - reflexivity.
  - right. exists 0. split; [reflexivity|lia].
  - vm_compute. reflexivity.
Defined.

Lemma maybe_reapprove_guarded_witness :
  exists r w',
    maybe_reapprove (Fake.env Fake2.approvals_gone) (Fake2.env2 Fake2.obliging)
      (Fake.job Fake2.impersonating) 5 Fake.mr42 Fake2.approved Fake2.world0
    = Some (r, w') /\
    exists d,
      trace2 w' = (trace2 Fake2.world0 ++ d)%list /\
      (reapprove (_options (Fake.job Fake2.impersonating)) = false ->
       d = [] /\ r = Ret tt) /\
      (count2 is_reapprove d = O \/
       exists before ap,
         d = (before ++ [Ev (EvFetchApprovals (Ret ap));
                         EvReapprove Fake2.approved r])%list /\
         sufficient ap = false /\
         count2 is_reapprove before = O).
Proof.
  eexists. eexists. split; [vm_compute; reflexivity|].
  eapply (maybe_reapprove_guarded (Fake.env Fake2.approvals_gone)
            (Fake2.env2 Fake2.obliging) (Fake.job Fake2.impersonating)
            Fake.mr42 5 Fake2.approved Fake2.world0).
  vm_compute. reflexivity.
Defined.

Lemma maybe_reapprove_sleeps_witness :
  approvals_clock_forward (Fake.env Fake.happy) /\
  (enough_reapprove_turns (_options (Fake.job Fake2.impersonating)) <= 5)%nat /\
  exists r w' d,
    maybe_reapprove (Fake.env Fake.happy) (Fake2.env2 Fake2.obliging)
      (Fake.job Fake2.impersonating) 5 Fake.mr42 Fake2.approved Fake2.world0
    = Some (r, w') /\
    trace2 w' = (trace2 Fake2.world0 ++ d)%list /\
    forallb (fun ev => reapprove_poll_call ev || is_reapprove ev) d = true /\
    (count2 is_sleep2 d = O \/
     (Z.of_nat (count2 is_sleep2 d) - 1) * 5000000
     < approval_timeout (_options (Fake.job Fake2.impersonating))) /\
    (approval_timeout (_options (Fake.job Fake2.impersonating)) <= 0 ->
     count2 is_sleep2 d = O).
Proof.
  assert (Hclock : approvals_clock_forward (Fake.env Fake.happy))
    by (repeat split; intros; simpl; lia).
  assert (Hfuel : (enough_reapprove_turns (_options (Fake.job Fake2.impersonating))
                   <= 5)%nat)
    by (vm_compute; lia).
  split; [exact Hclock|]. split; [exact Hfuel|].
  exact (maybe_reapprove_sleeps (Fake.env Fake.happy) (Fake2.env2 Fake2.obliging)
           (Fake.job Fake2.impersonating) Fake.mr42 5 Fake2.approved Fake2.world0
           Hclock Hfuel).
Defined.

Lemma unassign_from_mr_never_to_bot_witness :
  exists w',
    unassign_from_mr (Fake2.env2 Fake2.obliging) (Fake.job Fake.options) Fake.mr42
      Fake2.world0 = (Ret tt, w') /\
    ((author_id Fake.mr42 <> user_id (_user (Fake.job Fake.options)) /\
      trace2 w' = (trace2 Fake2.world0
                   ++ [EvAssignTo (author_id Fake.mr42) (Ret tt)])%list) \/
     (author_id Fake.mr42 = user_id (_user (Fake.job Fake.options)) /\
      trace2 w' = (trace2 Fake2.world0 ++ [EvUnassign (Ret tt)])%list)).
Proof.
  eexists. split; [vm_compute; reflexivity|].
  eapply (unassign_from_mr_never_to_bot (Fake2.env2 Fake2.obliging)
            (Fake.job Fake.options) Fake.mr42 Fake2.world0).
  vm_compute. reflexivity.
Defined.

Lemma fetch_source_project_calls_witness :
  exists r w',
    fetch_source_project (Fake2.env2 Fake2.obliging) (Fake.job Fake.options)
      Fake2.fork_mr Fake2.world0 = (r, w') /\
    ((source_project_id Fake2.fork_mr = project_id (_project (Fake.job Fake.options)) /\
      r = Ret (the_project, None, "origin") /\ w' = Fake2.world0) \/
     (source_project_id Fake2.fork_mr <> project_id (_project (Fake.job Fake.options)) /\
      ((exists e,
          r = Raise e /\
          trace2 w' = (trace2 Fake2.world0
                       ++ [EvProjectFetchById (source_project_id Fake2.fork_mr)
                             (Raise e)])%list) \/
       (exists p fetched,
          trace2 w' = (trace2 Fake2.world0
                       ++ [EvProjectFetchById (source_project_id Fake2.fork_mr) (Ret p);
                           EvFetch "source" (ssh_url_to_repo p) fetched])%list /\
          match fetched with
          | Ret _ => r = Ret (another p, Some (ssh_url_to_repo p), "source")
          | Raise e => r = Raise e
          end)))).
Proof.
  eexists. eexists. split; [vm_compute; reflexivity|].
  eapply (fetch_source_project_calls (Fake2.env2 Fake2.obliging)
            (Fake.job Fake.options) Fake2.fork_mr Fake2.world0).
  vm_compute. reflexivity.
Defined.
